(** * European Scaleup Monitor: the dashboard script and its tables.

    A shallow embedding of [streamlit_country_app_newlayout.py]: the loaded
    spreadsheet is a column-indexed table of cells, Python floats are IEEE
    binary64 values, exceptions are an explicit result type and the Streamlit
    page is a log of the elements the script writes. *)

From Stdlib Require Import Floats ZArith Lia OrderedTypeEx.
From stdpp Require Import gmap strings list pretty sorting.
Set Warnings "-inexact-float".

(** ** Binary64 values *)
Module Binary64.
Local Open Scope Z_scope.

(** The mantissa of 100.0, whose exponent is -46. *)
Definition m100 : positive := 7036874417766400.

(** The order decided by [<].

    Every value but NaN has a rank in a lexicographic order on triples of
    integers, and [SFcompare] compares ranks. *)
Definition rank (f : spec_float) : Z * Z * Z :=
  match f with
  | S754_infinity true => (-2, 0, 0)
  | S754_finite true m e => (-1, - e, - Zpos m)
  | S754_zero _ => (0, 0, 0)
  | S754_nan => (0, 0, 0)
  | S754_finite false m e => (1, e, Zpos m)
  | S754_infinity false => (2, 0, 0)
  end.

Definition rank_lt (a b : Z * Z * Z) : Prop :=
  a.1.1 < b.1.1 \/ (a.1.1 = b.1.1 /\ (a.1.2 < b.1.2 \/ (a.1.2 = b.1.2 /\ a.2 < b.2))).

End Binary64.

(** ** Exceptions

    The exceptions the script can meet. [StopException] is what [st.stop()]
    raises to end the run. *)
Inductive exn := KeyError | IndexError | TypeError | ValueError | StopException.

Inductive result (A : Type) := Ok (a : A) | Raise (e : exn).
Arguments Ok {A} a.
Arguments Raise {A} e.

#[export] Instance result_ret : MRet result := @Ok.
#[export] Instance result_bind : MBind result :=
  fun A B f m => match m with Ok a => f a | Raise e => Raise e end.
#[export] Instance result_fmap : FMap result :=
  fun A B f m => match m with Ok a => Ok (f a) | Raise e => Raise e end.

Definition is_ok {A} (r : result A) : bool :=
  match r with Ok _ => true | Raise _ => false end.

(** ** Python built-ins *)
Module Python.

Section listsort.
Context {A : Type} (lt : A -> A -> bool).

(** [count_run]: the length of the run that starts the list, and whether
    it is strictly descending. *)
Fixpoint run_ascending (prev : A) (l : list A) : nat :=
  match l with
  | [] => 0
  | x :: l' => if lt x prev then 0 else S (run_ascending x l')
  end.

Fixpoint run_descending (prev : A) (l : list A) : nat :=
  match l with
  | [] => 0
  | x :: l' => if lt x prev then S (run_descending x l') else 0
  end.

Definition count_run (l : list A) : nat * bool :=
  match l with
  | [] => (0, false)
  | [a] => (1, false)
  | a :: b :: l' =>
      if lt b a then (2 + run_descending b l', true)
      else (2 + run_ascending b l', false)
  end.

(** [binarysort]: the pivot goes after every element of the sorted prefix
    that is not greater than it; the place is found by bisection. *)
Fixpoint bisect (fuel : nat) (pivot : A) (run : list A) (lo hi : nat) : nat :=
  match fuel with
  | 0 => lo
  | S fuel' =>
      if decide (lo < hi) then
        let mid := lo + (hi - lo) / 2 in
        match run !! mid with
        | Some x =>
            if lt pivot x then bisect fuel' pivot run lo mid
            else bisect fuel' pivot run (S mid) hi
        | None => lo
        end
      else lo
  end.

Definition binary_insert (run : list A) (pivot : A) : list A :=
  let i := bisect (length run) pivot run 0 (length run) in
  take i run ++ pivot :: drop i run.

(** [list.sort] on a list that fits one run (under 64 elements the minimal
    run length is the whole list): the leading run is found, reversed when
    descending, and the rest is inserted by [binarysort]. Longer lists are
    merged from several such runs, with the same result whenever [lt] is a
    strict weak order on the elements. *)
Definition listsort (l : list A) : list A :=
  let '(n, descending) := count_run l in
  let run := take n l in
  foldl binary_insert (if descending then reverse run else run) (drop n l).

(** Two elements that the order does not tell apart. *)
Definition tie (a b : A) : bool := negb (lt a b) && negb (lt b a).

(** [a] is not greater than [b], both being elements that the order handles
    (for floats: not NaN). *)
Definition le_on (P : A -> Prop) (a b : A) : Prop := P a /\ P b /\ lt b a = false.

(** [a] is smaller than [b], both being elements that the order handles. *)
Definition lt_on (P : A -> Prop) (a b : A) : Prop := P a /\ P b /\ lt a b = true.

(** [sorted(l, reverse=...)]: a reverse sort reverses the list, sorts it
    forward and reverses the result, which keeps it stable. *)
Definition py_sorted (rev : bool) (l : list A) : list A :=
  if rev then reverse (listsort (reverse l)) else listsort l.
End listsort.

(** [max(l)]: the first element is kept until a greater one is met. *)
Definition py_max (l : list float) : result float :=
  match l with
  | [] => Raise ValueError
  | x :: l' => Ok (foldl (fun m y => if (m <? y)%float then y else m) x l')
  end.

(** [l.index(x)] *)
Fixpoint index (l : list string) (x : string) : result nat :=
  match l with
  | [] => Raise ValueError
  | y :: l' => if String.eqb y x then Ok 0 else S <$> index l' x
  end.

(** [l[i]] *)
Definition getitem {A} (l : list A) (i : nat) : result A :=
  match l !! i with Some a => Ok a | None => Raise IndexError end.

(** [s * n] on a string *)
Fixpoint str_repeat (s : string) (n : nat) : string :=
  match n with 0 => "" | S n' => s +:+ str_repeat s n' end.

End Python.

(** ** The table library *)
Module Pandas.

(** A cell read from the spreadsheet: a number (an empty cell is NaN) or a
    text. Numbers are binary64 values; a cell of a column that pandas reads
    as whole numbers stands here as the float of the same value. *)
Inductive cell := CNum (x : float) | CStr (s : string).

(** A table maps each column name to its column; all columns of one table
    have the same length. *)
Abbreviation frame := (gmap string (list cell)).

Definition wf_frame (df : frame) : Prop :=
  exists n, forall name col, df !! name = Some col -> length col = n.

(** [a == b] *)
Definition cell_eqb (a b : cell) : bool :=
  match a, b with
  | CNum x, CNum y => (x =? y)%float
  | CStr s, CStr t => String.eqb s t
  | _, _ => false
  end.

(** Equality as the hash tables of [unique] and [isin] see it: all NaN are
    one value. *)
Definition cell_same (a b : cell) : bool :=
  match a, b with
  | CNum x, CNum y => (x =? y)%float || (is_nan x && is_nan y)
  | _, _ => cell_eqb a b
  end.

(** [df[name]] *)
Definition column (df : frame) (name : string) : result (list cell) :=
  match df !! name with Some col => Ok col | None => Raise KeyError end.

(** [name in df.columns] *)
Definition has_column (df : frame) (name : string) : bool :=
  bool_decide (is_Some (df !! name)).

(** [col.iloc[0]] *)
Definition iloc0 (col : list cell) : result cell :=
  match col with c :: _ => Ok c | [] => Raise IndexError end.

(** [col == value] *)
Definition eq_mask (col : list cell) (value : cell) : list bool :=
  map (fun c => cell_eqb c value) col.

(** [col.isin(values)] *)
Definition isin (col : list cell) (values : list cell) : list bool :=
  map (fun c => existsb (cell_same c) values) col.

Fixpoint mask_filter {A} (mask : list bool) (l : list A) : list A :=
  match mask, l with
  | b :: mask', a :: l' => if b then a :: mask_filter mask' l' else mask_filter mask' l'
  | _, _ => []
  end.

(** [df[mask]]: the rows where the mask holds, as a new table. *)
Definition select_rows (df : frame) (mask : list bool) : frame :=
  mask_filter mask <$> df.

(** [col.unique()]: the distinct values in order of first appearance. *)
Fixpoint unique_from (seen : list cell) (col : list cell) : list cell :=
  match col with
  | [] => []
  | c :: col' =>
      if existsb (cell_same c) seen then unique_from seen col'
      else c :: unique_from (c :: seen) col'
  end.

Definition unique (col : list cell) : list cell := unique_from [] col.

(** [df.head(n)] *)
Definition df_head (n : nat) (df : frame) : frame := take n <$> df.

(** [c * 100]: a float is multiplied, a text is repeated. (For a whole
    number the float product is the program's value as long as the cell is
    of moderate size; a 64-bit integer product wraps around beyond 2^63.) *)
Definition times100 (c : cell) : cell :=
  match c with
  | CNum x => CNum (x * 100)%float
  | CStr s => CStr (Python.str_repeat s 100)
  end.

Definition is_num (c : cell) : bool :=
  match c with CNum _ => true | CStr _ => false end.

Definition is_str (c : cell) : bool :=
  match c with CNum _ => false | CStr _ => true end.

(** [a < b] where both are numbers or both are texts. *)
Definition cell_ltb (a b : cell) : bool :=
  match a, b with
  | CNum x, CNum y => (x <? y)%float
  | CStr s, CStr t => String.ltb s t
  | _, _ => false
  end.

(** [sorted(l, key=key, reverse=rev)] with cells as keys. Comparing a text
    with a number raises [TypeError], and a sort of two or more elements
    whose keys are of both kinds meets such a comparison. *)
Definition sorted_by {A} (key : A -> cell) (rev : bool) (l : list A) : result (list A) :=
  if forallb is_num (map key l) || forallb is_str (map key l)
  then Ok (Python.py_sorted (fun a b => cell_ltb (key a) (key b)) rev l)
  else Raise TypeError.

End Pandas.
Export Pandas.

(** ** The palette *)
Module Seaborn.

Definition tab10 : list string :=
  ["#1f77b4"; "#ff7f0e"; "#2ca02c"; "#d62728"; "#9467bd";
   "#8c564b"; "#e377c2"; "#7f7f7f"; "#bcbd22"; "#17becf"].

(** [sns.color_palette("tab10", n)]: the first [n] colours of the palette,
    cycled when [n] exceeds its size. *)
Definition color_palette (n : nat) : list string :=
  let palette := take n tab10 in
  omap (fun i => palette !! (i mod length palette)) (seq 0 n).

End Seaborn.

(** ** The plotting library *)
Module Pyplot.

Record line2d := {
  line_label : cell;
  line_x : list Z;
  line_y : list float;
  line_color : string
}.

Record trend_axes := {
  lines : list line2d;
  notes : list (Z * float);
  ylim : float * float;
  xticks : list Z;
  legend_ncol : nat
}.

Record bar_axes := {
  bar_labels : list cell;
  bar_widths : list float;
  bar_colors : list string;
  bar_texts : list float;
  xlim : float * float
}.

(** [mtransforms.nonsingular(vmin, vmax, expander, tiny)]: a range that is
    not finite, or whose ends are both within
    [(1e6 / tiny) * np.finfo(float).tiny] of zero, becomes
    [-expander .. expander], and a range that is narrower than [tiny] times
    the size of its ends is widened by [expander] times each end. The
    result is in increasing order. *)
Definition nonsingular (vmin vmax expander tiny : float) : float * float :=
  if negb (is_finite vmin && is_finite vmax) then (- expander, expander)%float
  else
    let '(vmin, vmax) := if (vmax <? vmin)%float then (vmax, vmin) else (vmin, vmax) in
    let maxabs := if (abs vmin <? abs vmax)%float then abs vmax else abs vmin in
    if (maxabs <? (1e6 / tiny) * 0x1p-1022)%float then (- expander, expander)%float
    else if (vmax - vmin <=? maxabs * tiny)%float then
      if (vmax =? 0)%float && (vmin =? 0)%float then (- expander, expander)%float
      else (vmin - expander * abs vmin, vmax + expander * abs vmax)%float
    else (vmin, vmax).

(** [Locator.nonsingular(v0, v1)], which the tick locator of a linear axis
    applies to a range before it becomes the view. *)
Definition locator_nonsingular (v0 v1 : float) : float * float :=
  nonsingular v0 v1 0.05 1e-15.

(** [MaxNLocator.view_limits(dmin, dmax)] with the default
    [axes.autolimit_mode], which ends the autoscaling. *)
Definition view_limits (dmin dmax : float) : float * float :=
  nonsingular dmin dmax 1e-12 1e-13.

(** [sorted([v0, v1], reverse=reverse)] *)
Definition sorted_pair (reverse : bool) (v0 v1 : float) : float * float :=
  if reverse then (if (v0 <? v1)%float then (v1, v0) else (v0, v1))
  else (if (v1 <? v0)%float then (v1, v0) else (v0, v1)).

(** [ax.set_xlim(v0, v1)] and [ax.set_ylim(v0, v1)] on a linear axis: limits
    that are NaN or infinite are refused with [ValueError]; the others go
    through [Locator.nonsingular], so that identical or nearly identical
    limits are widened, and keep the direction they were given in. *)
Definition set_lim (v0 v1 : float) : result (float * float) :=
  if is_finite v0 && is_finite v1 then
    let reverse := (v1 <? v0)%float in
    let '(v0, v1) := locator_nonsingular v0 v1 in
    Ok (sorted_pair reverse v0 v1)
  else Raise ValueError.

(** The data limits of the lines: the least and the greatest finite value. *)
Definition data_interval (ys : list float) : float * float :=
  foldl (fun '(lo, hi) y =>
           if is_finite y
           then (if (y <? lo)%float then y else lo, if (hi <? y)%float then y else hi)
           else (lo, hi))
        (infinity, neg_infinity) ys.

(** Default autoscaling of a linear axis ([axes.ymargin] is 0.05): the view
    spans the finite data, made non-singular, plus 5% of the span at each
    end, and goes through [view_limits]. *)
Definition autoscale (data : list (list float)) : float * float :=
  let '(lo, hi) := data_interval (concat data) in
  let '(v0, v1) := locator_nonsingular lo hi in
  let delta := ((v1 - v0) * 0.05)%float in
  let delta := if is_finite delta then delta else 0%float in
  view_limits (v0 - delta) (v1 + delta).

End Pyplot.
Export Pyplot.

(** ** The page and the script monad *)

(** What the script shows. Static text (style sheet, sidebar, headers,
    footer) is left out. *)
Inductive element :=
  | st_error (msg : string)
  | st_pills (countries : list cell)
  | st_warning_select_country
  | st_preview (rows : frame)
  | st_title (display : string)
  | st_pyplot_trend (ax : trend_axes)
  | st_warning_incomplete (country : cell) (year : Z)
  | st_pyplot_bars (ax : bar_axes)
  | st_warning_insufficient
  | st_info_select_two.

(** The spreadsheet file as [pd.read_excel] finds it. *)
Inductive excel := Missing | Unreadable (why : string) | Sheet (df : frame).

(** The state a run works on: the file, the cache of [load_data] and the
    page written so far. *)
Record world := {
  file : excel;
  cache : option frame;
  page : list element
}.

Definition with_page (w : world) (p : list element) : world :=
  {| file := file w; cache := cache w; page := p |}.

Definition script (A : Type) : Type := world -> result A * world.

#[export] Instance script_ret : MRet script := fun A a w => (Ok a, w).
#[export] Instance script_bind : MBind script :=
  fun A B f m w =>
    match m w with
    | (Ok a, w') => f a w'
    | (Raise e, w') => (Raise e, w')
    end.

Definition lift {A} (r : result A) : script A := fun w => (r, w).

Definition emit (e : element) : script unit :=
  fun w => (Ok tt, with_page w (page w ++ [e])).

Definition st_stop {A} : script A := lift (Raise StopException).

(** [load_data] under [st.cache_data]: the file is read on the first call
    and the cached table is handed out afterwards. *)
Definition load_data : script frame :=
  fun w =>
    match cache w with
    | Some df => (Ok df, w)
    | None =>
        match file w with
        | Sheet df => (Ok df, {| file := file w; cache := Some df; page := page w |})
        | Missing =>
            (emit (st_error "Data file not found. Please ensure 'Aggregate country with country.xlsx' is in the same directory as this app.")
               ≫= fun _ => st_stop) w
        | Unreadable why =>
            (emit (st_error ("Error loading data: " +:+ why)) ≫= fun _ => st_stop) w
        end
    end.

(** ** The metric catalogue *)

Definition metrics_mapping : list (string * string) :=
  [ ("Scaler", "Scaler: Companies with 10%+ growth");
    ("High Growth Firm", "High Growth Firm: Companies with 20%+ growth");
    ("Consistent High Growth Firm", "Consistent High Growth Firm: Consistent 20%+ growth");
    ("Consistent Hypergrower", "Consistent Hypergrower: Consistent 40%+ growth");
    ("Gazelle", "Gazelle: Young high growth firms");
    ("Mature High Growth Firm", "Mature High Growth Firm: Mature high growth firms");
    ("Scaleup", "Scaleup: Young hypergrowers");
    ("Superstar", "Superstar: Mature hypergrowers") ].

Definition metrics_to_column : list (string * string) :=
  [ ("Scaler", "Scaler");
    ("High Growth Firm", "HighGrowthFirm");
    ("Consistent High Growth Firm", "ConsistentHighGrowthFirm");
    ("Consistent Hypergrower", "VeryHighGrowthFirm");
    ("Gazelle", "Gazelle");
    ("Mature High Growth Firm", "Mature");
    ("Scaleup", "Scaleup");
    ("Superstar", "Superstar") ].

(** [d[key]] *)
Fixpoint dict_get (d : list (string * string)) (key : string) : result string :=
  match d with
  | [] => Raise KeyError
  | (k, v) :: d' => if String.eqb k key then Ok v else dict_get d' key
  end.

(** The metric name behind a display label:
    [list(metrics_mapping.keys())[list(metrics_mapping.values()).index(selected_display)]] *)
Definition selected_user_metrics (selected_display : string) : result string :=
  i ← Python.index (metrics_mapping.*2) selected_display;
  Python.getitem (metrics_mapping.*1) i.

(** The column prefix of the chosen metric. *)
Definition selected_metrics (selected_display : string) : result string :=
  user_metric ← selected_user_metrics selected_display;
  dict_get metrics_to_column user_metric.

(** ** Extraction *)

Definition years : list Z := [2019; 2020; 2021; 2022; 2023]%Z.
Definition latest_year : Z := 2023%Z.

(** [f"{prefix} {year} {kind}"] *)
Definition col_name (prefix : string) (year : Z) (kind : string) : string :=
  prefix +:+ " " +:+ pretty year +:+ " " +:+ kind.

(** The options of the country control:
    [sorted(df['Country'].unique())] *)
Definition countries (df : frame) : result (list cell) :=
  col ← column df "Country";
  sorted_by id false (unique col).

(** [countries[:3] if len(countries) >= 3 else countries[:1]]: what the
    country control preselects. *)
Definition default_countries (countries : list cell) : list cell :=
  if 3 <=? length countries then take 3 countries else take 1 countries.

(** [df[df['Country'].isin(selected_countries)]] *)
Definition filter_selected (df : frame) (selected_countries : list cell) : result frame :=
  col ← column df "Country";
  Ok (select_rows df (isin col selected_countries)).

(** [filtered_data[filtered_data['Country'] == country]] *)
Definition country_rows (filtered_data : frame) (country : cell) : result frame :=
  col ← column filtered_data "Country";
  Ok (select_rows filtered_data (eq_mask col country)).

(** One point of a trend line. *)
Definition trend_point (country_data : frame) (prefix : string) (year : Z) : result cell :=
  let name := col_name prefix year "%" in
  if has_column country_data name then
    col ← column country_data name;
    c ← iloc0 col;
    Ok (times100 c)
  else Ok (CNum nan).

(** A value handed to the plot: a text among the values makes the plot or
    the [np.isnan] test that follows it raise [TypeError]. *)
Definition as_float (c : cell) : result float :=
  match c with CNum x => Ok x | CStr _ => Raise TypeError end.

(** The value labels of one line: one for each value that is not NaN. *)
Definition value_labels (xs : list Z) (ys : list float) : list (Z * float) :=
  filter (fun p => is_nan p.2 = false) (zip xs ys).

(** The body of the loop over the selected countries, from position [i]. *)
Fixpoint plot_countries (filtered_data : frame) (prefix : string) (colors : list string)
    (i : nat) (selected : list cell) (acc : list line2d * list (Z * float))
    : result (list line2d * list (Z * float)) :=
  match selected with
  | [] => Ok acc
  | country :: rest =>
      country_data ← country_rows filtered_data country;
      ylist ← mapM (trend_point country_data prefix) years;
      color ← Python.getitem colors i;
      ys ← mapM as_float ylist;
      let line := {| line_label := country; line_x := years; line_y := ys; line_color := color |} in
      plot_countries filtered_data prefix colors (S i) rest
        (acc.1 ++ [line], acc.2 ++ value_labels years ys)
  end.

(** The values of the line of one country: the points of the five years, as
    the plot takes them. *)
Definition trend_series (filtered_data : frame) (prefix : string) (country : cell)
    : result (list float) :=
  country_data ← country_rows filtered_data country;
  ylist ← mapM (trend_point country_data prefix) years;
  mapM as_float ylist.

(** One record of the comparison: the body of the [try]. *)
Record entry := {
  Country : cell;
  Percentage : cell;
  Number : cell;
  Total : cell
}.

Definition latest_entry (country_data : frame) (prefix : string) (country : cell) : result entry :=
  percentage ← (column country_data (col_name prefix latest_year "%") ≫= iloc0);
  num_companies ← (column country_data (col_name prefix latest_year "Num") ≫= iloc0);
  total_obs ← (column country_data (col_name prefix latest_year "Obs") ≫= iloc0);
  Ok {| Country := country; Percentage := times100 percentage;
        Number := num_companies; Total := total_obs |}.

(** The loop that gathers [latest_data]; [KeyError] and [IndexError] are
    caught and reported, anything else goes up. *)
Fixpoint collect_latest (filtered_data : frame) (prefix : string)
    (selected : list cell) (latest_data : list entry) : script (list entry) :=
  match selected with
  | [] => mret latest_data
  | country :: rest =>
      country_data ← lift (country_rows filtered_data country);
      match latest_entry country_data prefix country with
      | Ok e => collect_latest filtered_data prefix rest (latest_data ++ [e])
      | Raise KeyError | Raise IndexError =>
          _ ← emit (st_warning_incomplete country latest_year);
          collect_latest filtered_data prefix rest latest_data
      | Raise e => lift (Raise e)
      end
  end.

(** [f"{v:.2f}%"]: the format refuses a text with [ValueError]. *)
Definition format_2f (c : cell) : result float :=
  match c with CNum x => Ok x | CStr _ => Raise ValueError end.

(** The bar chart of the comparison tab. *)
Definition bar_figure (latest_data : list entry) : result bar_axes :=
  latest_data ← sorted_by Percentage true latest_data;
  let countries := Country <$> latest_data in
  let percentages := Percentage <$> latest_data in
  let colors := Seaborn.color_palette (length countries) in
  texts ← mapM format_2f percentages;
  top ← Python.py_max texts;
  lim ← set_lim 0 (top * 1.2)%float;
  Ok {| bar_labels := countries; bar_widths := texts; bar_colors := colors;
        bar_texts := texts; xlim := lim |}.

(** The comparison tab. [st.pyplot(fig)] is taken to show the figure it is
    given; that it can fail on a figure too large to render is not part of
    this model. *)
Definition comparison_tab (filtered_data : frame) (prefix : string)
    (selected_countries : list cell) : script unit :=
  if decide (1 < length selected_countries) then
    latest_data ← collect_latest filtered_data prefix selected_countries [];
    match latest_data with
    | _ :: _ =>
        ax ← lift (bar_figure latest_data);
        emit (st_pyplot_bars ax)
    | [] => emit st_warning_insufficient
    end
  else emit st_info_select_two.

Section Render.
(** [ax.get_ylim()] after the lines are drawn: the view limits the axes
    have autoscaled to them. *)
Variable get_ylim : list line2d -> float * float.

(** The trend chart. *)
Definition trend_figure (filtered_data : frame) (prefix : string)
    (selected_countries : list cell) : result trend_axes :=
  let colors := Seaborn.color_palette (length selected_countries) in
  drawn ← plot_countries filtered_data prefix colors 0 selected_countries ([], []);
  let '(bottom, top) := get_ylim drawn.1 in
  lim ← set_lim 0 (top * 1.1)%float;
  Ok {| lines := drawn.1; notes := drawn.2; ylim := lim; xticks := years;
        legend_ncol := 5 `min` length selected_countries |}.

(** The trend tab; [st.pyplot(fig)] as in the comparison tab. *)
Definition trend_tab (filtered_data : frame) (prefix : string)
    (selected_countries : list cell) : script unit :=
  ax ← lift (trend_figure filtered_data prefix selected_countries);
  emit (st_pyplot_trend ax).

(** One run of the script, for the countries and the display label the two
    controls return. *)
Definition main (selected_countries : list cell) (selected_display : string) : script unit :=
  df ← load_data;
  _ ← lift (countries df);
  _ ← (if selected_countries is [] then mret tt else emit (st_pills selected_countries));
  prefix ← lift (selected_metrics selected_display);
  if selected_countries is [] then
    _ ← emit st_warning_select_country;
    emit (st_preview (df_head 5 df))
  else
    filtered_data ← lift (filter_selected df selected_countries);
    _ ← emit (st_title selected_display);
    _ ← trend_tab filtered_data prefix selected_countries;
    comparison_tab filtered_data prefix selected_countries.
End Render.

(** The script with the plotting library's own autoscaling. *)
Definition get_ylim_default (drawn : list line2d) : float * float :=
  autoscale (line_y <$> drawn).

(** ** Notions used in the statements *)

(** The first row of a country in the [Country] column. *)
Definition first_row (cs : list cell) (c : cell) : option nat :=
  fst <$> list_find (fun x => cell_eqb x c = true) cs.

(** A percentage cell that holds a fraction between 0.0 and 1.0. *)
Definition is_fraction (c : cell) : bool :=
  match c with
  | CNum x => (0 <=? x)%float && (x <=? 1)%float
  | CStr _ => false
  end.

(** A look-up of the comparison, [country_data[name].iloc[0]], succeeds. *)
Definition lookup_ok (country_data : frame) (name : string) : bool :=
  is_ok (column country_data name ≫= iloc0).

(** The three look-ups of the latest year all succeed for a country. *)
Definition complete (filtered_data : frame) (prefix : string) (country : cell) : bool :=
  match country_rows filtered_data country with
  | Ok country_data =>
      lookup_ok country_data (col_name prefix latest_year "%")
      && lookup_ok country_data (col_name prefix latest_year "Num")
      && lookup_ok country_data (col_name prefix latest_year "Obs")
  | Raise _ => false
  end.

(** The greatest plotted value of a trend chart: the greatest value of its
    lines that is not missing. *)
Definition max_plotted (ax : trend_axes) : result float :=
  Python.py_max (filter (fun y => is_nan y = false) (concat (line_y <$> lines ax))).

(** A limit [t] so near zero that [set_xlim(0, t)] and [set_ylim(0, t)] take
    the two limits for identical: its magnitude is below
    [(1e6 / 1e-15) * np.finfo(float).tiny], about 2.2e-287. *)
Definition near_zero (t : float) : bool :=
  (abs t <? (1e6 / 1e-15) * 0x1p-1022)%float.

(** The view from 0 to [t], as the axes keep it: limits that are nearly
    identical are replaced by -0.05 and 0.05, in the direction from 0 to
    [t]. *)
Definition view_from_zero (t : float) : float * float :=
  if near_zero t then (if (t <? 0)%float then (0.05, -0.05)%float else (-0.05, 0.05)%float)
  else (0%float, t).

(** A cell whose product with 100 is the same number whether pandas read
    its column as floats or as whole numbers: a text, an empty cell, or a
    number of magnitude at most 2^46, for which neither the 64-bit integer
    product wraps around nor the float product is rounded differently. *)
Definition moderate (c : cell) : bool :=
  match c with
  | CNum x => is_nan x || (abs x <=? 0x1p46)%float
  | CStr _ => true
  end.

(** The order of the comparison: [x['Percentage']] of one record is smaller
    than that of the other. *)
Definition percentage_lt (a b : entry) : bool :=
  cell_ltb (Percentage a) (Percentage b).

(** A record whose percentage is a number, not NaN. *)
Definition has_percentage (e : entry) : Prop :=
  exists x, Percentage e = CNum x /\ is_nan x = false.

(** The pages that show a bar chart. *)
Definition shows_bars (e : element) : bool :=
  match e with st_pyplot_bars _ => true | _ => false end.

(** ** Sample tables *)

(** Three countries; France has an empty cell for the 2023 percentage. *)
Definition sample_df : frame :=
  list_to_map
    [("Country", [CStr "Germany"; CStr "France"; CStr "Spain"]);
     ("Scaler 2022 %", [CNum 0.1; CNum 0.3; CNum 0.2]);
     ("Scaler 2023 %", [CNum 0.15; CNum nan; CNum 0.2]);
     ("Scaler 2023 Num", [CNum 15; CNum 3; CNum 20]);
     ("Scaler 2023 Obs", [CNum 100; CNum 10; CNum 100])].

Definition sample_world : world :=
  {| file := Sheet sample_df; cache := None; page := [] |}.

Definition scaler_label : string := "Scaler: Companies with 10%+ growth".

(** The same table without the empty cell. *)
Definition full_df : frame :=
  <["Scaler 2023 %" := [CNum 0.15; CNum 0.3; CNum 0.2]]> sample_df.

(** Eleven countries with one percentage column. *)
Definition eleven : list cell :=
  [CStr "Austria"; CStr "Belgium"; CStr "Croatia"; CStr "Denmark"; CStr "Estonia";
   CStr "Finland"; CStr "France"; CStr "Germany"; CStr "Hungary"; CStr "Ireland";
   CStr "Italy"].

Definition eleven_df : frame :=
  list_to_map
    [("Country", eleven);
     ("Scaler 2023 %", [CNum 0.1; CNum 0.2; CNum 0.3; CNum 0.1; CNum 0.2; CNum 0.3;
                        CNum 0.1; CNum 0.2; CNum 0.3; CNum 0.1; CNum 0.2])].

Definition sample_selection : list cell := [CStr "Germany"; CStr "France"; CStr "Spain"].

(** [df[df['Country'].isin(selected_countries)]] on a table that has the
    [Country] column. *)
Definition filtered_by (df : frame) (selected_countries : list cell) : frame :=
  match filter_selected df selected_countries with
  | Ok filtered_data => filtered_data
  | Raise _ => df
  end.

(** A step that changes neither the file nor the cache. *)
Definition keeps_data {A} (m : script A) : Prop :=
  forall w, file (m w).2 = file w /\ cache (m w).2 = cache w.

(** The table a run works on: the cached one, or the one in the file when
    the cache is empty. *)
Definition loaded (w : world) : option frame :=
  match cache w with
  | Some df => Some df
  | None => match file w with Sheet df => Some df | _ => None end
  end.

(** The world with another file in place of the spreadsheet. *)
Definition set_file (f : excel) (w : world) : world :=
  {| file := f; cache := cache w; page := page w |}.

(** A step whose outcome does not depend on the file. *)
Definition ignores_file {A} (m : script A) : Prop :=
  forall f w, m (set_file f w) = ((m w).1, set_file f (m w).2).

(** The comparison data of the table without the empty cell. *)
Definition full_latest : list entry :=
  [ {| Country := CStr "Germany"; Percentage := CNum 15; Number := CNum 15; Total := CNum 100 |};
    {| Country := CStr "France"; Percentage := CNum 30; Number := CNum 3; Total := CNum 10 |};
    {| Country := CStr "Spain"; Percentage := CNum 20; Number := CNum 20; Total := CNum 100 |} ].

(** A world whose table is cached and whose file is gone. *)
Definition cached_world : world :=
  {| file := Missing; cache := Some sample_df; page := [] |}.


(** A table whose [Country] column has an empty cell. *)
Definition gap_df : frame :=
  <["Country" := [CStr "Germany"; CNum nan; CStr "Spain"]]> sample_df.

(** ** Python floats

    Facts about binary64 arithmetic, read off the reference semantics of the
    primitive operations. *)
Module PyFloat.
Import Binary64.
Local Open Scope Z_scope.

Lemma Prim2SF_0 : Prim2SF 0%float = S754_zero false. Proof. reflexivity. Qed.
Lemma Prim2SF_1 : Prim2SF 1%float = S754_finite false 4503599627370496 (-52). Proof. reflexivity. Qed.
Lemma Prim2SF_100 : Prim2SF 100%float = S754_finite false 7036874417766400 (-46). Proof. reflexivity. Qed.

Lemma digits2_pos_bounds p :
  2 ^ (Zpos (digits2_pos p) - 1) <= Zpos p < 2 ^ (Zpos (digits2_pos p)).
Proof.
  induction p as [p IH|p IH|]; cbn [digits2_pos].
  - rewrite Pos2Z.inj_succ. replace (Z.succ (Zpos (digits2_pos p)) - 1) with (Zpos (digits2_pos p)) by lia.
    rewrite Z.pow_succ_r by lia.
    assert (2 ^ Zpos (digits2_pos p) = 2 * 2 ^ (Zpos (digits2_pos p) - 1)) as E.
    { rewrite <- Z.pow_succ_r by lia. f_equal. lia. }
    lia.
  - rewrite Pos2Z.inj_succ. replace (Z.succ (Zpos (digits2_pos p)) - 1) with (Zpos (digits2_pos p)) by lia.
    rewrite Z.pow_succ_r by lia.
    assert (2 ^ Zpos (digits2_pos p) = 2 * 2 ^ (Zpos (digits2_pos p) - 1)) as E.
    { rewrite <- Z.pow_succ_r by lia. f_equal. lia. }
    lia.
  - change (2 ^ 0 <= 1 < 2 ^ 1). lia.
Qed.

Lemma shr_1_m mrs : 0 <= shr_m mrs -> shr_m (shr_1 mrs) = shr_m mrs / 2.
Proof.
  destruct mrs as [m r s]. cbn [shr_m]. intros Hm.
  destruct m as [|[p|p|]|p]; cbn [shr_1 shr_m]; try lia; try reflexivity.
  - rewrite Pos2Z.inj_xI. apply Z.div_unique with (r := 1); lia.
  - rewrite Pos2Z.inj_xO. apply Z.div_unique with (r := 0); lia.
Qed.

Lemma iter_shr_1_m p : forall mrs, 0 <= shr_m mrs ->
  shr_m (SpecFloat.iter_pos shr_1 p mrs) = shr_m mrs / 2 ^ Zpos p.
Proof.
  induction p as [p IH|p IH|]; intros mrs Hm; cbn [SpecFloat.iter_pos].
  - assert (0 <= shr_m (shr_1 mrs)) as H1.
    { rewrite shr_1_m by assumption. apply Z.div_pos; lia. }
    assert (0 <= shr_m (SpecFloat.iter_pos shr_1 p (shr_1 mrs))) as H2.
    { rewrite IH by assumption. apply Z.div_pos; [assumption|]. apply Z.pow_pos_nonneg; lia. }
    rewrite IH by assumption. rewrite IH by assumption. rewrite shr_1_m by assumption.
    rewrite !Z.div_div by (try apply Z.pow_pos_nonneg; lia).
    f_equal. rewrite Pos2Z.inj_xI. rewrite <- Z.pow_add_r by lia.
    rewrite <- Z.pow_succ_r by lia. f_equal. lia.
  - assert (0 <= shr_m (SpecFloat.iter_pos shr_1 p mrs)) as H2.
    { rewrite IH by assumption. apply Z.div_pos; [assumption|]. apply Z.pow_pos_nonneg; lia. }
    rewrite IH by assumption. rewrite IH by assumption.
    rewrite !Z.div_div by (try apply Z.pow_pos_nonneg; lia).
    f_equal. rewrite Pos2Z.inj_xO. rewrite <- Z.pow_add_r by lia. f_equal. lia.
  - rewrite shr_1_m by assumption. reflexivity.
Qed.

Lemma shr_fexp_exact m E :
  0 <= m ->
  let k := Z.max 0 (fexp prec emax (Zdigits2 m + E) - E) in
  shr_m (fst (shr_fexp prec emax m E loc_Exact)) = m / 2 ^ k /\
  snd (shr_fexp prec emax m E loc_Exact) = E + k.
Proof.
  intros Hm k. unfold shr_fexp, shr. cbn [shr_record_of_loc].
  fold k. subst k.
  destruct (fexp prec emax (Zdigits2 m + E) - E) as [|p|p] eqn:Hk; cbn [fst snd shr_m].
  - rewrite Z.max_l by lia. rewrite Z.pow_0_r, Z.div_1_r. split; [reflexivity | lia].
  - rewrite Z.max_r by lia. rewrite iter_shr_1_m by (cbn; lia). split; reflexivity.
  - rewrite Z.max_l by lia. rewrite Z.pow_0_r, Z.div_1_r. split; [reflexivity | lia].
Qed.

Lemma round_nearest_even_bounds m l :
  m <= round_nearest_even m l <= m + 1.
Proof.
  destruct l as [|[| |]]; cbn [round_nearest_even]; try lia.
  destruct (Z.even m); lia.
Qed.

Lemma binary_round_aux_exact (s : bool) M E :
  exists m1 m2 e1 e2,
    let k1 := Z.max 0 (fexp prec emax (Zpos (digits2_pos M) + E) - E) in
    let k2 := Z.max 0 (fexp prec emax (Zdigits2 m1 + e1) - e1) in
    e1 = E + k1 /\ Zpos M / 2 ^ k1 <= m1 <= Zpos M / 2 ^ k1 + 1 /\
    e2 = e1 + k2 /\ m2 = m1 / 2 ^ k2 /\
    binary_round_aux prec emax s (Zpos M) E loc_Exact =
      match m2 with
      | Z0 => S754_zero s
      | Zpos m => if e2 <=? emax - prec then S754_finite s m e2 else S754_infinity s
      | Zneg _ => S754_nan
      end.
Proof.
  unfold binary_round_aux.
  destruct (shr_fexp_exact (Zpos M) E ltac:(lia)) as [Hm1 He1].
  destruct (shr_fexp prec emax (Zpos M) E loc_Exact) as [mrs1 e1].
  cbn [fst snd] in Hm1, He1.
  set (m1 := round_nearest_even (shr_m mrs1) (loc_of_shr_record mrs1)).
  assert (0 <= m1) as Hm1pos.
  { pose proof (round_nearest_even_bounds (shr_m mrs1) (loc_of_shr_record mrs1)) as Hb.
    fold m1 in Hb. rewrite Hm1 in Hb.
    assert (0 <= Zpos M / 2 ^ Z.max 0 (fexp prec emax (Zdigits2 (Zpos M) + E) - E)).
    { apply Z.div_pos; [lia|]. apply Z.pow_pos_nonneg; lia. }
    lia. }
  destruct (shr_fexp_exact m1 e1 Hm1pos) as [Hm2 He2].
  destruct (shr_fexp prec emax m1 e1 loc_Exact) as [mrs2 e2].
  cbn [fst snd] in Hm2, He2.
  exists m1, (shr_m mrs2), e1, e2. cbn zeta.
  split; [exact He1|]. split.
  { pose proof (round_nearest_even_bounds (shr_m mrs1) (loc_of_shr_record mrs1)) as Hb.
    fold m1 in Hb. rewrite Hm1 in Hb. exact Hb. }
  split; [exact He2|]. split; [exact Hm2|]. reflexivity.
Qed.

Lemma Zdigits2_le_54 m1 : 0 <= m1 <= 2 ^ 53 -> Zdigits2 m1 <= 54 /\ (Zdigits2 m1 = 54 -> m1 = 2 ^ 53).
Proof.
  intros [H0 H1]. destruct m1 as [|p|p]; cbn [Zdigits2]; try lia.
  pose proof (digits2_pos_bounds p) as [Hlo _].
  assert (Zpos (digits2_pos p) <= 54) as Hd.
  { destruct (Z_le_gt_dec (Zpos (digits2_pos p)) 54) as [|Hgt]; [assumption|].
    assert (2 ^ 54 <= 2 ^ (Zpos (digits2_pos p) - 1)) by (apply Z.pow_le_mono_r; lia).
    assert (2 ^ 53 < 2 ^ 54) by (apply Z.pow_lt_mono_r; lia). lia. }
  split; [exact Hd|]. intros E. rewrite E in Hlo. change (54 - 1) with 53 in Hlo. lia.
Qed.

Lemma mul_core (c m : positive) e m1 m2 e1 e2 :
  2 ^ 52 <= Zpos c < 2 ^ 53 ->
  bounded prec emax m e = true -> e <= -53 ->
  let E := e + -46 in
  let k1 := Z.max 0 (fexp prec emax (Zpos (digits2_pos (m * c)) + E) - E) in
  let k2 := Z.max 0 (fexp prec emax (Zdigits2 m1 + e1) - e1) in
  e1 = E + k1 -> Zpos (m * c) / 2 ^ k1 <= m1 <= Zpos (m * c) / 2 ^ k1 + 1 ->
  e2 = e1 + k2 -> m2 = m1 / 2 ^ k2 ->
  0 <= m2 /\ e2 <= -46 /\ (e2 < -46 \/ m2 <= Zpos c).
Proof.
  intros HP Hb He E k1 k2 He1 Hm1 He2 Hm2.
  unfold bounded, canonical_mantissa in Hb.
  apply andb_prop in Hb as [Hc Hemax]. apply Z.eqb_eq in Hc. apply Z.leb_le in Hemax.
  unfold fexp, emin, prec, emax in *.
  pose proof (digits2_pos_bounds m) as [_ Hmhi].
  pose proof (digits2_pos_bounds (m * c)) as [HMlo HMhi].
  set (dm := Zpos (digits2_pos m)) in *.
  set (D := Zpos (digits2_pos (m * c))) in *.
  assert (0 < dm) as Hdmpos by (subst dm; lia).
  assert (0 < D) as HDpos by (subst D; lia).
  rewrite Pos2Z.inj_mul in *.
  set (P := Zpos c) in *. set (X := Zpos m) in *.
  assert (0 < X) as HX by (subst X; lia).
  set (T := 2 ^ 53) in *.
  assert (2 ^ 52 * 2 = T) as H52 by reflexivity.
  assert (0 < 2 ^ 52) as H52pos by (apply Z.pow_pos_nonneg; lia).
  assert (dm <= 53) as Hdm by lia.
  assert (-1074 <= e) as Helo by lia.
  assert (X < T) as Hm53.
  { assert (2 ^ dm <= 2 ^ 53) by (apply Z.pow_le_mono_r; lia). fold T in H. lia. }
  assert (53 <= D) as HD53.
  { destruct (Z_le_gt_dec 53 D) as [|Hgt]; [assumption|].
    assert (2 ^ D <= 2 ^ 52) by (apply Z.pow_le_mono_r; lia). nia. }
  assert (D <= 106) as HD106.
  { destruct (Z_le_gt_dec D 106) as [|Hgt]; [assumption|].
    assert (2 ^ 106 <= 2 ^ (D - 1)) by (apply Z.pow_le_mono_r; lia).
    assert (2 ^ 106 = T * T) as E106 by (unfold T; rewrite <- Z.pow_add_r by lia; reflexivity). nia. }
  assert (k1 = Z.max (D - 53) (-1074 - E)) as Hk1 by (subst k1 E; lia).
  assert (0 <= k1) as Hk1pos by lia.
  assert (0 < 2 ^ k1) as Hpk1 by (apply Z.pow_pos_nonneg; lia).
  assert (0 <= X * P / 2 ^ k1) as Hq0 by (apply Z.div_pos; nia).
  assert (X * P / 2 ^ k1 < T) as Hq.
  { apply Z.div_lt_upper_bound; [assumption|].
    unfold T. rewrite <- Z.pow_add_r by lia.
    assert (2 ^ D <= 2 ^ (k1 + 53)) by (apply Z.pow_le_mono_r; lia). lia. }
  assert (0 <= m1 <= 2 ^ 53) as Hm1b by (fold T; lia).
  destruct (Zdigits2_le_54 m1 Hm1b) as [Hd1 Hd1eq].
  assert (0 <= Zdigits2 m1) as Hd1pos by (destruct m1; cbn; lia).
  assert (e1 <= -46) as He1b by (subst e1 E; lia).
  assert (-1074 <= e1) as He1lo by (subst e1 E; lia).
  assert (e1 = -46 -> m1 <= P) as Htop.
  { intros Heq. assert (k1 = 53) as Hk53 by (subst e1 E; lia).
    assert (X * P / 2 ^ k1 < P) as Hlt.
    { apply Z.div_lt_upper_bound; [assumption|]. rewrite Hk53. fold T. nia. }
    lia. }
  assert (k2 = 0 \/ (k2 = 1 /\ Zdigits2 m1 = 54)) as Hk2 by (subst k2; lia).
  destruct Hk2 as [Hk2|[Hk2 Hd54]].
  - rewrite Hk2 in *. rewrite Z.pow_0_r, Z.div_1_r in Hm2. subst m2.
    split; [lia|]. split; [lia|].
    destruct (Z.eq_dec e1 (-46)) as [Heq|Hne].
    + right. apply Htop. exact Heq.
    + left. lia.
  - rewrite Hk2 in *. specialize (Hd1eq Hd54). fold T in Hd1eq. subst m1.
    assert (e1 <> -46) as Hne by (intros Heq; specialize (Htop Heq); lia).
    assert (T / 2 ^ 1 = 2 ^ 52) as Hhalf.
    { rewrite Z.pow_1_r. symmetry. apply Z.div_unique_exact; lia. }
    rewrite Hhalf in Hm2. subst m2.
    split; [lia|]. split; [lia|]. right. lia.
Qed.

Lemma SFleb_same_exp p c e : (p <= c)%positive -> SFleb (S754_finite false p e) (S754_finite false c e) = true.
Proof. intros Hle. unfold SFleb, SFcompare. rewrite Z.compare_refl.
 rewrite Pos.compare_cont_spec. cbn [Pos.switch_Eq].
 destruct (Pos.compare_spec p c) as [| |Hgt]; try reflexivity.
 apply Pos.lt_nle in Hgt. elim Hgt. exact Hle.
Qed.
Lemma SFleb_lt_exp p c e1 e2 : e1 < e2 -> SFleb (S754_finite false p e1) (S754_finite false c e2) = true.
Proof. intros H. unfold SFleb, SFcompare.
  destruct (Z.compare_spec e1 e2) as [Heq|Hlt|Hgt]; [lia|reflexivity|lia].
Qed.

Lemma SF64mul_finite m e c ec :
  SF64mul (S754_finite false m e) (S754_finite false c ec) =
  binary_round_aux prec emax false (Zpos (m * c)) (e + ec) loc_Exact.
Proof. reflexivity. Qed.

Lemma le_one_cases m e :
  bounded prec emax m e = true ->
  SFleb (S754_finite false m e) (S754_finite false 4503599627370496 (-52)) = true ->
  e <= -53 \/ (e = -52 /\ m = 4503599627370496%positive).
Proof.
  intros Hv H1.
  unfold SFleb, SFcompare in H1.
  destruct (Z.compare_spec e (-52)) as [Heq|Hlt|Hgt]; [|left; lia|discriminate].
  right. split; [exact Heq|]. subst e.
  rewrite Pos.compare_cont_spec in H1. cbn [Pos.switch_Eq] in H1.
  assert ((m <= 4503599627370496)%positive) as Hle.
  { unfold Pos.le. destruct (m ?= 4503599627370496)%positive; try discriminate; congruence. }
  unfold bounded, canonical_mantissa in Hv. apply andb_prop in Hv as [Hc _].
  apply Z.eqb_eq in Hc. unfold fexp, emin, prec, emax in Hc.
  pose proof (digits2_pos_bounds m) as [Hlo _].
  assert (Zpos (digits2_pos m) = 53) as Hd by (clear -Hc; lia).
  rewrite Hd in Hlo. change (2 ^ (53 - 1)) with (Zpos 4503599627370496) in Hlo.
  apply Pos.le_antisym; [exact Hle | exact Hlo].
Qed.

Lemma fin_case c m e : 2 ^ 52 <= Zpos c < 2 ^ 53 ->
  bounded prec emax m e = true -> e <= -53 ->
  SFleb (S754_zero false) (SF64mul (S754_finite false m e) (S754_finite false c (-46))) = true /\
  SFleb (SF64mul (S754_finite false m e) (S754_finite false c (-46))) (S754_finite false c (-46)) = true.
Proof. intros Hc Hv He.
  rewrite SF64mul_finite.
  destruct (binary_round_aux_exact false (m * c) (e + -46))
        as (m1 & m2 & e1 & e2 & He1 & Hm1 & He2 & Hm2 & Hr).
  rewrite Hr.
  destruct (mul_core c m e m1 m2 e1 e2 Hc Hv He He1 Hm1 He2 Hm2) as (Hpos & Hexp & Hle).
  clear - Hpos Hexp Hle.
  destruct m2 as [|p|p]; [split; reflexivity| |lia].
  assert ((e2 <=? emax - prec) = true) as Hfin
        by (apply Z.leb_le; unfold emax, prec; lia).
  rewrite Hfin. split; [reflexivity|].
  destruct (Z.eq_dec e2 (-46)) as [Heq|Hne].
  - destruct Hle as [Hlt|Hle]; [lia|]. rewrite Heq. apply SFleb_same_exp. exact Hle.
  - apply SFleb_lt_exp. lia.
Qed.

Lemma m100_range : 2 ^ 52 <= Zpos m100 < 2 ^ 53.
Proof. split; [apply Z.leb_le | apply Z.ltb_lt]; vm_compute; reflexivity. Qed.

Lemma SF64mul_100_bounds sx :
  valid_binary sx = true ->
  SFleb (S754_zero false) sx = true ->
  SFleb sx (S754_finite false 4503599627370496 (-52)) = true ->
  SFleb (S754_zero false) (SF64mul sx (S754_finite false m100 (-46))) = true /\
  SFleb (SF64mul sx (S754_finite false m100 (-46))) (S754_finite false m100 (-46)) = true.
Proof.
  intros Hv H0 H1. destruct sx as [s|s| |s m e].
  - destruct s; split; reflexivity.
  - destruct s; discriminate.
  - discriminate.
  - destruct s; [discriminate|].
    cbn [valid_binary] in Hv.
    destruct (le_one_cases m e Hv H1) as [He|[He Hm]].
    + apply fin_case; [exact m100_range | exact Hv | exact He].
    + subst e m. split; vm_compute; reflexivity.
Qed.

Theorem mul100_bounds (x : float) :
  (0 <=? x)%float = true -> (x <=? 1)%float = true ->
  (0 <=? x * 100)%float = true /\ (x * 100 <=? 100)%float = true.
Proof.
  rewrite !leb_spec, mul_spec, Prim2SF_0, Prim2SF_1, Prim2SF_100.
  apply SF64mul_100_bounds. apply Prim2SF_valid.
Qed.

(** *** The order decided by [<] *)

Lemma SFltb_rank f g :
  f <> S754_nan -> g <> S754_nan ->
  SFltb f g = true <-> rank_lt (rank f) (rank g).
Proof.
  intros Hf Hg. unfold SFltb, SFcompare, rank_lt.
  destruct f as [s|s| |s m e], g as [s'|s'| |s' m' e']; try congruence;
    try destruct s; try destruct s'; cbn [rank fst snd];
    try (split; [discriminate | lia]); try (split; [reflexivity | lia]);
    try (split; [intros _; lia | reflexivity]).
  - destruct (Z.compare_spec e e') as [Heq|Hlt|Hgt];
      [|split; [discriminate|lia]|split; [intros _; lia|reflexivity]].
    rewrite Pos.compare_cont_spec. cbn [Pos.switch_Eq].
    destruct (Pos.compare_spec m m') as [Hm|Hm|Hm]; cbn [CompOpp];
      (split; [try discriminate; intros _; lia | try reflexivity; lia]).
  - destruct (Z.compare_spec e e') as [Heq|Hlt|Hgt];
      [|split; [intros _; lia|reflexivity]|split; [discriminate|lia]].
    rewrite Pos.compare_cont_spec. cbn [Pos.switch_Eq].
    destruct (Pos.compare_spec m m') as [Hm|Hm|Hm];
      (split; [try discriminate; intros _; lia | try reflexivity; lia]).
Qed.

Lemma SFltb_nan_l g : SFltb S754_nan g = false.
Proof. reflexivity. Qed.

Lemma SFltb_nan_r f : SFltb f S754_nan = false.
Proof. destruct f as [s|s| |s m e]; reflexivity. Qed.

Lemma is_nan_Prim2SF x : is_nan x = true <-> Prim2SF x = S754_nan.
Proof.
  unfold is_nan. rewrite FloatAxioms.eqb_spec. unfold SFeqb, SFcompare.
  destruct (Prim2SF x) as [s|s| |s m e]; try destruct s; cbn;
    try (split; [discriminate | discriminate]); try (split; reflexivity).
  - rewrite Z.compare_refl, Pos.compare_cont_refl. cbn. split; discriminate.
  - rewrite Z.compare_refl, Pos.compare_cont_refl. cbn. split; discriminate.
Qed.

Lemma not_nan_Prim2SF x : is_nan x = false <-> Prim2SF x <> S754_nan.
Proof.
  rewrite <- is_nan_Prim2SF. destruct (is_nan x); split; congruence.
Qed.

Lemma ltb_not_nan x y : (x <? y)%float = true -> is_nan x = false /\ is_nan y = false.
Proof.
  rewrite ltb_spec. intros H. rewrite !not_nan_Prim2SF. split; intros E; rewrite E in H.
  - rewrite SFltb_nan_l in H. discriminate.
  - rewrite SFltb_nan_r in H. discriminate.
Qed.

Lemma ltb_irrefl x : (x <? x)%float = false.
Proof.
  destruct (x <? x)%float eqn:E; [|reflexivity].
  destruct (ltb_not_nan _ _ E) as [Hx _]. apply not_nan_Prim2SF in Hx.
  rewrite ltb_spec in E. apply SFltb_rank in E; [|assumption..].
  unfold rank_lt in E. lia.
Qed.

Lemma ltb_trans x y z :
  (x <? y)%float = true -> (y <? z)%float = true -> (x <? z)%float = true.
Proof.
  intros Hxy Hyz.
  destruct (ltb_not_nan _ _ Hxy) as [Hx Hy]. destruct (ltb_not_nan _ _ Hyz) as [_ Hz].
  apply not_nan_Prim2SF in Hx, Hy, Hz.
  rewrite ltb_spec in *.
  apply SFltb_rank in Hxy, Hyz; try assumption. apply SFltb_rank; try assumption.
  unfold rank_lt in *. lia.
Qed.

(** Any non-NaN value falls on one side of a strict inequality. *)
Lemma ltb_cotrans x y z :
  is_nan y = false -> (x <? z)%float = true ->
  (x <? y)%float = true \/ (y <? z)%float = true.
Proof.
  intros Hy Hxz. destruct (ltb_not_nan _ _ Hxz) as [Hx Hz].
  apply not_nan_Prim2SF in Hx, Hy, Hz.
  rewrite !ltb_spec in *. apply SFltb_rank in Hxz; try assumption.
  rewrite !SFltb_rank by assumption. unfold rank_lt in *. lia.
Qed.

End PyFloat.

(** ** Products that stay finite *)
Module PyFloatFinite.
Import Binary64 PyFloat.
Local Open Scope Z_scope.

Lemma leb_not_nan x y : (x <=? y)%float = true -> is_nan x = false /\ is_nan y = false.
Proof.
  rewrite leb_spec. intros H. rewrite !not_nan_Prim2SF. split; intros E; rewrite E in H.
  - discriminate.
  - unfold SFleb, SFcompare in H. by destruct (Prim2SF x) as [[]|[]| |[] ? ?].
Qed.

Lemma SFcompare_refl f : f <> S754_nan -> SFcompare f f = Some Eq.
Proof.
  destruct f as [[]|[]| |[] m e]; try done; intros _; cbn;
    by rewrite Z.compare_refl, Pos.compare_cont_refl.
Qed.

(** A value is finite when its specification is a zero or a finite number. *)
Lemma is_finite_Prim2SF x :
  (exists s, Prim2SF x = S754_zero s) \/ (exists s m e, Prim2SF x = S754_finite s m e) ->
  is_finite x = true.
Proof.
  intros H. unfold is_finite, is_nan, is_infinity.
  rewrite !FloatAxioms.eqb_spec, abs_spec.
  change (Prim2SF infinity) with (S754_infinity false).
  unfold SFeqb. destruct H as [[s ->]|(s & m & e & ->)].
  - by destruct s.
  - rewrite SFcompare_refl by done. by destruct s.
Qed.

(** The result of rounding a product of two 53-bit mantissas: its exponent
    exceeds the sum of the exponents by at most 54. *)
Lemma round_exponent (mx my : positive) (E m1 m2 e1 e2 : Z) :
  Zpos mx < 2 ^ 53 -> Zpos my < 2 ^ 53 ->
  let k1 := Z.max 0 (fexp prec emax (Zpos (digits2_pos (mx * my)) + E) - E) in
  let k2 := Z.max 0 (fexp prec emax (Zdigits2 m1 + e1) - e1) in
  e1 = E + k1 -> Zpos (mx * my) / 2 ^ k1 <= m1 <= Zpos (mx * my) / 2 ^ k1 + 1 ->
  e2 = e1 + k2 -> m2 = m1 / 2 ^ k2 ->
  0 <= m2 /\ e2 <= Z.max (E + 54) (-1073).
Proof.
  intros Hx Hy k1 k2 He1 Hm1 He2 Hm2.
  unfold fexp, emin, prec, emax in *.
  pose proof (digits2_pos_bounds (mx * my)) as [HMlo HMhi].
  set (D := Zpos (digits2_pos (mx * my))) in *.
  assert (0 < D) as HDpos by (subst D; lia).
  rewrite Pos2Z.inj_mul in *.
  set (X := Zpos mx) in *. set (Y := Zpos my) in *.
  assert (0 < X) as HX by (subst X; lia). assert (0 < Y) as HY by (subst Y; lia).
  set (T := 2 ^ 53) in *.
  assert (0 < T) as HT by (apply Z.pow_pos_nonneg; lia).
  assert (D <= 106) as HD106.
  { destruct (Z_le_gt_dec D 106) as [|Hgt]; [assumption|].
    assert (2 ^ 106 <= 2 ^ (D - 1)) by (apply Z.pow_le_mono_r; lia).
    assert (2 ^ 106 = T * T) as E106 by (unfold T; rewrite <- Z.pow_add_r by lia; reflexivity).
    nia. }
  assert (0 <= k1) as Hk1pos by lia.
  assert (D - 53 <= k1) as Hk1 by lia.
  assert (0 < 2 ^ k1) as Hpk1 by (apply Z.pow_pos_nonneg; lia).
  assert (0 <= X * Y / 2 ^ k1) as Hq0 by (apply Z.div_pos; nia).
  assert (X * Y / 2 ^ k1 < T) as Hq.
  { apply Z.div_lt_upper_bound; [assumption|].
    unfold T. rewrite <- Z.pow_add_r by lia.
    assert (2 ^ D <= 2 ^ (k1 + 53)) by (apply Z.pow_le_mono_r; lia). lia. }
  assert (0 <= m1 <= 2 ^ 53) as Hm1b by (fold T; lia).
  destruct (Zdigits2_le_54 m1 Hm1b) as [Hd1 _].
  assert (0 <= Zdigits2 m1) as Hd1pos by (destruct m1; cbn; lia).
  assert (0 <= k2) as Hk2 by lia.
  split.
  - subst m2. apply Z.div_pos; [lia|]. apply Z.pow_pos_nonneg; lia.
  - lia.
Qed.

Lemma valid_mantissa (m : positive) e : bounded prec emax m e = true -> Zpos m < 2 ^ 53.
Proof.
  unfold bounded, canonical_mantissa. intros Hb. apply andb_prop in Hb as [Hc _].
  apply Z.eqb_eq in Hc. unfold fexp, emin, prec, emax in Hc.
  pose proof (digits2_pos_bounds m) as [_ Hhi].
  assert (2 ^ Zpos (digits2_pos m) <= 2 ^ 53) by (apply Z.pow_le_mono_r; lia). lia.
Qed.

(** A product whose exponents add up to at most 917 does not overflow. *)
Lemma SF64mul_finite_cases sx sy :
  valid_binary sx = true -> valid_binary sy = true ->
  match sx, sy with
  | S754_finite _ _ ex, S754_finite _ _ ey => ex + ey <= 917
  | S754_zero _, S754_finite _ _ _ | S754_finite _ _ _, S754_zero _
  | S754_zero _, S754_zero _ => True
  | _, _ => False
  end ->
  (exists s, SF64mul sx sy = S754_zero s) \/ (exists s m e, SF64mul sx sy = S754_finite s m e).
Proof.
  intros Hvx Hvy H.
  destruct sx as [s|s| |s m e], sy as [s'|s'| |s' m' e']; try done; cbn; eauto.
  destruct (binary_round_aux_exact (xorb s s') (m * m') (e + e'))
    as (m1 & m2 & e1 & e2 & He1 & Hm1 & He2 & Hm2 & Hr).
  change (SFmul prec emax (S754_finite s m e) (S754_finite s' m' e'))
    with (binary_round_aux prec emax (xorb s s') (Zpos (m * m')) (e + e') loc_Exact).
  rewrite Hr.
  destruct (round_exponent m m' (e + e') m1 m2 e1 e2
              (valid_mantissa m e Hvx) (valid_mantissa m' e' Hvy) He1 Hm1 He2 Hm2) as [Hpos Hexp].
  destruct m2 as [|p|p]; [eauto| |lia].
  assert ((e2 <=? emax - prec) = true) as -> by (apply Z.leb_le; unfold emax, prec; lia).
  eauto 6.
Qed.

Lemma Prim2SF_1_2 : Prim2SF 1.2%float = S754_finite false 5404319552844595 (-52).
Proof. reflexivity. Qed.

(** A percentage between 0 and 100 stays finite when scaled by 1.2. *)
Theorem mul_1_2_finite (x : float) :
  (0 <=? x)%float = true -> (x <=? 100)%float = true -> is_finite (x * 1.2)%float = true.
Proof.
  intros H0 H100. apply is_finite_Prim2SF. rewrite mul_spec, Prim2SF_1_2.
  rewrite leb_spec, Prim2SF_0 in H0. rewrite leb_spec, Prim2SF_100 in H100.
  pose proof (Prim2SF_valid x) as Hv.
  apply SF64mul_finite_cases; [done|reflexivity|].
  destruct (Prim2SF x) as [s|s| |s m e]; try done.
  - by destruct s.
  - destruct s; [done|]. unfold SFleb, SFcompare in H100.
    destruct (Z.compare_spec e (-46)); [lia|lia|done].
Qed.

End PyFloatFinite.

(** ** The view limits of an axis *)
Module PyplotFacts.
Import Binary64 PyFloat PyFloatFinite.
Local Open Scope Z_scope.

Lemma is_finite_inv x :
  is_finite x = true ->
  (exists s, Prim2SF x = S754_zero s) \/
  (exists s m e, Prim2SF x = S754_finite s m e /\ bounded prec emax m e = true).
Proof.
  intros H. pose proof (Prim2SF_valid x) as Hv.
  unfold is_finite, is_nan, is_infinity in H.
  rewrite !FloatAxioms.eqb_spec, abs_spec in H.
  change (Prim2SF infinity) with (S754_infinity false) in H.
  destruct (Prim2SF x) as [s|s| |s m e]; [eauto|by destruct s|done|].
  right. exists s, m, e. done.
Qed.

Lemma is_finite_not_nan x : is_finite x = true -> is_nan x = false.
Proof. unfold is_finite. by destruct (is_nan x). Qed.

Lemma ltb_infinity x : is_finite x = true -> (x <? infinity)%float = true.
Proof.
  intros H. rewrite ltb_spec. change (Prim2SF infinity) with (S754_infinity false).
  destruct (is_finite_inv x H) as [[s ->]|(s & m & e & -> & _)]; reflexivity.
Qed.

Lemma ltb_neg_infinity x : is_finite x = true -> (neg_infinity <? x)%float = true.
Proof.
  intros H. rewrite ltb_spec. change (Prim2SF neg_infinity) with (S754_infinity true).
  destruct (is_finite_inv x H) as [[s ->]|(s & m & e & -> & _)]; reflexivity.
Qed.

(** A positive value that is not below another has at least its exponent. *)
Lemma SFltb_false_exp m e mt et :
  SFltb (S754_finite false m e) (S754_finite false mt et) = false -> et <= e.
Proof.
  unfold SFltb, SFcompare. destruct (Z.compare_spec e et); [lia|done|lia].
Qed.

(** A positive value exceeds its product with a factor below 2^-3. *)
Lemma SFleb_mul_small m e c ec :
  Zpos c < 2 ^ 53 -> bounded prec emax m e = true -> ec <= -55 -> -1073 < e ->
  SFleb (S754_finite false m e) (SF64mul (S754_finite false m e) (S754_finite false c ec)) = false.
Proof.
  intros Hc Hb Hec He. rewrite SF64mul_finite.
  destruct (binary_round_aux_exact false (m * c) (e + ec))
    as (m1 & m2 & e1 & e2 & He1 & Hm1 & He2 & Hm2 & Hr).
  rewrite Hr.
  destruct (round_exponent m c (e + ec) m1 m2 e1 e2 (valid_mantissa m e Hb) Hc He1 Hm1 He2 Hm2)
    as [Hpos Hexp].
  assert (e <= emax - prec) as Hmax.
  { unfold bounded in Hb. apply andb_prop in Hb as [_ Hb]. by apply Z.leb_le in Hb. }
  assert (e2 < e) as Hlt by lia.
  clear - Hpos Hlt Hmax.
  destruct m2 as [|p|p]; [reflexivity| |lia].
  assert ((e2 <=? emax - prec) = true) as -> by (apply Z.leb_le; lia).
  unfold SFleb, SFcompare. destruct (Z.compare_spec e e2); [lia|lia|done].
Qed.

Lemma Prim2SF_smallest :
  Prim2SF ((1e6 / 1e-15) * 0x1p-1022)%float = S754_finite false 7629394531249999 (-1005).
Proof. reflexivity. Qed.

Lemma Prim2SF_1e_15 : Prim2SF 1e-15%float = S754_finite false 5070602400912918 (-102).
Proof. reflexivity. Qed.

Lemma tiny_mantissa : Zpos 5070602400912918 < 2 ^ 53.
Proof. apply Z.ltb_lt. vm_compute. reflexivity. Qed.

(** A value that is not near zero is not narrow for its size: the second
    test of [nonsingular] fails on the range from 0 to it. *)
Lemma not_narrow m e :
  bounded prec emax m e = true ->
  SFltb (S754_finite false m e) (Prim2SF ((1e6 / 1e-15) * 0x1p-1022)%float) = false ->
  SFleb (S754_finite false m e) (SF64mul (S754_finite false m e) (Prim2SF 1e-15%float)) = false.
Proof.
  intros Hb Hnear. rewrite Prim2SF_smallest in Hnear. apply SFltb_false_exp in Hnear.
  rewrite Prim2SF_1e_15. apply SFleb_mul_small; [exact tiny_mantissa|exact Hb|lia|lia].
Qed.

Lemma set_lim_is_ok (v0 v1 : float) :
  is_ok (set_lim v0 v1) = is_finite v0 && is_finite v1.
Proof.
  unfold set_lim. destruct (is_finite v0 && is_finite v1); [|done].
  by destruct (locator_nonsingular v0 v1).
Qed.

Lemma set_lim_Ok_finite (v0 v1 : float) lim :
  set_lim v0 v1 = Ok lim -> is_finite v0 = true /\ is_finite v1 = true.
Proof.
  intros H. pose proof (set_lim_is_ok v0 v1) as Hok. rewrite H in Hok.
  symmetry in Hok. by apply andb_prop in Hok.
Qed.

Lemma set_lim_Raise (v0 v1 : float) :
  is_finite v0 && is_finite v1 = false -> set_lim v0 v1 = Raise ValueError.
Proof. unfold set_lim. by intros ->. Qed.

(** [sorted_pair] is [sorted] on a list of two. *)
Lemma sorted_pair_py_sorted (reverse : bool) (v0 v1 : float) :
  Python.py_sorted PrimFloat.ltb reverse [v0; v1] =
    [(sorted_pair reverse v0 v1).1; (sorted_pair reverse v0 v1).2].
Proof.
  unfold sorted_pair, Python.py_sorted, Python.listsort. destruct reverse; cbn.
  - by destruct (v0 <? v1)%float.
  - by destruct (v1 <? v0)%float.
Qed.

(** The limits from 0 to a finite [t]: the view the axes keep. *)
Lemma set_lim_from_zero (t : float) :
  is_finite t = true -> set_lim 0 t = Ok (view_from_zero t).
Proof.
  intros Hfin. unfold set_lim. rewrite Hfin. change (is_finite 0) with true. cbn [andb].
  unfold locator_nonsingular, nonsingular. rewrite Hfin. change (is_finite 0) with true.
  cbn [andb negb].
  unfold view_from_zero, near_zero.
  destruct (is_finite_inv t Hfin) as [[s Hs]|(s & m & e & Hs & Hb)].
  - assert ((t <? 0)%float = false) as ->.
    { rewrite ltb_spec, Hs. by destruct s. }
    assert ((abs 0 <? abs t)%float = false) as ->.
    { rewrite ltb_spec, !abs_spec, Hs. reflexivity. }
    assert ((abs t <? (1e6 / 1e-15) * 0x1p-1022)%float = true) as ->.
    { rewrite ltb_spec, abs_spec, Hs. reflexivity. }
    reflexivity.
  - destruct s.
    + assert ((t <? 0)%float = true) as Hneg.
      { rewrite ltb_spec, Hs. reflexivity. }
      rewrite Hneg.
      assert ((abs t <? abs 0)%float = false) as ->.
      { rewrite ltb_spec, !abs_spec, Hs. reflexivity. }
      destruct (abs t <? (1e6 / 1e-15) * 0x1p-1022)%float eqn:Hnear; [reflexivity|].
      assert ((0 - t <=? abs t * 1e-15)%float = false) as ->.
      { rewrite leb_spec, sub_spec, mul_spec, abs_spec, Hs.
        rewrite ltb_spec, abs_spec, Hs in Hnear.
        change (SF64sub (Prim2SF 0) (S754_finite true m e)) with (S754_finite false m e).
        by apply not_narrow. }
      unfold sorted_pair. by rewrite Hneg.
    + assert ((t <? 0)%float = false) as Hpos.
      { rewrite ltb_spec, Hs. reflexivity. }
      rewrite Hpos.
      assert ((abs 0 <? abs t)%float = true) as ->.
      { rewrite ltb_spec, !abs_spec, Hs. reflexivity. }
      destruct (abs t <? (1e6 / 1e-15) * 0x1p-1022)%float eqn:Hnear; [reflexivity|].
      assert ((t - 0 <=? abs t * 1e-15)%float = false) as ->.
      { rewrite leb_spec, sub_spec, mul_spec, abs_spec, Hs.
        rewrite ltb_spec, abs_spec, Hs in Hnear.
        change (SF64sub (S754_finite false m e) (Prim2SF 0)) with (S754_finite false m e).
        by apply not_narrow. }
      unfold sorted_pair. by rewrite Hpos.
Qed.

(** The data limits: without a finite value they stay empty, otherwise they
    are the least and the greatest finite value. *)
Lemma data_interval_spec (ys : list float) :
  exists lo hi,
    data_interval ys = (lo, hi) /\
    (Forall (fun y => is_finite y = false) ys /\ lo = infinity /\ hi = neg_infinity \/
     lo ∈ ys /\ hi ∈ ys /\ is_finite lo = true /\ is_finite hi = true /\
     Forall (fun y => is_finite y = true ->
                      (y <? lo)%float = false /\ (hi <? y)%float = false) ys).
Proof.
  unfold data_interval.
  set (step := fun '(lo, hi) (y : float) =>
                 if is_finite y
                 then (if (y <? lo)%float then y else lo, if (hi <? y)%float then y else hi)
                 else (lo, hi)).
  assert (forall ys seen lo hi,
    (Forall (fun y => is_finite y = false) seen /\ lo = infinity /\ hi = neg_infinity \/
     lo ∈ seen /\ hi ∈ seen /\ is_finite lo = true /\ is_finite hi = true /\
     Forall (fun y => is_finite y = true ->
                      (y <? lo)%float = false /\ (hi <? y)%float = false) seen) ->
    exists lo' hi',
      foldl step (lo, hi) ys = (lo', hi') /\
      (Forall (fun y => is_finite y = false) (seen ++ ys) /\ lo' = infinity /\ hi' = neg_infinity \/
       lo' ∈ seen ++ ys /\ hi' ∈ seen ++ ys /\ is_finite lo' = true /\ is_finite hi' = true /\
       Forall (fun y => is_finite y = true ->
                        (y <? lo')%float = false /\ (hi' <? y)%float = false) (seen ++ ys)))
    as Hgen.
  { clear ys. induction ys as [|y ys IH]; intros seen lo hi Hinv.
    - exists lo, hi. rewrite app_nil_r. done.
    - cbn [foldl]. replace (seen ++ y :: ys) with ((seen ++ [y]) ++ ys) by (by rewrite <- app_assoc).
      unfold step at 2. cbv beta iota. destruct (is_finite y) eqn:Hy.
      + apply IH. right.
        pose proof (is_finite_not_nan y Hy) as Hyn.
        destruct Hinv as [(Hnone & -> & ->)|(Hlo & Hhi & Hflo & Hfhi & Hall)].
        * rewrite ltb_infinity, ltb_neg_infinity by done.
          split_and!; try done; try (apply elem_of_app; right; by left).
          apply Forall_app. split.
          -- eapply Forall_impl; [exact Hnone|]. cbn. congruence.
          -- constructor; [|done]. intros _. by rewrite ltb_irrefl.
        * assert (is_finite (if (y <? lo)%float then y else lo) = true) as Hf1
            by (by destruct (y <? lo)%float).
          assert (is_finite (if (hi <? y)%float then y else hi) = true) as Hf2
            by (by destruct (hi <? y)%float).
          split_and!; try done.
          -- destruct (y <? lo)%float; apply elem_of_app; [right; by left|by left].
          -- destruct (hi <? y)%float; apply elem_of_app; [right; by left|by left].
          -- apply Forall_app. split.
             ++ eapply Forall_impl; [exact Hall|]. cbn. intros z Hz Hfz.
                destruct (Hz Hfz) as [Hz1 Hz2]. split.
                ** destruct (y <? lo)%float eqn:Hyl; [|done].
                   destruct (z <? y)%float eqn:Hzy; [|done].
                   by rewrite (ltb_trans z y lo) in Hz1.
                ** destruct (hi <? y)%float eqn:Hyh; [|done].
                   destruct (y <? z)%float eqn:Hyz; [|done].
                   by rewrite (ltb_trans hi y z) in Hz2.
             ++ constructor; [|done]. intros _. split.
                ** destruct (y <? lo)%float eqn:Hyl; [apply ltb_irrefl|done].
                ** destruct (hi <? y)%float eqn:Hyh; [apply ltb_irrefl|done].
      + apply IH. destruct Hinv as [(Hnone & -> & ->)|(Hlo & Hhi & Hflo & Hfhi & Hall)].
        * left. split; [|done]. apply Forall_app. split; [done|]. by constructor.
        * right. split_and!; try done; try (apply elem_of_app; by left).
          apply Forall_app. split; [done|]. constructor; [|done]. congruence. }
  destruct (Hgen ys [] infinity neg_infinity) as (lo & hi & Hrun & Hinv).
  { left. done. }
  exists lo, hi. split; [exact Hrun|exact Hinv].
Qed.

End PyplotFacts.

(** ** Facts about the table operations *)
Module PandasFacts.

Lemma cell_eqb_same a b : cell_eqb a b = true -> cell_same a b = true.
Proof.
  destruct a as [x|s], b as [y|t]; cbn; try done.
  intros ->. done.
Qed.

Lemma cell_same_refl a : cell_same a a = true.
Proof.
  destruct a as [x|s]; cbn.
  - unfold is_nan. destruct (x =? x)%float; done.
  - apply String.eqb_refl.
Qed.

Lemma isin_elem (values : list cell) (c x : cell) :
  c ∈ values -> cell_eqb x c = true -> existsb (cell_same x) values = true.
Proof.
  intros Hin Heq. apply existsb_exists. exists c. split.
  - by apply list_elem_of_In.
  - by apply cell_eqb_same.
Qed.

Lemma mask_filter_nil_r {A} (mask : list bool) : mask_filter mask (@nil A) = [].
Proof. by destruct mask. Qed.

(** Selecting the rows of a chosen country from the rows of all chosen
    countries gives that country's rows of the whole table. *)
Lemma mask_filter_isin_eq {A} (values : list cell) (c : cell) (cs : list cell) (col : list A) :
  c ∈ values ->
  mask_filter (eq_mask (mask_filter (isin cs values) cs) c) (mask_filter (isin cs values) col)
  = mask_filter (eq_mask cs c) col.
Proof.
  intros Hin. revert col. induction cs as [|x cs IH]; intros [|a col]; cbn; try done.
  - by rewrite !mask_filter_nil_r.
  - destruct (cell_eqb x c) eqn:Hx.
    + rewrite (isin_elem values c x Hin Hx). cbn. rewrite Hx. f_equal. apply IH.
    + destruct (existsb (cell_same x) values); cbn; rewrite ?Hx; apply IH.
Qed.

Lemma mask_filter_first {A} (cs : list cell) (c : cell) (col : list A) i :
  length cs = length col ->
  first_row cs c = Some i ->
  exists v, col !! i = Some v /\ head (mask_filter (eq_mask cs c) col) = Some v.
Proof.
  unfold first_row. revert col i. induction cs as [|x cs IH]; intros [|a col] i Hlen Hi;
    cbn in *; try done.
  case_decide as Hx.
  - cbn in Hi. injection Hi as <-. rewrite Hx. cbn. eauto.
  - apply not_true_is_false in Hx. rewrite Hx.
    destruct (list_find _ cs) as [[j y]|] eqn:Hf; cbn in Hi; [|done].
    injection Hi as <-. cbn. apply IH; [lia|]. done.
Qed.

Lemma first_row_elem (cs : list cell) (c : cell) :
  c ∈ cs -> cell_eqb c c = true -> is_Some (first_row cs c).
Proof.
  intros Hin Hc. unfold first_row.
  destruct (list_find (fun x => cell_eqb x c = true) cs) as [[i y]|] eqn:Hf; [by eexists|].
  apply list_find_None in Hf. rewrite Forall_forall in Hf. by apply Hf in Hin.
Qed.

Lemma first_row_None_filter {A} (cs : list cell) (c : cell) (col : list A) :
  first_row cs c = None -> mask_filter (eq_mask cs c) col = [].
Proof.
  unfold first_row. revert col. induction cs as [|x cs IH]; intros [|a col] Hf; cbn in *; try done.
  case_decide as Hx; [done|]. apply not_true_is_false in Hx. rewrite Hx. apply IH.
  by destruct (list_find _ cs).
Qed.

Lemma iloc0_head (col : list cell) v : head col = Some v -> iloc0 col = Ok v.
Proof. destruct col; cbn; congruence. Qed.

Lemma select_rows_lookup (df : frame) (mask : list bool) (name : string) :
  select_rows df mask !! name = mask_filter mask <$> df !! name.
Proof. unfold select_rows. apply lookup_fmap. Qed.

Lemma has_column_select_rows (df : frame) (mask : list bool) (name : string) :
  has_column (select_rows df mask) name = has_column df name.
Proof.
  unfold has_column. rewrite select_rows_lookup.
  apply bool_decide_ext. rewrite fmap_is_Some. done.
Qed.

(** The rows of a chosen country, through the two filters of the script. *)
Lemma country_data_lookup (df : frame) (selected : list cell) (country : cell) (cs : list cell) :
  df !! "Country" = Some cs ->
  country ∈ selected ->
  exists filtered country_data,
    filter_selected df selected = Ok filtered /\
    country_rows filtered country = Ok country_data /\
    forall name, country_data !! name = mask_filter (eq_mask cs country) <$> df !! name.
Proof.
  intros Hcs Hin. unfold filter_selected, country_rows, column.
  rewrite Hcs. cbn. eexists _, _. split; [done|].
  rewrite select_rows_lookup, Hcs. cbn. split; [done|].
  intros name. rewrite !select_rows_lookup.
  destruct (df !! name) as [col|]; cbn; [|done].
  f_equal. by apply mask_filter_isin_eq.
Qed.

End PandasFacts.

Import PandasFacts.

(** ** The metric catalogue *)

(** C6: for each of the eight display labels of the metric control, the
    reverse look-up of the label followed by the mapping to the column
    prefix gives Scaler, HighGrowthFirm, ConsistentHighGrowthFirm,
    VeryHighGrowthFirm, Gazelle, Mature, Scaleup and Superstar, in the order
    of the labels. *)
Theorem display_label_prefix :
  length (metrics_mapping.*2) = 8 /\
  selected_metrics <$> metrics_mapping.*2 =
    Ok <$> ["Scaler"; "HighGrowthFirm"; "ConsistentHighGrowthFirm"; "VeryHighGrowthFirm";
            "Gazelle"; "Mature"; "Scaleup"; "Superstar"].
Proof. split; vm_compute; reflexivity. Qed.

(** ** The trend view *)

Lemma trend_point_absent (country_data : frame) prefix year :
  country_data !! col_name prefix year "%" = None ->
  trend_point country_data prefix year = Ok (CNum nan).
Proof.
  intros Hn. unfold trend_point, has_column. rewrite Hn.
  rewrite bool_decide_eq_false_2; [done|]. by intros [? ?].
Qed.

Lemma trend_point_present (country_data : frame) prefix year col :
  country_data !! col_name prefix year "%" = Some col ->
  trend_point country_data prefix year = times100 <$> iloc0 col.
Proof.
  intros Hs. unfold trend_point, has_column, column. rewrite Hs.
  rewrite bool_decide_eq_true_2 by eauto. cbn. by destruct (iloc0 col).
Qed.

(** C1: on a table whose percentage cells are fractions, for a country of
    the [Country] column among the selected ones and a year of the chart,
    the two filters succeed and the extraction returns: the cell of the
    country's first row times 100, between 0 and 100, when the column
    "<prefix> <year> %" exists, and NaN when it does not. *)
Theorem trend_point_fraction (df : frame) (cs selected : list cell) (prefix : string)
    (country : cell) (year : Z) :
  wf_frame df ->
  df !! "Country" = Some cs ->
  (forall col, df !! col_name prefix year "%" = Some col -> Forall (fun c => is_fraction c = true) col) ->
  country ∈ cs -> cell_eqb country country = true ->
  country ∈ selected ->
  year ∈ years ->
  exists filtered country_data i,
    filter_selected df selected = Ok filtered /\
    country_rows filtered country = Ok country_data /\
    first_row cs country = Some i /\
    match df !! col_name prefix year "%" with
    | Some col =>
        exists x, col !! i = Some (CNum x) /\
          trend_point country_data prefix year = Ok (CNum (x * 100)%float) /\
          (0 <=? x * 100)%float = true /\ (x * 100 <=? 100)%float = true
    | None => trend_point country_data prefix year = Ok (CNum nan)
    end.
Proof.
  intros [n Hwf] Hcs Hfrac Hin Hself Hsel _.
  destruct (country_data_lookup df selected country cs Hcs Hsel)
    as (filtered & country_data & Hf & Hc & Hlook).
  destruct (first_row_elem cs country Hin Hself) as [i Hi].
  exists filtered, country_data, i. do 3 (split; [done|]).
  destruct (df !! col_name prefix year "%") as [col|] eqn:Hcol.
  - destruct (mask_filter_first cs country col i) as (v & Hv & Hhead); [|done|].
    { rewrite (Hwf _ _ Hcs), (Hwf _ _ Hcol). done. }
    specialize (Hfrac col eq_refl). rewrite Forall_forall in Hfrac.
    assert (is_fraction v = true) as Hfv.
    { apply Hfrac. eapply list_elem_of_lookup_2. done. }
    destruct v as [x|s]; [|done]. cbn in Hfv. apply andb_prop in Hfv as [H0 H1].
    exists x. split; [done|]. split.
    + erewrite trend_point_present by (rewrite Hlook, Hcol; done).
      by rewrite (iloc0_head _ _ Hhead).
    + by apply PyFloat.mul100_bounds.
  - apply trend_point_absent. by rewrite Hlook, Hcol.
Qed.

(** ** The comparison view: gathering the latest year *)

Lemma lookup_raise (country_data : frame) (name : string) e :
  column country_data name ≫= iloc0 = Raise e -> e = KeyError \/ e = IndexError.
Proof.
  unfold column. destruct (country_data !! name) as [[|c col]|]; cbn; intros H;
    try discriminate; injection H as <-; auto.
Qed.

Lemma latest_entry_ok (country_data : frame) prefix country :
  lookup_ok country_data (col_name prefix latest_year "%")
  && lookup_ok country_data (col_name prefix latest_year "Num")
  && lookup_ok country_data (col_name prefix latest_year "Obs") = true ->
  exists e, latest_entry country_data prefix country = Ok e /\ Country e = country /\
    times100 <$> (column country_data (col_name prefix latest_year "%") ≫= iloc0)
      = Ok (Percentage e).
Proof.
  unfold lookup_ok, latest_entry. intros H.
  destruct (column country_data (col_name prefix latest_year "%") ≫= iloc0) as [p|]; [|done].
  destruct (column country_data (col_name prefix latest_year "Num") ≫= iloc0) as [n|]; [|done].
  destruct (column country_data (col_name prefix latest_year "Obs") ≫= iloc0) as [t|]; [|done].
  cbn. eauto.
Qed.

Lemma latest_entry_raise (country_data : frame) prefix country :
  lookup_ok country_data (col_name prefix latest_year "%")
  && lookup_ok country_data (col_name prefix latest_year "Num")
  && lookup_ok country_data (col_name prefix latest_year "Obs") = false ->
  latest_entry country_data prefix country = Raise KeyError \/
  latest_entry country_data prefix country = Raise IndexError.
Proof.
  unfold lookup_ok, latest_entry. intros H.
  destruct (column country_data (col_name prefix latest_year "%") ≫= iloc0) as [p|e1] eqn:H1.
  2:{ cbn. apply lookup_raise in H1 as [-> | ->]; auto. }
  destruct (column country_data (col_name prefix latest_year "Num") ≫= iloc0) as [n|e2] eqn:H2.
  2:{ cbn. apply lookup_raise in H2 as [-> | ->]; auto. }
  destruct (column country_data (col_name prefix latest_year "Obs") ≫= iloc0) as [t|e3] eqn:H3.
  2:{ cbn. apply lookup_raise in H3 as [-> | ->]; auto. }
  done.
Qed.

Lemma collect_latest_run (filtered : frame) prefix cs :
  filtered !! "Country" = Some cs ->
  forall selected acc w,
  exists latest_data,
    collect_latest filtered prefix selected acc w =
      (Ok (acc ++ latest_data),
       with_page w (page w ++ ((fun c => st_warning_incomplete c latest_year) <$>
                      filter (fun c => complete filtered prefix c = false) selected))) /\
    Country <$> latest_data = filter (fun c => complete filtered prefix c = true) selected /\
    Forall (fun e => exists country_data,
               country_rows filtered (Country e) = Ok country_data /\
               latest_entry country_data prefix (Country e) = Ok e) latest_data.
Proof.
  intros Hcs selected. induction selected as [|country rest IH]; intros acc w.
  - exists []. cbn. rewrite !app_nil_r. destruct w; done.
  - cbn [collect_latest]. unfold mbind at 1, script_bind, lift.
    assert (country_rows filtered country = Ok (select_rows filtered (eq_mask cs country))) as Hrows.
    { unfold country_rows, column. rewrite Hcs. done. }
    rewrite Hrows.
    set (cd := select_rows filtered (eq_mask cs country)) in *.
    assert (complete filtered prefix country =
              lookup_ok cd (col_name prefix latest_year "%")
              && lookup_ok cd (col_name prefix latest_year "Num")
              && lookup_ok cd (col_name prefix latest_year "Obs")) as Hcomp.
    { unfold complete. by rewrite Hrows. }
    destruct (complete filtered prefix country) eqn:Hc; symmetry in Hcomp.
    + destruct (latest_entry_ok cd prefix country Hcomp) as (e & He & Hce & _).
      rewrite He. destruct (IH (acc ++ [e]) w) as (l & Hrun & Hl & Hall).
      exists (e :: l). rewrite Hrun.
      rewrite filter_cons_False by (rewrite Hc; done).
      rewrite filter_cons_True by done.
      rewrite <- app_assoc. cbn. rewrite Hce, Hl. split; [done|]. split; [done|].
      constructor; [|done]. exists cd. by rewrite Hce.
    + rewrite filter_cons_True by done.
      rewrite filter_cons_False by (rewrite Hc; done).
      destruct (IH acc (with_page w (page w ++ [st_warning_incomplete country latest_year])))
        as (l & Hrun & Hl & Hall).
      exists l. split; [|done].
      destruct (latest_entry_raise cd prefix country Hcomp) as [-> | ->];
        unfold mbind, script_bind, emit;
        rewrite Hrun; cbn; rewrite <- app_assoc; done.
Qed.

(** C2: the loop over the selected countries never stops early: a country is
    put into the comparison data exactly when its three look-ups for 2023
    succeed, each other country gets a warning of its own, and the file
    and the cache are left as they were. *)
Theorem collect_latest_complete (filtered : frame) (prefix : string)
    (selected cs : list cell) (w : world) :
  filtered !! "Country" = Some cs ->
  exists latest_data,
    collect_latest filtered prefix selected [] w =
      (Ok latest_data,
       {| file := file w; cache := cache w;
          page := page w ++ ((fun c => st_warning_incomplete c latest_year) <$>
                    filter (fun c => complete filtered prefix c = false) selected) |}) /\
    Country <$> latest_data = filter (fun c => complete filtered prefix c = true) selected.
Proof.
  intros Hcs. destruct (collect_latest_run filtered prefix cs Hcs selected [] w)
    as (l & Hrun & Hl & _).
  exists l. split; done.
Qed.

(** ** The palette *)
Module SeabornFacts.
Import Seaborn.

Lemma omap_total {A B} (f : A -> option B) (g : A -> B) (l : list A) :
  (forall a, f a = Some (g a)) -> omap f l = g <$> l.
Proof.
  intros H. induction l as [|a l IH]; [done|]. cbn. rewrite H. cbn. by f_equal.
Qed.

Lemma tab10_lookup (k : nat) : tab10 !! (k mod 10) = Some (nth (k mod 10) tab10 "").
Proof.
  pose proof (Nat.mod_upper_bound k 10 ltac:(lia)) as Hlt.
  revert Hlt. generalize (k mod 10). intros j Hj.
  do 10 (destruct j as [|j]; [done|]). lia.
Qed.

Lemma color_palette_cycle (n : nat) :
  color_palette n = (fun i => nth (i mod 10) tab10 "") <$> seq 0 n.
Proof.
  do 11 (destruct n as [|n]; [vm_compute; reflexivity|]).
  unfold color_palette.
  change (take (S (S (S (S (S (S (S (S (S (S (S n))))))))))) tab10) with tab10.
  change (length tab10) with 10.
  apply omap_total. apply tab10_lookup.
Qed.

Lemma color_palette_length (n : nat) : length (color_palette n) = n.
Proof. rewrite color_palette_cycle, length_fmap, length_seq. done. Qed.

Lemma color_palette_NoDup (n : nat) : n <= 10 -> NoDup (color_palette n).
Proof.
  intros Hn. do 11 (destruct n as [|n]; [refine (bool_decide_unpack (NoDup _) _); vm_compute; exact I|]). lia.
Qed.

End SeabornFacts.

(** ** The trend view: the lines *)

Lemma bind_Ok {A B} (m : result A) (f : A -> result B) b :
  m ≫= f = Ok b -> exists a, m = Ok a /\ f a = Ok b.
Proof. destruct m as [a|e]; cbn; [eauto|done]. Qed.

Lemma plot_countries_lines (filtered : frame) prefix colors :
  forall selected i acc drawn,
  plot_countries filtered prefix colors i selected acc = Ok drawn ->
  exists new,
    drawn.1 = acc.1 ++ new /\
    line_label <$> new = selected /\
    line_color <$> new = take (length selected) (drop i colors) /\
    length (drop i colors) >= length selected.
Proof.
  induction selected as [|country rest IH]; intros i acc drawn H; cbn [plot_countries] in H.
  - injection H as <-. exists []. rewrite app_nil_r. cbn. split_and!; [done..|lia].
  - apply bind_Ok in H as (cd & _ & H).
    apply bind_Ok in H as (ylist & _ & H).
    apply bind_Ok in H as (color & Hcolor & H).
    apply bind_Ok in H as (ys & _ & H).
    apply IH in H as (new & Hd & Hl & Hc & Hlen). cbn [fst] in Hd.
    unfold Python.getitem in Hcolor.
    destruct (colors !! i) as [c|] eqn:Hi; [|done]. injection Hcolor as ->.
    eexists (_ :: new). rewrite Hd, <- app_assoc. split; [done|].
    cbn [fmap list_fmap line_label line_color length].
    rewrite (drop_S _ _ _ Hi). rewrite <- Hl at 1. cbn [take]. rewrite <- Hc.
    split_and!; [done..|]. cbn [length]. lia.
Qed.

Lemma trend_figure_Ok get_ylim (filtered : frame) prefix selected ax :
  trend_figure get_ylim filtered prefix selected = Ok ax ->
  exists drawn,
    plot_countries filtered prefix (Seaborn.color_palette (length selected)) 0 selected ([], [])
      = Ok drawn /\
    lines ax = drawn.1 /\ notes ax = drawn.2 /\
    set_lim 0 ((get_ylim drawn.1).2 * 1.1)%float = Ok (ylim ax) /\
    xticks ax = years /\ legend_ncol ax = 5 `min` length selected.
Proof.
  unfold trend_figure. intros H. apply bind_Ok in H as (drawn & Hd & H).
  exists drawn. split; [done|].
  destruct (get_ylim drawn.1) as [bottom top]. apply bind_Ok in H as (lim & Hlim & H).
  injection H as <-. cbn. done.
Qed.

(** The y limits of a trend chart that is drawn: the view from 0 to 1.1
    times the upper limit the axes report. *)
Lemma trend_figure_ylim get_ylim (filtered : frame) prefix selected ax :
  trend_figure get_ylim filtered prefix selected = Ok ax ->
  is_finite ((get_ylim (lines ax)).2 * 1.1)%float = true /\
  ylim ax = view_from_zero ((get_ylim (lines ax)).2 * 1.1)%float.
Proof.
  intros H. apply trend_figure_Ok in H as (drawn & _ & Hl & _ & Hlim & _).
  rewrite Hl. destruct (PyplotFacts.set_lim_Ok_finite _ _ _ Hlim) as [_ Hfin].
  split; [done|]. rewrite (PyplotFacts.set_lim_from_zero _ Hfin) in Hlim. by injection Hlim.
Qed.

(** C7, as the palette allows: the trend chart has one line for each
    selected country, in the order of the selection; line [i] has colour
    [i mod 10] of the ten-colour palette, so the lines have distinct colours
    when at most ten countries are selected. *)
Theorem trend_lines_colors get_ylim (filtered : frame) (prefix : string)
    (selected : list cell) (ax : trend_axes) :
  trend_figure get_ylim filtered prefix selected = Ok ax ->
  line_label <$> lines ax = selected /\
  line_color <$> lines ax = (fun i => nth (i mod 10) Seaborn.tab10 "") <$> seq 0 (length selected) /\
  (length selected <= 10 -> NoDup (line_color <$> lines ax)).
Proof.
  intros H. apply trend_figure_Ok in H as (drawn & Hd & Hl & _).
  apply plot_countries_lines in Hd as (new & Hnew & Hlab & Hcol & _).
  cbn in Hnew. rewrite Hl, Hnew. split; [done|].
  rewrite drop_0 in Hcol.
  rewrite firstn_all2 in Hcol by (rewrite SeabornFacts.color_palette_length; lia).
  rewrite Hcol. split; [apply SeabornFacts.color_palette_cycle|].
  apply SeabornFacts.color_palette_NoDup.
Qed.


(** C4, as the script computes it: the upper bound of the y axis is 1.1
    times the upper limit [top] of the autoscaled view, not 1.1 times the
    greatest plotted value. The autoscaled view spans the range from the
    least to the greatest finite plotted value [lo] and [hi], made
    non-singular, and 5% of its length more at each end, and is made
    non-singular once more; so [top = hi + (hi - lo) * 0.05] for values
    that are spread out. When 1.1 * [top] is nearer to zero than about
    2.2e-287 the bound is 0.05, or -0.05 when 1.1 * [top] is negative. *)
Theorem trend_ylim_top (filtered : frame) (prefix : string)
    (selected : list cell) (ax : trend_axes) :
  trend_figure get_ylim_default filtered prefix selected = Ok ax ->
  let ys := concat (line_y <$> lines ax) in
  exists lo hi,
    (Forall (fun y => is_finite y = false) ys /\ lo = infinity /\ hi = neg_infinity \/
     lo ∈ ys /\ hi ∈ ys /\ is_finite lo = true /\ is_finite hi = true /\
     Forall (fun y => is_finite y = true ->
                      (y <? lo)%float = false /\ (hi <? y)%float = false) ys) /\
    let '(v0, v1) := locator_nonsingular lo hi in
    let delta := ((v1 - v0) * 0.05)%float in
    let delta := if is_finite delta then delta else 0%float in
    let '(bottom, top) := view_limits (v0 - delta) (v1 + delta) in
    get_ylim_default (lines ax) = (bottom, top) /\
    (ylim ax).2 =
      if near_zero (top * 1.1) then (if (top * 1.1 <? 0)%float then -0.05 else 0.05)%float
      else (top * 1.1)%float.
Proof.
  intros H ys. destruct (trend_figure_ylim _ _ _ _ _ H) as [_ Hlim].
  destruct (PyplotFacts.data_interval_spec ys) as (lo & hi & Hint & Hspec).
  exists lo, hi. split; [exact Hspec|].
  unfold get_ylim_default, autoscale in *. fold ys in Hlim |- *. rewrite Hint in Hlim |- *.
  destruct (locator_nonsingular lo hi) as [v0 v1]. cbn zeta in *.
  destruct (view_limits _ _) as [bottom top]. split; [done|].
  rewrite Hlim. cbn [snd]. unfold view_from_zero.
  destruct (near_zero _); [|done]. by destruct (_ <? 0)%float.
Qed.

(** ** Facts about the sort *)
Module PythonFacts.
Import Python.

Section listsort.
Context {A : Type} (lt : A -> A -> bool).

Lemma bisect_range fuel pivot run : forall lo hi,
  lo <= hi -> lo <= bisect lt fuel pivot run lo hi <= hi.
Proof.
  induction fuel as [|fuel IH]; intros lo hi Hle; cbn [bisect]; [lia|].
  case_decide as Hlt; [|lia].
  assert (lo <= lo + (hi - lo) / 2 < hi) as Hmid.
  { assert ((hi - lo) / 2 < hi - lo) by (apply Nat.div_lt; lia). lia. }
  destruct (run !! (lo + (hi - lo) / 2)) as [x|]; [|lia].
  destruct (lt pivot x).
  - specialize (IH lo (lo + (hi - lo) / 2)). lia.
  - specialize (IH (S (lo + (hi - lo) / 2)) hi). lia.
Qed.

Lemma binary_insert_perm run pivot : binary_insert lt run pivot ≡ₚ pivot :: run.
Proof.
  unfold binary_insert. rewrite <- Permutation_middle. by rewrite take_drop.
Qed.

Lemma foldl_binary_insert_perm rest : forall run,
  foldl (binary_insert lt) run rest ≡ₚ run ++ rest.
Proof.
  induction rest as [|x rest IH]; intros run; cbn.
  - by rewrite app_nil_r.
  - rewrite IH, binary_insert_perm. cbn. apply Permutation_middle.
Qed.

Lemma listsort_perm l : listsort lt l ≡ₚ l.
Proof.
  unfold listsort. destruct (count_run lt l) as [n descending].
  rewrite foldl_binary_insert_perm.
  destruct descending; rewrite ?reverse_Permutation; by rewrite take_drop.
Qed.

Lemma py_sorted_perm rev l : py_sorted lt rev l ≡ₚ l.
Proof.
  unfold py_sorted. destruct rev.
  - by rewrite reverse_Permutation, listsort_perm, reverse_Permutation.
  - apply listsort_perm.
Qed.
End listsort.

Lemma sorted_by_perm {A} (key : A -> cell) rev (l l' : list A) :
  sorted_by key rev l = Ok l' -> l' ≡ₚ l.
Proof.
  unfold sorted_by. destruct (_ || _); [|done]. intros H. injection H as <-.
  apply py_sorted_perm.
Qed.

End PythonFacts.

(** ** The comparison view: a missing percentage *)

Lemma mul_nan x y : is_nan x = true -> is_nan (x * y)%float = true.
Proof.
  rewrite !PyFloat.is_nan_Prim2SF, mul_spec. intros ->. reflexivity.
Qed.

Lemma mapM_format_2f (cs : list cell) (xs : list float) :
  mapM format_2f cs = Ok xs -> cs = CNum <$> xs.
Proof.
  revert xs. induction cs as [|c cs IH]; intros xs H; cbn in H.
  - by injection H as <-.
  - apply bind_Ok in H as (x & Hx & H). apply bind_Ok in H as (xs' & Hxs & H).
    injection H as <-. destruct c as [y|s]; [|done]. injection Hx as ->.
    cbn. f_equal. by apply IH.
Qed.

Lemma bar_figure_Ok (latest_data : list entry) (ax : bar_axes) :
  bar_figure latest_data = Ok ax ->
  exists sorted top,
    sorted_by Percentage true latest_data = Ok sorted /\
    bar_labels ax = Country <$> sorted /\
    Percentage <$> sorted = CNum <$> bar_widths ax /\
    bar_colors ax = Seaborn.color_palette (length sorted) /\
    bar_texts ax = bar_widths ax /\
    Python.py_max (bar_widths ax) = Ok top /\
    set_lim 0 (top * 1.2)%float = Ok (xlim ax).
Proof.
  unfold bar_figure. intros H.
  apply bind_Ok in H as (sorted & Hs & H).
  apply bind_Ok in H as (texts & Ht & H).
  apply bind_Ok in H as (top & Hm & H).
  apply bind_Ok in H as (lim & Hl & H). injection H as <-. cbn.
  exists sorted, top. rewrite length_fmap. split_and!; try done.
  by apply mapM_format_2f.
Qed.

(** C10: a selected country whose three columns for 2023 exist, with an
    empty (NaN) percentage cell, gets no warning and is part of the
    comparison data with a NaN percentage; it is in the sorted list and,
    whenever the bar chart is drawn, among its bars with a NaN width. *)
Theorem nan_percentage_included (filtered : frame) (prefix : string)
    (selected cs : list cell) (country : cell) (country_data : frame) (x : float) (w : world) :
  filtered !! "Country" = Some cs ->
  country ∈ selected ->
  country_rows filtered country = Ok country_data ->
  column country_data (col_name prefix latest_year "%") ≫= iloc0 = Ok (CNum x) ->
  is_nan x = true ->
  lookup_ok country_data (col_name prefix latest_year "Num") = true ->
  lookup_ok country_data (col_name prefix latest_year "Obs") = true ->
  exists latest_data w' e p,
    collect_latest filtered prefix selected [] w = (Ok latest_data, w') /\
    e ∈ latest_data /\ Country e = country /\ Percentage e = CNum p /\ is_nan p = true /\
    (st_warning_incomplete country latest_year ∈ page w' ->
     st_warning_incomplete country latest_year ∈ page w) /\
    (forall sorted, sorted_by Percentage true latest_data = Ok sorted -> e ∈ sorted) /\
    (forall ax, bar_figure latest_data = Ok ax ->
       country ∈ bar_labels ax /\ p ∈ bar_widths ax).
Proof.
  intros Hcs Hsel Hrows Hpct Hnan Hnum Hobs.
  destruct (collect_latest_run filtered prefix cs Hcs selected [] w) as (l & Hrun & Hl & Hall).
  assert (complete filtered prefix country = true) as Hcomp.
  { unfold complete. rewrite Hrows. unfold lookup_ok at 1. rewrite Hpct, Hnum, Hobs. done. }
  assert (country ∈ Country <$> l) as Hin.
  { rewrite Hl. apply list_elem_of_filter. done. }
  apply list_elem_of_fmap in Hin as (e & -> & He).
  rewrite Forall_forall in Hall. destruct (Hall e He) as (cd & Hcd & Hentry).
  rewrite Hrows in Hcd. injection Hcd as <-.
  unfold latest_entry in Hentry. rewrite Hpct in Hentry. cbn in Hentry.
  apply bind_Ok in Hentry as (n & _ & Hentry). apply bind_Ok in Hentry as (t & _ & Hentry).
  assert (Percentage e = CNum (x * 100)%float) as Hp by (injection Hentry as <-; done).
  eexists l, _, e, (x * 100)%float. split; [exact Hrun|].
  split; [done|]. split; [done|]. split; [done|]. split; [by apply mul_nan|].
  split.
  { cbn. rewrite elem_of_app. intros [?|Hw]; [done|].
    apply list_elem_of_fmap in Hw as (c & Hc & Hw). injection Hc as <-.
    apply list_elem_of_filter in Hw as [Hw _]. congruence. }
  split.
  { intros sorted Hs. apply PythonFacts.sorted_by_perm in Hs. by rewrite Hs. }
  intros ax Hax. apply bar_figure_Ok in Hax as (sorted & top & Hs & Hlab & Hw & _).
  apply PythonFacts.sorted_by_perm in Hs.
  assert (e ∈ sorted) as Hes by (by rewrite Hs).
  split.
  - rewrite Hlab. apply list_elem_of_fmap. eauto.
  - assert (CNum (x * 100)%float ∈ Percentage <$> sorted) as Hq.
    { apply list_elem_of_fmap. exists e. done. }
    rewrite Hw in Hq. apply list_elem_of_fmap in Hq as (q & Hq & Hin). by injection Hq as ->.
Qed.

(** ** What a run leaves untouched *)

Lemma script_bind_run {A B} (m : script A) (f : A -> script B) (w : world) :
  (m ≫= f) w = match m w with (Ok a, w') => f a w' | (Raise e, w') => (Raise e, w') end.
Proof. reflexivity. Qed.

Lemma keeps_ret {A} (a : A) : keeps_data (mret a).
Proof. by intros w. Qed.

Lemma keeps_lift {A} (r : result A) : keeps_data (lift r).
Proof. by intros w. Qed.

Lemma keeps_emit e : keeps_data (emit e).
Proof. by intros w. Qed.

Lemma keeps_bind {A B} (m : script A) (f : A -> script B) :
  keeps_data m -> (forall a, keeps_data (f a)) -> keeps_data (m ≫= f).
Proof.
  intros Hm Hf w. unfold mbind, script_bind.
  destruct (Hm w) as [H1 H2]. destruct (m w) as [[a|e] w1]; cbn in *; [|done].
  destruct (Hf a w1) as [H3 H4]. split; congruence.
Qed.

Lemma keeps_collect_latest filtered prefix selected :
  forall acc, keeps_data (collect_latest filtered prefix selected acc).
Proof.
  induction selected as [|country rest IH]; intros acc; cbn [collect_latest].
  - apply keeps_ret.
  - apply keeps_bind; [apply keeps_lift|]. intros cd.
    destruct (latest_entry cd prefix country) as [e|[]]; try apply keeps_lift; try apply IH;
      (apply keeps_bind; [apply keeps_emit|]; intros _; apply IH).
Qed.

Lemma keeps_comparison_tab filtered prefix selected :
  keeps_data (comparison_tab filtered prefix selected).
Proof.
  unfold comparison_tab. case_decide; [|apply keeps_emit].
  apply keeps_bind; [apply keeps_collect_latest|]. intros [|e l]; [apply keeps_emit|].
  apply keeps_bind; [apply keeps_lift|]. intros ax. apply keeps_emit.
Qed.

Lemma keeps_trend_tab get_ylim filtered prefix selected :
  keeps_data (trend_tab get_ylim filtered prefix selected).
Proof.
  unfold trend_tab. apply keeps_bind; [apply keeps_lift|]. intros ax. apply keeps_emit.
Qed.

Lemma load_data_data (w : world) :
  file (load_data w).2 = file w /\ cache (load_data w).2 = loaded w.
Proof.
  unfold load_data, loaded. destruct (cache w) as [df|] eqn:Hc; [done|].
  destruct (file w) as [|why|df] eqn:Hf; cbn; done.
Qed.

(** C9: a run never changes the spreadsheet, and the table in the cache is
    the one that was there before, or the one just read from the file when
    the cache was empty. *)
Theorem main_keeps_dataset get_ylim (selected_countries : list cell)
    (selected_display : string) (w : world) :
  file (main get_ylim selected_countries selected_display w).2 = file w /\
  cache (main get_ylim selected_countries selected_display w).2 = loaded w.
Proof.
  unfold main. rewrite script_bind_run.
  destruct (load_data_data w) as [Hf Hc].
  destruct (load_data w) as [[df|e] w1]; cbn [snd] in Hf, Hc; [|done].
  rewrite <- Hf, <- Hc.
  match goal with |- file (?m w1).2 = _ /\ _ => assert (keeps_data m) as Hk end; [|apply Hk].
  apply keeps_bind; [apply keeps_lift|]. intros _.
  apply keeps_bind; [destruct selected_countries; [apply keeps_ret|apply keeps_emit]|]. intros _.
  apply keeps_bind; [apply keeps_lift|]. intros prefix.
  destruct selected_countries as [|c sel].
  - apply keeps_bind; [apply keeps_emit|]. intros _. apply keeps_emit.
  - apply keeps_bind; [apply keeps_lift|]. intros filtered.
    apply keeps_bind; [apply keeps_emit|]. intros _.
    apply keeps_bind; [apply keeps_trend_tab|]. intros _.
    apply keeps_comparison_tab.
Qed.

(** ** The script on the sample tables *)

(** C3 on the sample table: Germany, France and Spain are selected and
    France has an empty percentage cell. The run ends normally and shows the
    bar chart with the bars in the order Germany (15), France (NaN),
    Spain (20): Spain has the greater percentage and comes after Germany. *)
Theorem comparison_order_with_nan :
  (main get_ylim_default sample_selection scaler_label sample_world).1 = Ok tt /\
  match last (page (main get_ylim_default sample_selection scaler_label sample_world).2) with
  | Some (st_pyplot_bars ax) =>
      bar_labels ax = [CStr "Germany"; CStr "France"; CStr "Spain"] /\
      bar_widths ax = [15; nan; 20]%float /\
      (15 <? 20)%float = true
  | _ => False
  end.
Proof. split; [vm_compute; reflexivity|]. vm_compute. split_and!; reflexivity. Qed.

(** C5 on the sample table: France (empty percentage cell) and Spain are
    selected. Both pass the three look-ups, so two countries are selected
    and two survive, yet the run ends with [ValueError] from the x axis
    limit and no bar chart is shown. *)
Theorem comparison_aborts_on_nan :
  let selected := [CStr "France"; CStr "Spain"] in
  length <$> (collect_latest (filtered_by sample_df selected) "Scaler" selected [] sample_world).1
    = Ok 2 /\
  (main get_ylim_default selected scaler_label sample_world).1 = Raise ValueError /\
  existsb shows_bars (page (main get_ylim_default selected scaler_label sample_world).2) = false.
Proof. split_and!; vm_compute; reflexivity. Qed.

Lemma float_neq (x y : float) : (x <? y)%float = true -> y <> x.
Proof. intros H ->. by rewrite PyFloat.ltb_irrefl in H. Qed.

(** C4 fails on the sample table: the greatest plotted value is 30, the
    axes report the upper view limit 31 and the upper bound is set to
    34.1, not to 1.1 times 30. *)
Lemma ylim_top_not_scaled_max :
  exists ax m,
    trend_figure get_ylim_default (filtered_by sample_df sample_selection) "Scaler" sample_selection
      = Ok ax /\
    max_plotted ax = Ok m /\
    (ylim ax).2 <> (m * 1.1)%float /\ (ylim ax).2 <> (1.1 * m)%float.
Proof.
  destruct (trend_figure get_ylim_default (filtered_by sample_df sample_selection) "Scaler"
              sample_selection) as [ax|e] eqn:E; [|vm_compute in E; discriminate].
  destruct (max_plotted ax) as [m|e] eqn:Em.
  2:{ vm_compute in E. injection E as <-. vm_compute in Em. discriminate. }
  exists ax, m. split; [done|]. split; [done|].
  vm_compute in E. injection E as <-. vm_compute in Em. injection Em as <-.
  split; apply float_neq; vm_compute; reflexivity.
Qed.


(** C7 fails on eleven selected countries: the first and the eleventh line
    have the same colour. *)
Lemma palette_repeats :
  exists ax,
    trend_figure get_ylim_default (filtered_by eleven_df eleven) "Scaler" eleven = Ok ax /\
    line_label <$> lines ax = eleven /\ NoDup eleven /\
    line_color <$> lines ax !! 0 = line_color <$> lines ax !! 10.
Proof.
  destruct (trend_figure get_ylim_default (filtered_by eleven_df eleven) "Scaler" eleven)
    as [ax|e] eqn:E; [|vm_compute in E; discriminate].
  exists ax. split; [done|]. vm_compute in E. injection E as <-.
  split; [reflexivity|]. split; [|reflexivity].
  unfold eleven.
  repeat (apply NoDup_cons; split;
          [rewrite ?not_elem_of_cons; split_and?; try apply not_elem_of_nil; discriminate|]).
  apply NoDup_nil. done.
Qed.

(** ** The theorems at work on the sample tables *)

Lemma full_df_wf : wf_frame full_df.
Proof.
  exists 3. apply (bool_decide_unpack (map_Forall (fun _ col => length col = 3) full_df)).
  vm_compute. exact I.
Defined.

Lemma trend_point_fraction_witness :
  exists filtered country_data i,
    filter_selected full_df sample_selection = Ok filtered /\
    country_rows filtered (CStr "Spain") = Ok country_data /\
    first_row sample_selection (CStr "Spain") = Some i /\
    match full_df !! col_name "Scaler" 2023 "%" with
    | Some col =>
        exists x, col !! i = Some (CNum x) /\
          trend_point country_data "Scaler" 2023 = Ok (CNum (x * 100)%float) /\
          (0 <=? x * 100)%float = true /\ (x * 100 <=? 100)%float = true
    | None => trend_point country_data "Scaler" 2023 = Ok (CNum nan)
    end.
Proof.
  apply (trend_point_fraction full_df sample_selection sample_selection "Scaler"
           (CStr "Spain") 2023).
  - exact full_df_wf.
  - vm_compute. reflexivity.
  - intros col H. vm_compute in H. injection H as <-. repeat constructor.
  - unfold sample_selection. set_solver.
  - reflexivity.
  - unfold sample_selection. set_solver.
  - unfold years. set_solver.
Defined.

Lemma collect_latest_complete_witness :
  exists latest_data,
    collect_latest (filtered_by sample_df sample_selection) "Scaler" sample_selection []
      sample_world =
      (Ok latest_data,
       {| file := file sample_world; cache := cache sample_world;
          page := page sample_world ++ ((fun c => st_warning_incomplete c latest_year) <$>
                    filter (fun c => complete (filtered_by sample_df sample_selection) "Scaler" c = false)
                      sample_selection) |}) /\
    Country <$> latest_data =
      filter (fun c => complete (filtered_by sample_df sample_selection) "Scaler" c = true)
        sample_selection.
Proof.
  apply (collect_latest_complete (filtered_by sample_df sample_selection) "Scaler"
           sample_selection sample_selection sample_world).
  vm_compute. reflexivity.
Defined.

Lemma trend_lines_colors_witness :
  exists ax,
    trend_figure get_ylim_default (filtered_by sample_df sample_selection) "Scaler" sample_selection
      = Ok ax /\
    line_label <$> lines ax = sample_selection /\
    line_color <$> lines ax =
      (fun i => nth (i mod 10) Seaborn.tab10 "") <$> seq 0 (length sample_selection) /\
    (length sample_selection <= 10 -> NoDup (line_color <$> lines ax)).
Proof.
  destruct (trend_figure get_ylim_default (filtered_by sample_df sample_selection) "Scaler"
              sample_selection) as [ax|e] eqn:E; [|vm_compute in E; discriminate].
  exists ax. split; [reflexivity|].
  exact (trend_lines_colors get_ylim_default _ _ _ ax E).
Defined.


Lemma trend_ylim_top_witness :
  exists ax,
    trend_figure get_ylim_default (filtered_by sample_df sample_selection) "Scaler" sample_selection
      = Ok ax /\
    let ys := concat (line_y <$> lines ax) in
    exists lo hi,
      (Forall (fun y => is_finite y = false) ys /\ lo = infinity /\ hi = neg_infinity \/
       lo ∈ ys /\ hi ∈ ys /\ is_finite lo = true /\ is_finite hi = true /\
       Forall (fun y => is_finite y = true ->
                        (y <? lo)%float = false /\ (hi <? y)%float = false) ys) /\
      let '(v0, v1) := locator_nonsingular lo hi in
      let delta := ((v1 - v0) * 0.05)%float in
      let delta := if is_finite delta then delta else 0%float in
      let '(bottom, top) := view_limits (v0 - delta) (v1 + delta) in
      get_ylim_default (lines ax) = (bottom, top) /\
      (ylim ax).2 =
        if near_zero (top * 1.1) then (if (top * 1.1 <? 0)%float then -0.05 else 0.05)%float
        else (top * 1.1)%float.
Proof.
  destruct (trend_figure get_ylim_default (filtered_by sample_df sample_selection) "Scaler"
              sample_selection) as [ax|e] eqn:E; [|vm_compute in E; discriminate].
  exists ax. split; [reflexivity|].
  exact (trend_ylim_top _ _ _ ax E).
Defined.

Lemma nan_percentage_included_witness :
  exists latest_data w' e p,
    collect_latest (filtered_by sample_df sample_selection) "Scaler" sample_selection []
      sample_world = (Ok latest_data, w') /\
    e ∈ latest_data /\ Country e = CStr "France" /\ Percentage e = CNum p /\ is_nan p = true /\
    (st_warning_incomplete (CStr "France") latest_year ∈ page w' ->
     st_warning_incomplete (CStr "France") latest_year ∈ page sample_world) /\
    (forall sorted, sorted_by Percentage true latest_data = Ok sorted -> e ∈ sorted) /\
    (forall ax, bar_figure latest_data = Ok ax ->
       CStr "France" ∈ bar_labels ax /\ p ∈ bar_widths ax).
Proof.
  apply (nan_percentage_included (filtered_by sample_df sample_selection) "Scaler"
           sample_selection sample_selection (CStr "France")
           (select_rows (filtered_by sample_df sample_selection)
              (eq_mask sample_selection (CStr "France")))
           nan sample_world).
  - vm_compute. reflexivity.
  - unfold sample_selection. set_solver.
  - vm_compute. reflexivity.
  - vm_compute. reflexivity.
  - reflexivity.
  - vm_compute. reflexivity.
  - vm_compute. reflexivity.
Defined.

(** ** The sort on well-ordered keys *)
Module SortFacts.
Import Python.

Lemma filter_none {A} (Q : A -> Prop) `{forall x, Decision (Q x)} (l : list A) :
  Forall (fun x => ~ Q x) l -> filter Q l = [].
Proof.
  induction 1 as [|x l Hx _ IH]; [done|]. by rewrite filter_cons_False.
Qed.

Lemma reverse_short {A} (l : list A) : length l <= 1 -> reverse l = l.
Proof. destruct l as [|x [|y l]]; cbn; [done..|lia]. Qed.

Section stable.
Context {A : Type} (lt : A -> A -> bool) (P : A -> Prop).
Hypothesis lt_irrefl : forall x, P x -> lt x x = false.
Hypothesis lt_trans :
  forall x y z, P x -> P y -> P z -> lt x y = true -> lt y z = true -> lt x z = true.
Hypothesis lt_cotrans :
  forall x y z, P x -> P y -> P z -> lt x z = true -> lt x y = true \/ lt y z = true.

Lemma lt_asym x y : P x -> P y -> lt x y = true -> lt y x = false.
Proof.
  intros Px Py Hxy. destruct (lt y x) eqn:Hyx; [|done].
  by rewrite <- (lt_irrefl x Px), (lt_trans x y x).
Qed.

#[local] Instance le_on_trans : Transitive (le_on lt P).
Proof.
  intros a b c (Pa & Pb & Hab) (_ & Pc & Hbc). split_and!; [done..|].
  destruct (lt c a) eqn:Hca; [|done].
  destruct (lt_cotrans c b a Pc Pb Pa Hca); congruence.
Qed.

#[local] Instance lt_on_trans : Transitive (lt_on lt P).
Proof.
  intros a b c (Pa & Pb & Hab) (_ & Pc & Hbc). split_and!; [done..|].
  by apply (lt_trans a b c).
Qed.

Lemma sorted_lookup (R : relation A) (l : list A) i j x y :
  StronglySorted R l -> i < j -> l !! i = Some x -> l !! j = Some y -> R x y.
Proof.
  intros Hs. revert i j. induction Hs as [|a l Hs IH Hall]; intros i j Hij Hi Hj; [done|].
  destruct j as [|j]; [lia|]. cbn in Hj. destruct i as [|i]; cbn in Hi.
  - injection Hi as <-. rewrite Forall_forall in Hall. apply Hall.
    by eapply list_elem_of_lookup_2.
  - apply (IH i j); [lia|done..].
Qed.

(** The bisection finds the place after the elements not greater than the
    pivot and before the greater ones. *)
Lemma bisect_spec pivot (run : list A) :
  StronglySorted (le_on lt P) run -> P pivot ->
  forall fuel lo hi,
  lo <= hi <= length run -> hi - lo <= fuel ->
  (forall k x, k < lo -> run !! k = Some x -> lt pivot x = false) ->
  (forall k x, hi <= k -> run !! k = Some x -> lt pivot x = true) ->
  let i := bisect lt fuel pivot run lo hi in
  (forall k x, k < i -> run !! k = Some x -> lt pivot x = false) /\
  (forall k x, i <= k -> run !! k = Some x -> lt pivot x = true).
Proof.
  intros Hs Pp. induction fuel as [|fuel IH]; intros lo hi Hb Hf Hlo Hhi; cbn [bisect].
  - assert (lo = hi) as -> by lia. done.
  - case_decide as Hlt.
    2:{ assert (lo = hi) as -> by lia. done. }
    assert ((hi - lo) / 2 < hi - lo) as Hhalf by (apply Nat.div_lt; lia).
    set (mid := lo + (hi - lo) / 2) in *.
    assert (lo <= mid < hi) as Hmid by (subst mid; lia).
    destruct (run !! mid) as [m|] eqn:Hm.
    2:{ apply lookup_ge_None in Hm. lia. }
    destruct (lt pivot m) eqn:Hpm.
    + apply IH; [lia|lia|done|].
      intros k x Hk Hx. destruct (decide (k = mid)) as [->|Hne]; [congruence|].
      destruct (sorted_lookup _ run mid k m x Hs ltac:(lia) Hm Hx) as (Pm & Px & Hxm).
      destruct (lt_cotrans pivot x m Pp Px Pm Hpm); congruence.
    + apply IH; [lia|lia| |done].
      intros k x Hk Hx. destruct (decide (k = mid)) as [->|Hne]; [congruence|].
      destruct (sorted_lookup _ run k mid x m Hs ltac:(lia) Hx Hm) as (Px & Pm & Hmx).
      destruct (lt pivot x) eqn:Hpx; [|done].
      destruct (lt_cotrans pivot m x Pp Pm Px Hpx); congruence.
Qed.

Lemma binary_insert_parts (run : list A) pivot :
  StronglySorted (le_on lt P) run -> P pivot ->
  exists before after,
    run = before ++ after /\
    binary_insert lt run pivot = before ++ pivot :: after /\
    Forall (fun x => lt pivot x = false) before /\
    Forall (fun x => lt pivot x = true) after.
Proof.
  intros Hs Pp. unfold binary_insert.
  set (i := bisect lt (length run) pivot run 0 (length run)).
  destruct (bisect_spec pivot run Hs Pp (length run) 0 (length run)) as [Hb Ha];
    [lia|lia|lia| |].
  { intros k x Hk Hx. apply lookup_lt_Some in Hx. lia. }
  fold i in Hb, Ha.
  exists (take i run), (drop i run). split; [by rewrite take_drop|]. split; [done|].
  split; apply Forall_lookup_2; intros k x Hx.
  - apply lookup_take_Some in Hx as [Hx Hk]. by apply (Hb k).
  - rewrite lookup_drop in Hx. apply (Ha (i + k)); [lia|done].
Qed.

Lemma binary_insert_sorted (run : list A) pivot :
  Forall P run -> StronglySorted (le_on lt P) run -> P pivot ->
  StronglySorted (le_on lt P) (binary_insert lt run pivot).
Proof.
  intros HP Hs Pp.
  destruct (binary_insert_parts run pivot Hs Pp) as (b & a & -> & -> & Hb & Ha).
  apply StronglySorted_app in Hs as (Hba & Hsb & Hsa).
  apply Forall_app in HP as [HPb HPa]. rewrite Forall_forall in Hb, Ha, HPb, HPa.
  apply StronglySorted_app. split_and!; [|done|].
  - intros x y Hx Hy. apply elem_of_cons in Hy as [->|Hy]; [|by apply Hba].
    split_and!; auto.
  - constructor; [done|]. apply Forall_forall. intros y Hy.
    split_and!; auto. apply lt_asym; auto.
Qed.

(** The pivot goes behind the elements that tie with it. *)
Lemma binary_insert_stable (run : list A) pivot a :
  Forall P run -> StronglySorted (le_on lt P) run -> P pivot -> P a ->
  filter (fun x => tie lt a x = true) (binary_insert lt run pivot)
  = filter (fun x => tie lt a x = true) (run ++ [pivot]).
Proof.
  intros HP Hs Pp Pa.
  destruct (binary_insert_parts run pivot Hs Pp) as (b & af & -> & -> & Hb & Ha).
  apply Forall_app in HP as [_ HPa]. rewrite Forall_forall in HPa.
  rewrite !filter_app, <- app_assoc. f_equal.
  destruct (tie lt a pivot) eqn:Ht.
  - rewrite filter_cons_True by done.
    rewrite (filter_cons_True _ _ []) by done. rewrite filter_nil.
    assert (filter (fun x => tie lt a x = true) af = []) as ->; [|done].
    apply filter_none, Forall_forall. intros y Hy Hty.
    rewrite Forall_forall in Ha. specialize (Ha y Hy).
    unfold tie in Ht, Hty. apply andb_prop in Ht as [H1 H2], Hty as [H3 H4].
    apply negb_true_iff in H1, H2, H3, H4.
    destruct (lt_cotrans pivot a y Pp Pa (HPa y Hy) Ha); congruence.
  - rewrite filter_cons_False by (rewrite Ht; done).
    rewrite (filter_cons_False _ _ []) by (rewrite Ht; done).
    by rewrite filter_nil, app_nil_r.
Qed.

Lemma foldl_binary_insert_sorted (rest : list A) : forall run,
  Forall P run -> Forall P rest -> StronglySorted (le_on lt P) run ->
  StronglySorted (le_on lt P) (foldl (binary_insert lt) run rest) /\
  forall a, P a ->
    filter (fun x => tie lt a x = true) (foldl (binary_insert lt) run rest)
    = filter (fun x => tie lt a x = true) (run ++ rest).
Proof.
  induction rest as [|x rest IH]; intros run HPr HPt Hs; cbn [foldl].
  - rewrite app_nil_r. done.
  - apply Forall_cons in HPt as [Px HPt].
    destruct (IH (binary_insert lt run x)) as [Hs' Hst]; [|done|by apply binary_insert_sorted|].
    { rewrite PythonFacts.binary_insert_perm. by constructor. }
    split; [done|]. intros a Pa. rewrite (Hst a Pa), filter_app.
    rewrite (binary_insert_stable run x a HPr Hs Px Pa).
    by rewrite <- filter_app, <- app_assoc.
Qed.

(** The leading run. *)
Lemma run_ascending_sorted (l : list A) : forall a,
  Forall P (a :: l) ->
  Sorted (le_on lt P) (take (S (run_ascending lt a l)) (a :: l)).
Proof.
  induction l as [|x l IH]; intros a HP; cbn [run_ascending].
  - repeat constructor.
  - apply Forall_cons in HP as [Pa HP]. destruct (lt x a) eqn:Hxa.
    + repeat constructor.
    + change (take (S (S ?n)) (a :: x :: l)) with (a :: take (S n) (x :: l)).
      constructor; [by apply IH|]. cbn [take]. constructor.
      apply Forall_cons in HP as [Px _]. done.
Qed.

Lemma run_descending_sorted (l : list A) : forall a,
  Forall P (a :: l) ->
  Sorted (flip (lt_on lt P)) (take (S (run_descending lt a l)) (a :: l)).
Proof.
  induction l as [|x l IH]; intros a HP; cbn [run_descending].
  - repeat constructor.
  - apply Forall_cons in HP as [Pa HP]. destruct (lt x a) eqn:Hxa.
    + change (take (S (S ?n)) (a :: x :: l)) with (a :: take (S n) (x :: l)).
      constructor; [by apply IH|]. cbn [take]. constructor.
      apply Forall_cons in HP as [Px _]. done.
    + repeat constructor.
Qed.

Lemma strict_sorted_weaken (l : list A) :
  StronglySorted (lt_on lt P) l -> StronglySorted (le_on lt P) l.
Proof.
  induction 1 as [|a l Hs IH Hall]; constructor; [done|].
  eapply Forall_impl; [done|]. intros y (Pa & Py & Hay). split_and!; [done..|].
  by apply lt_asym.
Qed.

(** A strictly increasing list has no two elements that tie. *)
Lemma strict_sorted_tie (l : list A) a :
  StronglySorted (lt_on lt P) l -> P a ->
  length (filter (fun x => tie lt a x = true) l) <= 1.
Proof.
  intros Hs Pa. induction Hs as [|x l Hs IH Hall]; [cbn; lia|].
  destruct (tie lt a x) eqn:Ht.
  - rewrite filter_cons_True by done.
    rewrite filter_none; [cbn; lia|].
    eapply Forall_impl; [done|]. intros y (Px & Py & Hxy) Hty.
    unfold tie in Ht, Hty. apply andb_prop in Ht as [H1 H2], Hty as [H3 H4].
    apply negb_true_iff in H1, H2, H3, H4.
    destruct (lt_cotrans x a y Px Pa Py Hxy); congruence.
  - rewrite filter_cons_False by (rewrite Ht; done). done.
Qed.

Lemma count_run_spec (l : list A) :
  Forall P l ->
  let run := take (count_run lt l).1 l in
  let run' := if (count_run lt l).2 then reverse run else run in
  StronglySorted (le_on lt P) run' /\
  forall a, P a ->
    filter (fun x => tie lt a x = true) run' = filter (fun x => tie lt a x = true) run.
Proof.
  intros HP. destruct l as [|a [|b l]]; cbn [count_run fst snd].
  - cbn. split; [constructor|done].
  - cbn. split; [repeat constructor|done].
  - apply Forall_cons in HP as [Pa HP]. destruct (lt b a) eqn:Hba; cbn [fst snd].
    + change (take (2 + ?n) (a :: b :: l)) with (a :: take (S n) (b :: l)).
      assert (Sorted (flip (lt_on lt P))
                (a :: take (S (run_descending lt b l)) (b :: l))) as Hsd.
      { constructor; [by apply run_descending_sorted|]. cbn [take]. constructor.
        apply Forall_cons in HP as [Pb _]. done. }
      apply Sorted_reverse in Hsd.
      assert (StronglySorted (lt_on lt P)
                (reverse (a :: take (S (run_descending lt b l)) (b :: l)))) as Hss.
      { apply Sorted_StronglySorted; [apply _|]. exact Hsd. }
      split; [by apply strict_sorted_weaken|].
      intros c Pc. pose proof (strict_sorted_tie _ c Hss Pc) as Hlen.
      rewrite filter_reverse in Hlen |- *. rewrite length_reverse in Hlen.
      by apply reverse_short.
    + change (take (2 + ?n) (a :: b :: l)) with (a :: take (S n) (b :: l)).
      split; [|done]. apply Sorted_StronglySorted; [apply _|].
      constructor; [by apply run_ascending_sorted|]. cbn [take]. constructor.
      apply Forall_cons in HP as [Pb _]. done.
Qed.

(** On elements that the order handles, the sort returns an ascending list
    in which elements that tie keep the order they came in. *)
Lemma listsort_sorted (l : list A) :
  Forall P l ->
  StronglySorted (le_on lt P) (listsort lt l) /\
  forall a, P a ->
    filter (fun x => tie lt a x = true) (listsort lt l) = filter (fun x => tie lt a x = true) l.
Proof.
  intros HP. unfold listsort.
  destruct (count_run_spec l HP) as [Hs Hst].
  destruct (count_run lt l) as [n descending]. cbn [fst snd] in Hs, Hst.
  assert (Forall P (take n l)) as HPt by (by apply Forall_take).
  assert (Forall P (drop n l)) as HPd by (by apply Forall_drop).
  destruct (foldl_binary_insert_sorted (drop n l)
              (if descending then reverse (take n l) else take n l)) as [Hs' Hst'];
    [by destruct descending; rewrite ?Forall_reverse|done|done|].
  split; [done|]. intros a Pa.
  rewrite (Hst' a Pa), filter_app, (Hst a Pa), <- filter_app, take_drop. done.
Qed.

Lemma py_sorted_descending (l : list A) :
  Forall P l ->
  StronglySorted (flip (le_on lt P)) (py_sorted lt true l) /\
  forall a, P a ->
    filter (fun x => tie lt a x = true) (py_sorted lt true l)
    = filter (fun x => tie lt a x = true) l.
Proof.
  intros HP. unfold py_sorted.
  destruct (listsort_sorted (reverse l)) as [Hs Hst]; [by rewrite Forall_reverse|].
  split.
  - apply Sorted_StronglySorted; [apply _|].
    apply Sorted_reverse. by apply StronglySorted_Sorted.
  - intros a Pa. by rewrite filter_reverse, (Hst a Pa), filter_reverse, reverse_involutive.
Qed.

End stable.
End SortFacts.

(** ** The comparison view: the order of the bars *)

Lemma percentage_lt_irrefl e : has_percentage e -> percentage_lt e e = false.
Proof. intros (x & Hx & _). unfold percentage_lt. rewrite Hx. apply PyFloat.ltb_irrefl. Qed.

Lemma percentage_lt_trans a b c :
  has_percentage a -> has_percentage b -> has_percentage c ->
  percentage_lt a b = true -> percentage_lt b c = true -> percentage_lt a c = true.
Proof.
  intros (x & Hx & _) (y & Hy & _) (z & Hz & _). unfold percentage_lt.
  rewrite Hx, Hy, Hz. apply PyFloat.ltb_trans.
Qed.

Lemma percentage_lt_cotrans a b c :
  has_percentage a -> has_percentage b -> has_percentage c ->
  percentage_lt a c = true -> percentage_lt a b = true \/ percentage_lt b c = true.
Proof.
  intros (x & Hx & _) (y & Hy & Hny) (z & Hz & _). unfold percentage_lt.
  rewrite Hx, Hy, Hz. by apply PyFloat.ltb_cotrans.
Qed.

Lemma sorted_by_percentage (latest_data sorted : list entry) :
  sorted_by Percentage true latest_data = Ok sorted ->
  sorted = Python.py_sorted percentage_lt true latest_data.
Proof.
  unfold sorted_by. destruct (_ || _); [|done]. by intros [= <-].
Qed.

(** X1: when no percentage is NaN the bars are in descending order of
    percentage: a country with a greater percentage comes before one with a
    smaller percentage, and countries with equal percentages keep the order
    of the selection. *)
Theorem bar_chart_descending (latest_data : list entry) (ax : bar_axes) :
  bar_figure latest_data = Ok ax ->
  Forall has_percentage latest_data ->
  exists sorted,
    sorted ≡ₚ latest_data /\
    bar_labels ax = Country <$> sorted /\
    Percentage <$> sorted = CNum <$> bar_widths ax /\
    (forall i j wi wj, i < j -> bar_widths ax !! i = Some wi -> bar_widths ax !! j = Some wj ->
       (wi <? wj)%float = false) /\
    (forall a b, a ∈ latest_data -> b ∈ latest_data -> percentage_lt b a = true ->
       exists i j, i < j /\ sorted !! i = Some a /\ sorted !! j = Some b) /\
    (forall e, has_percentage e ->
       filter (fun e' => Python.tie percentage_lt e e' = true) sorted
       = filter (fun e' => Python.tie percentage_lt e e' = true) latest_data).
Proof.
  intros Hax HP. apply bar_figure_Ok in Hax as (sorted & top & Hs & Hlab & Hw & _).
  pose proof (PythonFacts.sorted_by_perm _ _ _ _ Hs) as Hperm.
  apply sorted_by_percentage in Hs.
  destruct (SortFacts.py_sorted_descending percentage_lt has_percentage
              percentage_lt_irrefl percentage_lt_trans percentage_lt_cotrans latest_data HP)
    as [Hsorted Hstable].
  rewrite <- Hs in Hsorted, Hstable.
  exists sorted. split_and!; try done.
  - intros i j wi wj Hij Hi Hj.
    assert (exists a, sorted !! i = Some a /\ Percentage a = CNum wi) as (a & Ha & Hpa).
    { apply (f_equal (fun l => l !! i)) in Hw. rewrite !list_lookup_fmap, Hi in Hw.
      destruct (sorted !! i) as [a|]; [|done]. exists a. split; [done|]. by injection Hw. }
    assert (exists b, sorted !! j = Some b /\ Percentage b = CNum wj) as (b & Hb & Hpb).
    { apply (f_equal (fun l => l !! j)) in Hw. rewrite !list_lookup_fmap, Hj in Hw.
      destruct (sorted !! j) as [b|]; [|done]. exists b. split; [done|]. by injection Hw. }
    destruct (SortFacts.sorted_lookup _ sorted i j a b Hsorted Hij Ha Hb) as (_ & _ & Hlt).
    unfold percentage_lt in Hlt. by rewrite Hpa, Hpb in Hlt.
  - intros a b Ha Hb Hlt. rewrite <- Hperm in Ha, Hb.
    apply list_elem_of_lookup in Ha as [i Hi], Hb as [j Hj].
    exists i, j. split; [|done].
    destruct (Nat.lt_trichotomy i j) as [?|[->|Hji]]; [done| |].
    + rewrite Hi in Hj. injection Hj as ->.
      rewrite percentage_lt_irrefl in Hlt; [done|].
      rewrite Forall_forall in HP. apply HP. rewrite <- Hperm.
      by eapply list_elem_of_lookup_2.
    + destruct (SortFacts.sorted_lookup _ sorted j i b a Hsorted Hji Hj Hi) as (_ & _ & H).
      congruence.
Qed.

(** ** The comparison view: which countries are complete *)

Lemma first_row_Some (cs : list cell) (c : cell) :
  is_Some (first_row cs c) <-> exists x, x ∈ cs /\ cell_eqb x c = true.
Proof.
  unfold first_row. split.
  - intros [i Hi]. destruct (list_find _ cs) as [[j x]|] eqn:Hf; [|done].
    apply list_find_Some in Hf as (Hj & Hx & _). exists x. split; [|done].
    by eapply list_elem_of_lookup_2.
  - intros (x & Hin & Hx).
    destruct (list_find (fun y => cell_eqb y c = true) cs) as [[j y]|] eqn:Hf; [by eexists|].
    apply list_find_None in Hf. rewrite Forall_forall in Hf. by apply Hf in Hin.
Qed.

(** A look-up in the rows of a country: the cell of the country's first
    row, [KeyError] without the column, [IndexError] without a row. *)
Lemma lookup_rows (filtered : frame) (cs : list cell) (country : cell) (name : string) :
  wf_frame filtered -> filtered !! "Country" = Some cs ->
  column (select_rows filtered (eq_mask cs country)) name ≫= iloc0 =
    match filtered !! name, first_row cs country with
    | None, _ => Raise KeyError
    | Some col, None => Raise IndexError
    | Some col, Some i => match col !! i with Some c => Ok c | None => Raise IndexError end
    end.
Proof.
  intros [n Hwf] Hcs. unfold column. rewrite select_rows_lookup.
  destruct (filtered !! name) as [col|] eqn:Hcol; cbn; [|done].
  destruct (first_row cs country) as [i|] eqn:Hi.
  - destruct (mask_filter_first cs country col i) as (v & Hv & Hhead); [|done|].
    { by rewrite (Hwf _ _ Hcs), (Hwf _ _ Hcol). }
    rewrite Hv. by apply iloc0_head.
  - by rewrite first_row_None_filter.
Qed.

(** A country is complete exactly when the three columns of the latest year
    exist and the table has a row for the country. *)
Lemma complete_iff (filtered : frame) (prefix : string) (country : cell) (cs : list cell) :
  wf_frame filtered -> filtered !! "Country" = Some cs ->
  complete filtered prefix country = true <->
    (has_column filtered (col_name prefix latest_year "%") = true /\
     has_column filtered (col_name prefix latest_year "Num") = true /\
     has_column filtered (col_name prefix latest_year "Obs") = true) /\
    exists c, c ∈ cs /\ cell_eqb c country = true.
Proof.
  intros Hwf Hcs. unfold complete, country_rows, column at 1. rewrite Hcs. cbn [mbind result_bind].
  unfold lookup_ok. rewrite !(lookup_rows filtered cs country _ Hwf Hcs).
  rewrite <- first_row_Some. unfold has_column.
  destruct Hwf as [n Hwf].
  assert (forall name col i, filtered !! name = Some col -> first_row cs country = Some i ->
            is_Some (col !! i)) as Hrow.
  { intros name col i Hcol Hi. apply lookup_lt_is_Some.
    rewrite (Hwf _ _ Hcol), <- (Hwf _ _ Hcs).
    unfold first_row in Hi. destruct (list_find _ cs) as [[j x]|] eqn:Hf; [|done].
    injection Hi as <-. apply list_find_Some in Hf as (Hj & _). by eapply lookup_lt_Some. }
  destruct (first_row cs country) as [i|] eqn:Hi.
  - destruct (filtered !! col_name prefix latest_year "%") as [pc|] eqn:Hp;
      [destruct (Hrow _ _ _ Hp eq_refl) as [p ->]|];
    (destruct (filtered !! col_name prefix latest_year "Num") as [nc|] eqn:Hn;
      [destruct (Hrow _ _ _ Hn eq_refl) as [n' ->]|]);
    (destruct (filtered !! col_name prefix latest_year "Obs") as [tc|] eqn:Ht;
      [destruct (Hrow _ _ _ Ht eq_refl) as [t ->]|]);
    cbn; rewrite ?bool_decide_eq_true; split; try done; intros [(H1 & H2 & H3) _];
      try (by destruct H1); try (by destruct H2); try (by destruct H3).
  - split; [|by intros [_ []]].
    destruct (filtered !! col_name prefix latest_year "%");
      destruct (filtered !! col_name prefix latest_year "Num");
      destruct (filtered !! col_name prefix latest_year "Obs"); done.
Qed.

Lemma latest_values (filtered : frame) (prefix : string) (selected cs : list cell)
    (w w' : world) (latest_data : list entry) :
  wf_frame filtered -> filtered !! "Country" = Some cs ->
  collect_latest filtered prefix selected [] w = (Ok latest_data, w') ->
  Forall (fun e =>
    exists i pcol ncol tcol p n t,
      first_row cs (Country e) = Some i /\
      filtered !! col_name prefix latest_year "%" = Some pcol /\ pcol !! i = Some p /\
      filtered !! col_name prefix latest_year "Num" = Some ncol /\ ncol !! i = Some n /\
      filtered !! col_name prefix latest_year "Obs" = Some tcol /\ tcol !! i = Some t /\
      e = {| Country := Country e; Percentage := times100 p; Number := n; Total := t |})
    latest_data.
Proof.
  intros Hwf Hcs Hrun.
  destruct (collect_latest_run filtered prefix cs Hcs selected [] w) as (l & Hrun' & _ & Hall).
  rewrite Hrun in Hrun'. injection Hrun' as -> _.
  eapply Forall_impl; [exact Hall|]. intros e (cd & Hcd & He).
  unfold country_rows, column in Hcd. rewrite Hcs in Hcd. injection Hcd as <-.
  unfold latest_entry in He.
  rewrite !(lookup_rows filtered cs (Country e) _ Hwf Hcs) in He.
  destruct (first_row cs (Country e)) as [i|].
  2:{ by repeat (destruct (filtered !! _) in He; cbn in He; try done). }
  destruct (filtered !! col_name prefix latest_year "%") as [pcol|] eqn:Hp; [|done].
  destruct (pcol !! i) as [p|] eqn:Hpi; [|done]. cbn in He.
  destruct (filtered !! col_name prefix latest_year "Num") as [ncol|] eqn:Hn; [|done].
  destruct (ncol !! i) as [n|] eqn:Hni; [|done]. cbn in He.
  destruct (filtered !! col_name prefix latest_year "Obs") as [tcol|] eqn:Ht; [|done].
  destruct (tcol !! i) as [t|] eqn:Hti; [|done]. cbn in He.
  exists i, pcol, ncol, tcol, p, n, t. split_and!; try done.
  injection He as He. done.
Qed.

(** X3: a selected country is put into the comparison data exactly when
    the three columns of the latest year exist and the table has a row for
    the country; it gets the warning exactly when one of the columns or the
    row is missing. The loop ends normally and adds nothing but these
    warnings to the page. *)
Theorem comparison_data_complete (filtered : frame) (prefix : string)
    (selected cs : list cell) (w : world) :
  wf_frame filtered -> filtered !! "Country" = Some cs ->
  exists latest_data warned,
    collect_latest filtered prefix selected [] w =
      (Ok latest_data, with_page w (page w ++ warned)) /\
    (forall country, country ∈ selected ->
      let has_data :=
        (has_column filtered (col_name prefix latest_year "%") = true /\
         has_column filtered (col_name prefix latest_year "Num") = true /\
         has_column filtered (col_name prefix latest_year "Obs") = true) /\
        exists c, c ∈ cs /\ cell_eqb c country = true in
      (country ∈ Country <$> latest_data <-> has_data) /\
      (st_warning_incomplete country latest_year ∈ warned <-> ~ has_data)) /\
    Forall (fun shown => exists country,
              country ∈ selected /\ shown = st_warning_incomplete country latest_year) warned.
Proof.
  intros Hwf Hcs.
  destruct (collect_latest_run filtered prefix cs Hcs selected [] w) as (l & Hrun & Hl & _).
  eexists l, _. split; [exact Hrun|]. split.
  2:{ apply Forall_forall. intros shown Hs. apply list_elem_of_fmap in Hs as (c & -> & Hc).
      apply list_elem_of_filter in Hc as [_ Hc]. eauto. }
  intros country Hin. cbn zeta.
  rewrite <- (complete_iff filtered prefix country cs Hwf Hcs). split.
  - rewrite Hl, list_elem_of_filter. tauto.
  - rewrite list_elem_of_fmap. split.
    + intros (c & Hc & Hf). injection Hc as <-. apply list_elem_of_filter in Hf as [Hf _].
      congruence.
    + intros Hn. exists country. split; [done|]. apply list_elem_of_filter. split; [|done].
      by destruct (complete filtered prefix country).
Qed.

(** X4: the record of a surviving country holds the cells of the country's
    first row: the percentage times 100, the number of companies and the
    number of observations. (The percentage cells are taken to be of
    moderate size, so that the product is the same for a column of whole
    numbers.) *)
Theorem latest_data_values (filtered : frame) (prefix : string) (selected cs : list cell)
    (w w' : world) (latest_data : list entry) :
  wf_frame filtered -> filtered !! "Country" = Some cs ->
  (forall pcol, filtered !! col_name prefix latest_year "%" = Some pcol ->
     Forall (fun c => moderate c = true) pcol) ->
  collect_latest filtered prefix selected [] w = (Ok latest_data, w') ->
  Forall (fun e =>
    exists i pcol ncol tcol p n t,
      first_row cs (Country e) = Some i /\
      filtered !! col_name prefix latest_year "%" = Some pcol /\ pcol !! i = Some p /\
      filtered !! col_name prefix latest_year "Num" = Some ncol /\ ncol !! i = Some n /\
      filtered !! col_name prefix latest_year "Obs" = Some tcol /\ tcol !! i = Some t /\
      e = {| Country := Country e; Percentage := times100 p; Number := n; Total := t |})
    latest_data.
Proof. intros Hwf Hcs _. by apply latest_values. Qed.

(** ** The comparison view: what is shown *)

Lemma comparison_tab_run (filtered : frame) (prefix : string) (selected cs : list cell) (w : world) :
  filtered !! "Country" = Some cs ->
  1 < length selected ->
  exists latest_data,
    Country <$> latest_data = filter (fun c => complete filtered prefix c = true) selected /\
    (collect_latest filtered prefix selected [] w).1 = Ok latest_data /\
    let warnings := (fun c => st_warning_incomplete c latest_year) <$>
                      filter (fun c => complete filtered prefix c = false) selected in
    comparison_tab filtered prefix selected w =
      match latest_data with
      | [] => (Ok tt, with_page w (page w ++ warnings ++ [st_warning_insufficient]))
      | _ :: _ =>
          match bar_figure latest_data with
          | Ok ax => (Ok tt, with_page w (page w ++ warnings ++ [st_pyplot_bars ax]))
          | Raise e => (Raise e, with_page w (page w ++ warnings))
          end
      end.
Proof.
  intros Hcs Hlen. unfold comparison_tab. rewrite decide_True by done.
  destruct (collect_latest_run filtered prefix cs Hcs selected [] w) as (l & Hrun & Hl & _).
  exists l. split; [done|]. split; [by rewrite Hrun|].
  cbn zeta. rewrite script_bind_run, Hrun. cbn [app].
  destruct l as [|e l]; [unfold emit, with_page; cbn; by rewrite <- app_assoc|].
  rewrite script_bind_run. unfold lift.
  destruct (bar_figure (e :: l)) as [ax|err]; [|done].
  unfold emit, with_page; cbn. by rewrite <- app_assoc.
Qed.

(** X5: with fewer than two selected countries the comparison tab shows the
    hint to select two and nothing else; with two or more selected
    countries of which none is complete it shows one warning for each
    country, in the order of the selection, and then the notice that the
    data are insufficient. Neither case draws a chart or raises. *)
Theorem comparison_tab_no_chart (filtered : frame) (prefix : string)
    (selected cs : list cell) (w : world) :
  filtered !! "Country" = Some cs ->
  (length selected < 2 ->
     comparison_tab filtered prefix selected w =
       (Ok tt, with_page w (page w ++ [st_info_select_two]))) /\
  (1 < length selected ->
   Forall (fun c => complete filtered prefix c = false) selected ->
     comparison_tab filtered prefix selected w =
       (Ok tt, with_page w (page w ++
          ((fun c => st_warning_incomplete c latest_year) <$> selected)
          ++ [st_warning_insufficient]))).
Proof.
  intros Hcs. split.
  - intros Hlen. unfold comparison_tab. rewrite decide_False by lia. done.
  - intros Hlen Hnone.
    destruct (comparison_tab_run filtered prefix selected cs w Hcs Hlen) as (l & Hl & _ & Hrun).
    assert (filter (fun c => complete filtered prefix c = true) selected = []) as Hnil.
    { apply SortFacts.filter_none. eapply Forall_impl; [exact Hnone|]. cbn. congruence. }
    assert (filter (fun c => complete filtered prefix c = false) selected = selected) as Hall.
    { clear -Hnone. induction Hnone as [|c l Hc _ IH]; [done|].
      by rewrite filter_cons_True, IH. }
    rewrite Hnil in Hl. apply fmap_nil_inv in Hl as ->.
    cbn zeta in Hrun. by rewrite Hall in Hrun.
Qed.

(** ** The trend view: points and value labels *)

Lemma mapM_Forall2 {A B} (f : A -> result B) (l : list A) (l' : list B) :
  mapM f l = Ok l' <-> Forall2 (fun x y => f x = Ok y) l l'.
Proof.
  revert l'. induction l as [|x l IH]; intros l'; cbn.
  - split; [intros [= <-]; constructor|by inversion 1].
  - split.
    + intros H. apply bind_Ok in H as (y & Hy & H). apply bind_Ok in H as (k & Hk & H).
      injection H as <-. constructor; [done|]. by apply IH.
    + inversion 1 as [|? y ? k Hy Hk]; subst. rewrite Hy. cbn.
      apply IH in Hk. rewrite Hk. done.
Qed.

Lemma plot_countries_series (filtered : frame) prefix colors :
  forall selected i acc drawn,
  plot_countries filtered prefix colors i selected acc = Ok drawn ->
  exists new,
    drawn.1 = acc.1 ++ new /\
    Forall2 (fun country line =>
               line_label line = country /\ line_x line = years /\
               trend_series filtered prefix country = Ok (line_y line)) selected new /\
    drawn.2 = acc.2 ++ mjoin ((fun line => value_labels years (line_y line)) <$> new).
Proof.
  induction selected as [|country rest IH]; intros i acc drawn H; cbn [plot_countries] in H.
  - injection H as <-. exists []. cbn. rewrite !app_nil_r. split_and!; [done|constructor|done].
  - apply bind_Ok in H as (cd & Hcd & H).
    apply bind_Ok in H as (ylist & Hyl & H).
    apply bind_Ok in H as (color & Hcolor & H).
    apply bind_Ok in H as (ys & Hys & H).
    apply IH in H as (new & Hd & Hl & Hn). cbn [fst snd] in Hd, Hn.
    eexists (_ :: new). rewrite Hd, Hn, <- !app_assoc. split; [done|]. split; [|done].
    constructor; [|done]. cbn. split_and!; [done..|].
    unfold trend_series. rewrite Hcd. cbn [mbind result_bind]. rewrite Hyl. done.
Qed.

Lemma elem_of_value_labels (xs : list Z) (ys : list float) x y :
  (x, y) ∈ value_labels xs ys <->
  is_nan y = false /\ exists k, xs !! k = Some x /\ ys !! k = Some y.
Proof.
  unfold value_labels. rewrite list_elem_of_filter, list_elem_of_lookup. cbn.
  split; intros [Hnan [k Hk]]; (split; [done|]); exists k; by apply lookup_zip_Some.
Qed.

(** X8: every line of the trend chart has one point for each year from 2019 to
    2023, and the value labels are exactly the points whose value is not
    NaN: a missing point gets no label. *)
Theorem trend_points_and_labels get_ylim (filtered : frame) (prefix : string)
    (selected : list cell) (ax : trend_axes) :
  trend_figure get_ylim filtered prefix selected = Ok ax ->
  Forall (fun line => line_x line = years /\ length (line_y line) = 5) (lines ax) /\
  xticks ax = years /\
  forall year y,
    (year, y) ∈ notes ax <->
    is_nan y = false /\
    exists line k, line ∈ lines ax /\ years !! k = Some year /\ line_y line !! k = Some y.
Proof.
  intros H. apply trend_figure_Ok in H as (drawn & Hd & Hl & Hn & _ & Hx & _).
  apply plot_countries_series in Hd as (new & Hnew & Hser & Hnotes).
  cbn [fst snd app] in Hnew, Hnotes. rewrite Hl, Hn, Hnew, Hnotes. clear Hl Hn Hnew Hnotes.
  assert (Forall (fun line => line_x line = years /\ length (line_y line) = 5) new) as Hshape.
  { clear -Hser. induction Hser as [|c line sel new (Hlab & Hlx & Hs) _ IH]; constructor; [|done].
    split; [done|]. unfold trend_series in Hs.
    apply bind_Ok in Hs as (cd & _ & Hs). apply bind_Ok in Hs as (yl & Hyl & Hs).
    apply mapM_Forall2, Forall2_length in Hyl, Hs. rewrite <- Hs, <- Hyl. done. }
  split; [done|]. split; [done|]. intros year y.
  rewrite list_elem_of_join. split.
  - intros (labels & Hin & Hlabels).
    apply list_elem_of_fmap in Hlabels as (line & -> & Hline).
    apply elem_of_value_labels in Hin as (Hnan & k & Hyr & Hy). eauto 8.
  - intros (Hnan & line & k & Hline & Hyr & Hy).
    exists (value_labels years (line_y line)). split.
    + apply elem_of_value_labels. eauto.
    + apply list_elem_of_fmap. eauto.
Qed.

Lemma trend_point_rows (filtered : frame) (cs : list cell) (country : cell) prefix year :
  wf_frame filtered -> filtered !! "Country" = Some cs ->
  trend_point (select_rows filtered (eq_mask cs country)) prefix year =
    match filtered !! col_name prefix year "%" with
    | None => Ok (CNum nan)
    | Some col =>
        match first_row cs country with
        | Some i => match col !! i with Some c => Ok (times100 c) | None => Raise IndexError end
        | None => Raise IndexError
        end
    end.
Proof.
  intros Hwf Hcs.
  pose proof (lookup_rows filtered cs country (col_name prefix year "%") Hwf Hcs) as Hrow.
  unfold column in Hrow. rewrite select_rows_lookup in Hrow.
  destruct (filtered !! col_name prefix year "%") as [col|] eqn:Hcol.
  - erewrite trend_point_present by (rewrite select_rows_lookup, Hcol; done).
    cbn in Hrow. rewrite Hrow.
    destruct (first_row cs country) as [i|]; [|done]. by destruct (col !! i).
  - apply trend_point_absent. by rewrite select_rows_lookup, Hcol.
Qed.

(** X9: the line of a selected country holds, for each year, the cell of the
    country's first row in the column "<prefix> <year> %" times 100, and NaN
    for a year without that column. (The percentage cells are taken to be
    of moderate size, so that the product is the same for a column of whole
    numbers.) *)
Theorem trend_line_values get_ylim (filtered : frame) (prefix : string)
    (selected cs : list cell) (ax : trend_axes) :
  trend_figure get_ylim filtered prefix selected = Ok ax ->
  wf_frame filtered -> filtered !! "Country" = Some cs ->
  (forall year col, year ∈ years -> filtered !! col_name prefix year "%" = Some col ->
     Forall (fun c => moderate c = true) col) ->
  forall n country, selected !! n = Some country ->
  exists line,
    lines ax !! n = Some line /\ line_label line = country /\
    forall k year, years !! k = Some year ->
    exists y,
      line_y line !! k = Some y /\
      match filtered !! col_name prefix year "%" with
      | None => y = nan
      | Some col =>
          exists i x, first_row cs country = Some i /\ col !! i = Some (CNum x) /\
                      y = (x * 100)%float
      end.
Proof.
  intros H Hwf Hcs _ n country Hn.
  apply trend_figure_Ok in H as (drawn & Hd & Hl & _).
  apply plot_countries_series in Hd as (new & Hnew & Hser & _).
  cbn [fst snd app] in Hnew. rewrite Hl, Hnew.
  destruct (Forall2_lookup_l _ _ _ _ _ Hser Hn) as (line & Hline & Hlab & _ & Hs).
  exists line. split; [done|]. split; [done|]. intros k year Hk.
  unfold trend_series, country_rows, column in Hs. rewrite Hcs in Hs. cbn [mbind result_bind] in Hs.
  apply bind_Ok in Hs as (ylist & Hyl & Hys).
  apply mapM_Forall2 in Hyl, Hys.
  destruct (Forall2_lookup_l _ _ _ _ _ Hyl Hk) as (c & Hc & Hpoint).
  destruct (Forall2_lookup_l _ _ _ _ _ Hys Hc) as (y & Hy & Hfloat).
  exists y. split; [done|]. destruct c as [y'|s]; [|done]. injection Hfloat as ->.
  rewrite (trend_point_rows filtered cs country prefix year Hwf Hcs) in Hpoint.
  destruct (filtered !! col_name prefix year "%") as [col|]; [|by injection Hpoint].
  destruct (first_row cs country) as [i|]; [|done].
  destruct (col !! i) as [[x|s]|] eqn:Hci; [|done..].
  injection Hpoint as <-. eauto.
Qed.

Lemma mapM_is_ok {A B} (f : A -> result B) (l : list A) :
  Forall (fun x => is_ok (f x) = true) l -> is_ok (mapM f l) = true.
Proof.
  induction 1 as [|x l Hx _ IH]; [done|]. cbn.
  destruct (f x); [|done]. cbn. destruct (mapM f l); done.
Qed.

Lemma trend_series_ok (filtered : frame) (prefix : string) (cs : list cell) (country : cell) :
  wf_frame filtered -> filtered !! "Country" = Some cs ->
  (exists c, c ∈ cs /\ cell_eqb c country = true) ->
  (forall year col, year ∈ years -> filtered !! col_name prefix year "%" = Some col ->
     Forall (fun c => is_num c = true) col) ->
  is_ok (trend_series filtered prefix country) = true.
Proof.
  intros Hwf Hcs Hrow Hnum. apply first_row_Some in Hrow as [i Hi].
  unfold trend_series, country_rows, column. rewrite Hcs. cbn [mbind result_bind].
  assert (Forall (fun year => exists y, trend_point (select_rows filtered (eq_mask cs country))
                                prefix year = Ok (CNum y)) years) as Hpoints.
  { apply Forall_forall. intros year Hyear.
    rewrite (trend_point_rows filtered cs country prefix year Hwf Hcs), Hi.
    destruct (filtered !! col_name prefix year "%") as [col|] eqn:Hcol; [|eauto].
    assert (is_Some (col !! i)) as [c Hc].
    { apply lookup_lt_is_Some. destruct Hwf as [n Hwf].
      rewrite (Hwf _ _ Hcol), <- (Hwf _ _ Hcs).
      unfold first_row in Hi. destruct (list_find _ cs) as [[j x]|] eqn:Hf; [|done].
      injection Hi as <-. apply list_find_Some in Hf as (Hj & _). by eapply lookup_lt_Some. }
    rewrite Hc. specialize (Hnum year col Hyear Hcol). rewrite Forall_forall in Hnum.
    assert (is_num c = true) as Hcn by (apply Hnum; by eapply list_elem_of_lookup_2).
    destruct c as [x|s]; [|done]. cbn. eauto. }
  destruct (mapM (trend_point (select_rows filtered (eq_mask cs country)) prefix) years)
    as [ylist|e] eqn:Hyl.
  2:{ assert (is_ok (mapM (trend_point (select_rows filtered (eq_mask cs country)) prefix) years)
              = true) as Hok.
      { apply mapM_is_ok. eapply Forall_impl; [exact Hpoints|]. cbn. by intros year [y ->]. }
      by rewrite Hyl in Hok. }
  cbn [mbind result_bind]. apply mapM_is_ok. apply mapM_Forall2 in Hyl.
  apply Forall_forall. intros c Hc. apply list_elem_of_lookup in Hc as [k Hk].
  destruct (Forall2_lookup_r _ _ _ _ _ Hyl Hk) as (year & Hyear & Hpoint).
  rewrite Forall_forall in Hpoints.
  destruct (Hpoints year) as [y Hy]; [by eapply list_elem_of_lookup_2|].
  rewrite Hy in Hpoint. by injection Hpoint as <-.
Qed.

Lemma plot_countries_ok (filtered : frame) prefix colors :
  forall selected i acc,
  Forall (fun c => is_ok (trend_series filtered prefix c) = true) selected ->
  i + length selected <= length colors ->
  is_ok (plot_countries filtered prefix colors i selected acc) = true.
Proof.
  induction selected as [|country rest IH]; intros i acc Hall Hlen; [done|].
  apply Forall_cons in Hall as [Hc Hall]. cbn [plot_countries length] in *.
  unfold trend_series in Hc.
  destruct (country_rows filtered country) as [cd|]; [|done]. cbn [mbind result_bind] in *.
  destruct (mapM (trend_point cd prefix) years) as [ylist|]; [|done]. cbn [mbind result_bind] in *.
  unfold Python.getitem. destruct (colors !! i) as [color|] eqn:Hcol.
  2:{ apply lookup_ge_None in Hcol. lia. }
  cbn [mbind result_bind]. destruct (mapM as_float ylist) as [ys|]; [|done]. cbn [mbind result_bind].
  apply IH; [done|lia].
Qed.

(** X10: on a table whose percentage cells are numbers, with a row for each
    selected country, drawing the lines raises nothing: the only way the
    trend chart can fail is a y limit that is NaN or infinite. *)
Theorem trend_figure_raises_only_on_limit get_ylim (filtered : frame) (prefix : string)
    (selected cs : list cell) :
  wf_frame filtered -> filtered !! "Country" = Some cs ->
  Forall (fun country => exists c, c ∈ cs /\ cell_eqb c country = true) selected ->
  (forall year col, year ∈ years -> filtered !! col_name prefix year "%" = Some col ->
     Forall (fun c => is_num c = true) col) ->
  exists drawn,
    plot_countries filtered prefix (Seaborn.color_palette (length selected)) 0 selected ([], [])
      = Ok drawn /\
    if is_finite ((get_ylim drawn.1).2 * 1.1)%float
    then is_ok (trend_figure get_ylim filtered prefix selected) = true
    else trend_figure get_ylim filtered prefix selected = Raise ValueError.
Proof.
  intros Hwf Hcs Hrows Hnum.
  assert (is_ok (plot_countries filtered prefix (Seaborn.color_palette (length selected)) 0
                   selected ([], [])) = true) as Hok.
  { apply plot_countries_ok; [|rewrite SeabornFacts.color_palette_length; lia].
    eapply Forall_impl; [exact Hrows|]. intros country Hrow. by eapply trend_series_ok. }
  unfold trend_figure.
  destruct (plot_countries _ _ _ _ _ _) as [drawn|]; [|done].
  exists drawn. split; [done|]. cbn [mbind result_bind].
  destruct (get_ylim drawn.1) as [bottom top]. cbn [snd].
  destruct (is_finite (top * 1.1)) eqn:Hfin.
  - by rewrite (PyplotFacts.set_lim_from_zero _ Hfin).
  - rewrite PyplotFacts.set_lim_Raise; [done|]. by rewrite Hfin.
Qed.

(** ** The comparison view: the bars and the x axis *)

Lemma py_max_fold (l : list float) : forall x,
  is_nan x = false -> Forall (fun y => is_nan y = false) l ->
  let r := foldl (fun m y => if (m <? y)%float then y else m) x l in
  r ∈ x :: l /\ (r <? x)%float = false /\ Forall (fun y => (r <? y)%float = false) l.
Proof.
  induction l as [|y l IH]; intros x Hx Hl; cbn [foldl].
  - split; [by left|]. split; [apply PyFloat.ltb_irrefl|constructor].
  - apply Forall_cons in Hl as [Hy Hl].
    set (m := if (x <? y)%float then y else x).
    assert (is_nan m = false) as Hm by (subst m; by destruct (x <? y)%float).
    assert ((m <? x)%float = false /\ (m <? y)%float = false) as [Hmx Hmy].
    { subst m. destruct (x <? y)%float eqn:Hxy.
      - split; [|apply PyFloat.ltb_irrefl].
        destruct (y <? x)%float eqn:Hyx; [|done].
        by rewrite <- (PyFloat.ltb_irrefl x), (PyFloat.ltb_trans x y x).
      - split; [apply PyFloat.ltb_irrefl|done]. }
    destruct (IH m Hm Hl) as (Hin & Hrm & Hall). cbn zeta in *.
    set (r := foldl _ m l) in *.
    assert (forall z, (m <? z)%float = false -> (r <? z)%float = false) as Hle.
    { intros z Hmz. destruct (r <? z)%float eqn:Hrz; [|done].
      destruct (PyFloat.ltb_cotrans r m z Hm Hrz); congruence. }
    split_and!.
    + apply elem_of_cons in Hin as [->|Hin]; [|by do 2 right].
      subst m. destruct (x <? y)%float; [right; left|left]; done.
    + by apply Hle.
    + constructor; [by apply Hle|done].
Qed.

(** [max] of numbers none of which is NaN is one of them and no other is
    greater. *)
Lemma py_max_greatest (l : list float) (top : float) :
  Forall (fun y => is_nan y = false) l -> Python.py_max l = Ok top ->
  top ∈ l /\ Forall (fun y => (top <? y)%float = false) l.
Proof.
  intros Hl. destruct l as [|x l]; [done|]. cbn. intros [= <-].
  apply Forall_cons in Hl as [Hx Hl].
  destruct (py_max_fold l x Hx Hl) as (Hin & Hrx & Hall). split; [done|]. by constructor.
Qed.

(** X2: the bar chart has one bar, one colour and one value label for each
    record; bar [i] has colour [i mod 10] of the palette, whatever its
    country; the x axis is the view from 0 to 1.2 times the result of
    [max], which is the greatest percentage when none is NaN: it runs from
    0 to that value, or from -0.05 to 0.05 when the value is nearer to zero
    than about 2.2e-287, as it is when every percentage is 0. *)
Theorem bar_chart_shape (latest_data : list entry) (ax : bar_axes) :
  bar_figure latest_data = Ok ax ->
  length (bar_labels ax) = length latest_data /\
  length (bar_widths ax) = length latest_data /\
  bar_texts ax = bar_widths ax /\
  bar_colors ax =
    (fun i => nth (i mod 10) Seaborn.tab10 "") <$> seq 0 (length latest_data) /\
  exists top,
    Python.py_max (bar_widths ax) = Ok top /\
    xlim ax = (if near_zero (top * 1.2)
               then (if (top * 1.2 <? 0)%float then (0.05, -0.05)%float else (-0.05, 0.05)%float)
               else (0%float, (top * 1.2)%float)) /\
    (Forall has_percentage latest_data ->
     top ∈ bar_widths ax /\ Forall (fun y => (top <? y)%float = false) (bar_widths ax)).
Proof.
  intros H. apply bar_figure_Ok in H as (sorted & top & Hs & Hlab & Hw & Hcol & Htxt & Hmax & Hlim).
  pose proof (PythonFacts.sorted_by_perm _ _ _ _ Hs) as Hperm.
  assert (length sorted = length latest_data) as Hlen by (by rewrite Hperm).
  split_and!.
  - by rewrite Hlab, length_fmap.
  - apply (f_equal length) in Hw. rewrite !length_fmap in Hw. lia.
  - done.
  - by rewrite Hcol, Hlen, SeabornFacts.color_palette_cycle.
  - exists top. split; [done|]. split.
    { destruct (PyplotFacts.set_lim_Ok_finite _ _ _ Hlim) as [_ Hfin].
      rewrite (PyplotFacts.set_lim_from_zero _ Hfin) in Hlim. by injection Hlim as <-. }
    intros HP. apply py_max_greatest; [|done].
    rewrite <- Hperm in HP. rewrite Forall_forall in HP. apply Forall_forall. intros y Hy.
    assert (CNum y ∈ Percentage <$> sorted) as Hin.
    { rewrite Hw. apply list_elem_of_fmap. eauto. }
    apply list_elem_of_fmap in Hin as (e & He & Hin).
    destruct (HP e Hin) as (x & Hx & Hnan). congruence.
Qed.

(** ** The comparison view on a table of fractions *)

Lemma bar_figure_in_range (latest_data : list entry) :
  latest_data <> [] ->
  Forall (fun e => exists v, Percentage e = CNum v /\
                     (0 <=? v)%float = true /\ (v <=? 100)%float = true) latest_data ->
  is_ok (bar_figure latest_data) = true.
Proof.
  intros Hne Hall. unfold bar_figure.
  assert (forallb is_num (map Percentage latest_data) = true) as Hnum.
  { apply forallb_forall. intros c Hc. apply in_map_iff in Hc as (e & <- & He).
    rewrite Forall_forall in Hall. destruct (Hall e) as (v & -> & _); [|done].
    by apply list_elem_of_In. }
  unfold sorted_by at 1. rewrite Hnum. cbn [orb mbind result_bind].
  set (sorted := Python.py_sorted _ true latest_data).
  assert (sorted ≡ₚ latest_data) as Hperm by apply PythonFacts.py_sorted_perm.
  rewrite <- Hperm in Hall.
  assert (exists texts, Percentage <$> sorted = CNum <$> texts /\
            Forall (fun v => (0 <=? v)%float = true /\ (v <=? 100)%float = true) texts)
    as (texts & Htexts & Hrange).
  { clear -Hall. induction Hall as [|e l (v & Hv & Hr) _ (texts & IH1 & IH2)].
    - exists []. split; [done|constructor].
    - exists (v :: texts). cbn. rewrite Hv, IH1. split; [done|]. by constructor. }
  assert (mapM format_2f (Percentage <$> sorted) = Ok texts) as ->.
  { rewrite Htexts. apply mapM_Forall2. clear. induction texts; constructor; done. }
  cbn [mbind result_bind].
  destruct texts as [|v texts].
  { apply fmap_nil_inv in Htexts. rewrite Htexts in Hperm.
    apply Permutation_nil_l in Hperm. congruence. }
  destruct (Python.py_max (v :: texts)) as [top|] eqn:Hmax; [|done]. cbn [mbind result_bind].
  assert (top ∈ v :: texts) as Htop.
  { eapply py_max_greatest; [|done]. eapply Forall_impl; [exact Hrange|].
    intros y [Hy _]. by apply PyFloatFinite.leb_not_nan in Hy as [_ ?]. }
  rewrite Forall_forall in Hrange. destruct (Hrange top Htop) as [H0 H100].
  by rewrite (PyplotFacts.set_lim_from_zero _ (PyFloatFinite.mul_1_2_finite top H0 H100)).
Qed.

(** X7: on a table whose 2023 percentages are fractions between 0.0 and 1.0,
    with a complete country among the selected ones, the comparison data
    are the records of the complete countries, none with a NaN percentage,
    and every step that builds the bar chart from them succeeds: the sort,
    the value labels, [max] and the x limits raise nothing, and every bar
    is between 0 and 100. *)
Theorem comparison_chart_on_fractions (filtered : frame) (prefix : string)
    (selected cs : list cell) (country : cell) (w : world) :
  wf_frame filtered -> filtered !! "Country" = Some cs ->
  (forall col, filtered !! col_name prefix latest_year "%" = Some col ->
     Forall (fun c => is_fraction c = true) col) ->
  country ∈ selected -> complete filtered prefix country = true ->
  exists latest_data ax,
    (collect_latest filtered prefix selected [] w).1 = Ok latest_data /\
    Country <$> latest_data = filter (fun c => complete filtered prefix c = true) selected /\
    Forall has_percentage latest_data /\
    bar_figure latest_data = Ok ax /\
    Forall (fun v => (0 <=? v)%float = true /\ (v <=? 100)%float = true) (bar_widths ax).
Proof.
  intros Hwf Hcs Hfrac Hin Hcomp.
  destruct (collect_latest_run filtered prefix cs Hcs selected [] w) as (l & Hc & Hl & _).
  cbn [app] in Hc.
  pose proof (latest_values filtered prefix selected cs w _ l Hwf Hcs Hc) as Hvals.
  assert (Forall (fun e => exists v, Percentage e = CNum v /\
                     (0 <=? v)%float = true /\ (v <=? 100)%float = true) l) as Hrange.
  { eapply Forall_impl; [exact Hvals|].
    intros e (i & pcol & ncol & tcol & p & n & t & _ & Hp & Hpi & _ & _ & _ & _ & ->).
    specialize (Hfrac pcol Hp). rewrite Forall_forall in Hfrac.
    assert (is_fraction p = true) as Hf by (apply Hfrac; by eapply list_elem_of_lookup_2).
    destruct p as [x|s]; [|done]. cbn in Hf. apply andb_prop in Hf as [H0 H1].
    exists (x * 100)%float. split; [done|]. by apply PyFloat.mul100_bounds. }
  assert (l <> []) as Hne.
  { intros ->. assert (country ∈ filter (fun c => complete filtered prefix c = true) selected)
      as Hf by (by apply list_elem_of_filter).
    rewrite <- Hl in Hf. by apply elem_of_nil in Hf. }
  pose proof (bar_figure_in_range l Hne Hrange) as Hok.
  destruct (bar_figure l) as [ax|] eqn:Hax; [|done].
  exists l, ax. split; [by rewrite Hc|]. split; [done|]. split.
  { eapply Forall_impl; [exact Hrange|]. intros e (v & Hv & H0 & _).
    exists v. split; [done|]. by apply PyFloatFinite.leb_not_nan in H0 as [_ ?]. }
  split; [done|].
  apply bar_figure_Ok in Hax as (sorted & top & Hs & _ & Hw & _).
  apply PythonFacts.sorted_by_perm in Hs. rewrite <- Hs in Hrange.
  rewrite Forall_forall in Hrange. apply Forall_forall. intros v Hv.
  assert (CNum v ∈ Percentage <$> sorted) as Hin'.
  { rewrite Hw. apply list_elem_of_fmap. eauto. }
  apply list_elem_of_fmap in Hin' as (e & He & Hin').
  destruct (Hrange e Hin') as (v' & Hv' & Hb). congruence.
Qed.

(** ** Loading the table *)

Lemma load_data_loaded (w : world) (df : frame) :
  loaded w = Some df ->
  load_data w = (Ok df, {| file := file w; cache := Some df; page := page w |}).
Proof.
  unfold loaded, load_data. destruct w as [f c p]; cbn.
  destruct c as [df'|]; [by intros [= ->]|]. destruct f; try done. by intros [= ->].
Qed.

(** X11: without a cached table and without a readable file the run shows one
    error message and stops, before any selection, chart or warning
    is shown, whatever the countries and the metric. *)
Theorem main_stops_without_data get_ylim (selected : list cell) (display : string) (w : world) :
  cache w = None ->
  (file w = Missing ->
   main get_ylim selected display w =
     (Raise StopException,
      with_page w (page w ++ [st_error "Data file not found. Please ensure 'Aggregate country with country.xlsx' is in the same directory as this app."]))) /\
  (forall why, file w = Unreadable why ->
   main get_ylim selected display w =
     (Raise StopException, with_page w (page w ++ [st_error ("Error loading data: " +:+ why)]))).
Proof.
  intros Hc. split; [intros Hf|intros why Hf]; unfold main; rewrite script_bind_run;
    unfold load_data; rewrite Hc, Hf; reflexivity.
Qed.

Lemma ignores_ret {A} (a : A) : ignores_file (mret a).
Proof. by intros f w. Qed.

Lemma ignores_lift {A} (r : result A) : ignores_file (lift r).
Proof. by intros f w. Qed.

Lemma ignores_emit e : ignores_file (emit e).
Proof. by intros f w. Qed.

Lemma ignores_bind {A B} (m : script A) (k : A -> script B) :
  ignores_file m -> (forall a, ignores_file (k a)) -> ignores_file (m ≫= k).
Proof.
  intros Hm Hk f w. rewrite !script_bind_run, Hm.
  destruct (m w) as [[a|e] w1]; cbn [fst snd]; [|done]. apply Hk.
Qed.

Lemma ignores_collect_latest filtered prefix selected :
  forall acc, ignores_file (collect_latest filtered prefix selected acc).
Proof.
  induction selected as [|country rest IH]; intros acc; cbn [collect_latest].
  - apply ignores_ret.
  - apply ignores_bind; [apply ignores_lift|]. intros cd.
    destruct (latest_entry cd prefix country) as [e|[]]; try apply ignores_lift; try apply IH;
      (apply ignores_bind; [apply ignores_emit|]; intros _; apply IH).
Qed.

Lemma ignores_comparison_tab filtered prefix selected :
  ignores_file (comparison_tab filtered prefix selected).
Proof.
  unfold comparison_tab. case_decide; [|apply ignores_emit].
  apply ignores_bind; [apply ignores_collect_latest|]. intros [|e l]; [apply ignores_emit|].
  apply ignores_bind; [apply ignores_lift|]. intros ax. apply ignores_emit.
Qed.

Lemma ignores_trend_tab get_ylim filtered prefix selected :
  ignores_file (trend_tab get_ylim filtered prefix selected).
Proof.
  unfold trend_tab. apply ignores_bind; [apply ignores_lift|]. intros ax. apply ignores_emit.
Qed.

Lemma main_after_load get_ylim (selected : list cell) (display : string) (df : frame) :
  exists rest : script unit,
    ignores_file rest /\
    forall w, loaded w = Some df ->
      main get_ylim selected display w =
        rest {| file := file w; cache := Some df; page := page w |}.
Proof.
  eexists. split; [|intros w Hw; unfold main; rewrite script_bind_run, (load_data_loaded w df Hw);
                    reflexivity].
  apply ignores_bind; [apply ignores_lift|]. intros _.
  apply ignores_bind; [destruct selected; [apply ignores_ret|apply ignores_emit]|]. intros _.
  apply ignores_bind; [apply ignores_lift|]. intros prefix.
  destruct selected as [|c sel].
  - apply ignores_bind; [apply ignores_emit|]. intros _. apply ignores_emit.
  - apply ignores_bind; [apply ignores_lift|]. intros filtered.
    apply ignores_bind; [apply ignores_emit|]. intros _.
    apply ignores_bind; [apply ignores_trend_tab|]. intros _.
    apply ignores_comparison_tab.
Qed.

(** X12: with a table in the cache a run gives the same outcome and the same
    page whatever the file holds by then, also when the file is gone. *)
Theorem main_uses_cache get_ylim (selected : list cell) (display : string)
    (w : world) (df : frame) (f : excel) :
  cache w = Some df ->
  main get_ylim selected display (set_file f w) =
    ((main get_ylim selected display w).1,
     set_file f (main get_ylim selected display w).2).
Proof.
  intros Hc. destruct (main_after_load get_ylim selected display df) as (rest & Hrest & Hmain).
  rewrite !Hmain by (unfold loaded; cbn; by rewrite Hc).
  apply (Hrest f {| file := file w; cache := Some df; page := page w |}).
Qed.

(** ** The page of a run *)

(** X13: with no country selected the run shows the request to select one and a
    preview of the first five rows of the table, and no chart. *)
Theorem main_no_selection get_ylim (display : string) (w : world) (df : frame) :
  loaded w = Some df ->
  is_ok (countries df) = true ->
  is_ok (selected_metrics display) = true ->
  main get_ylim [] display w =
    (Ok tt, {| file := file w; cache := Some df;
               page := page w ++ [st_warning_select_country; st_preview (df_head 5 df)] |}) /\
  forall name, df_head 5 df !! name = take 5 <$> df !! name.
Proof.
  intros Hw Hc Hm. split; [|intros name; apply lookup_fmap].
  unfold main. rewrite script_bind_run, (load_data_loaded w df Hw).
  rewrite script_bind_run. unfold lift at 1.
  destruct (countries df) as [cs|]; [|done].
  rewrite script_bind_run. cbn [mret script_ret].
  rewrite script_bind_run. unfold lift at 1.
  destruct (selected_metrics display) as [prefix|]; [|done].
  rewrite script_bind_run. unfold emit, with_page. cbn. by rewrite <- app_assoc.
Qed.

(** X14: with countries selected the page gets, in this order, the selected
    countries, the title, the trend chart and then what the comparison tab
    shows; when the trend chart raises, the run ends there and nothing of
    the comparison is shown. *)
Theorem main_page_order get_ylim (selected : list cell) (display prefix : string)
    (w : world) (df : frame) :
  loaded w = Some df ->
  is_ok (countries df) = true ->
  selected_metrics display = Ok prefix ->
  selected <> [] ->
  main get_ylim selected display w =
    match trend_figure get_ylim (filtered_by df selected) prefix selected with
    | Ok ax =>
        comparison_tab (filtered_by df selected) prefix selected
          {| file := file w; cache := Some df;
             page := page w ++ [st_pills selected; st_title display; st_pyplot_trend ax] |}
    | Raise e =>
        (Raise e, {| file := file w; cache := Some df;
                     page := page w ++ [st_pills selected; st_title display] |})
    end.
Proof.
  intros Hw Hc Hm Hne. destruct selected as [|c sel]; [done|].
  unfold main. rewrite script_bind_run, (load_data_loaded w df Hw).
  rewrite script_bind_run. unfold lift at 1.
  assert (exists cs, df !! "Country" = Some cs) as [cs Hcs].
  { unfold countries, column in Hc. destruct (df !! "Country"); [eauto|done]. }
  destruct (countries df) as [opts|]; [|done].
  rewrite script_bind_run. unfold emit at 1, with_page. cbn [file cache page].
  rewrite script_bind_run. unfold lift at 1. rewrite Hm.
  rewrite script_bind_run. unfold lift at 1.
  unfold filtered_by, filter_selected, column. rewrite Hcs. cbn [mbind result_bind].
  rewrite script_bind_run. unfold emit at 1, with_page. cbn [file cache page].
  rewrite script_bind_run. unfold trend_tab. rewrite script_bind_run. unfold lift at 1.
  destruct (trend_figure _ _ _ _) as [ax|e].
  - unfold emit, with_page. cbn [file cache page]. by rewrite <- !app_assoc.
  - by rewrite <- !app_assoc.
Qed.

(** ** Filtering the rows of the selected countries *)

Lemma mask_filter_isin (values cs : list cell) :
  mask_filter (isin cs values) cs = filter (fun c => existsb (cell_same c) values = true) cs.
Proof.
  induction cs as [|c cs IH]; [done|]. unfold isin in *. cbn [map mask_filter]. rewrite filter_cons.
  destruct (existsb (cell_same c) values) eqn:Hc.
  - rewrite decide_True by done. by f_equal.
  - rewrite decide_False by done. done.
Qed.

Lemma mask_filter_length {A B} (mask : list bool) (l : list A) (k : list B) :
  length l = length k -> length (mask_filter mask l) = length (mask_filter mask k).
Proof.
  revert l k. induction mask as [|b mask IH]; intros [|a l] [|c k] Hlen; cbn in *; try done.
  destruct b; cbn; auto.
Qed.

Lemma mask_filter_zip {A} (values cs : list cell) (col : list A) :
  mask_filter (isin cs values) col
  = (filter (fun p => existsb (cell_same p.1) values = true) (zip cs col)).*2.
Proof.
  revert col. induction cs as [|c cs IH]; intros [|a col]; try done.
  unfold isin in *. cbn [map mask_filter zip zip_with]. rewrite filter_cons. cbn [fst].
  destruct (existsb (cell_same c) values) eqn:Hc.
  - rewrite decide_True by done. cbn. by f_equal.
  - rewrite decide_False by done. apply IH.
Qed.

(** X15: the filter needs the [Country] column; it keeps all columns, and of
    each column exactly the cells of the rows whose country is among the
    selected ones, in the order of the table. *)
Theorem filter_selected_rows (df : frame) (selected : list cell) :
  (df !! "Country" = None -> filter_selected df selected = Raise KeyError) /\
  (forall cs, df !! "Country" = Some cs ->
   exists filtered,
     filter_selected df selected = Ok filtered /\
     (forall name, has_column filtered name = has_column df name) /\
     (forall name col, df !! name = Some col ->
        filtered !! name =
          Some (filter (fun p => existsb (cell_same p.1) selected = true) (zip cs col)).*2) /\
     filtered !! "Country" = Some (filter (fun c => existsb (cell_same c) selected = true) cs) /\
     (wf_frame df -> wf_frame filtered)).
Proof.
  unfold filter_selected, column. split; [by intros ->|]. intros cs Hcs. rewrite Hcs.
  eexists. split; [done|]. split; [apply has_column_select_rows|]. split; [|split].
  - intros name col Hcol. by rewrite select_rows_lookup, Hcol, <- mask_filter_zip.
  - by rewrite select_rows_lookup, Hcs, <- mask_filter_isin.
  - intros [n Hwf]. exists (length (mask_filter (isin cs selected) cs)).
    intros name col. rewrite select_rows_lookup.
    destruct (df !! name) as [col'|] eqn:Hcol; [|done]. intros [= <-].
    apply mask_filter_length. by rewrite (Hwf _ _ Hcol), (Hwf _ _ Hcs).
Qed.

(** ** The metric catalogue: reverse look-up *)

Lemma index_not_in (l : list string) (x : string) : x ∉ l -> Python.index l x = Raise ValueError.
Proof.
  induction l as [|y l IH]; [done|]. intros Hx. cbn.
  apply not_elem_of_cons in Hx as [Hne Hx].
  destruct (String.eqb_spec y x) as [->|_]; [done|]. by rewrite IH.
Qed.

(** X16: the reverse look-up gives back the metric name of each display label,
    and a text that is no display label raises [ValueError]. *)
Theorem selected_user_metrics_inverse :
  (forall name label, (name, label) ∈ metrics_mapping -> selected_user_metrics label = Ok name) /\
  (forall display, display ∉ metrics_mapping.*2 ->
     selected_user_metrics display = Raise ValueError /\
     selected_metrics display = Raise ValueError).
Proof.
  split.
  - intros name label Hin. unfold metrics_mapping in Hin.
    repeat (apply elem_of_cons in Hin as [[= -> ->]|Hin]; [vm_compute; reflexivity|]).
    by apply elem_of_nil in Hin.
  - intros display Hd. unfold selected_metrics, selected_user_metrics.
    by rewrite (index_not_in _ _ Hd).
Qed.

(** ** The options of the country control *)

Lemma string_ltb_lt (a b : string) : String.ltb a b = true <-> String_as_OT.lt a b.
Proof.
  rewrite <- String_as_OT.cmp_lt. unfold String.ltb, String_as_OT.cmp.
  destruct (String.compare a b); split; congruence.
Qed.

Lemma string_ltb_irrefl (a : string) : String.ltb a a = false.
Proof.
  destruct (String.ltb a a) eqn:H; [|done]. apply string_ltb_lt in H.
  by apply String_as_OT.lt_not_eq in H.
Qed.

Lemma string_ltb_trans (a b c : string) :
  String.ltb a b = true -> String.ltb b c = true -> String.ltb a c = true.
Proof. rewrite !string_ltb_lt. apply String_as_OT.lt_trans. Qed.

Lemma string_ltb_total (a b : string) : String.ltb a b = true \/ a = b \/ String.ltb b a = true.
Proof.
  destruct (String.compare a b) eqn:Hc.
  - right; left. by apply String_as_OT.cmp_eq.
  - left. unfold String.ltb. by rewrite Hc.
  - right; right. unfold String.ltb. rewrite String.compare_antisym, Hc. done.
Qed.

Lemma text_lt_irrefl (c : cell) : is_str c = true -> cell_ltb c c = false.
Proof. destruct c; [done|]. intros _. apply string_ltb_irrefl. Qed.

Lemma text_lt_trans (a b c : cell) :
  is_str a = true -> is_str b = true -> is_str c = true ->
  cell_ltb a b = true -> cell_ltb b c = true -> cell_ltb a c = true.
Proof. destruct a, b, c; try done. intros _ _ _. apply string_ltb_trans. Qed.

Lemma text_lt_cotrans (a b c : cell) :
  is_str a = true -> is_str b = true -> is_str c = true ->
  cell_ltb a c = true -> cell_ltb a b = true \/ cell_ltb b c = true.
Proof.
  destruct a as [|a], b as [|b], c as [|c]; try done. intros _ _ _ Hac. cbn in *.
  destruct (string_ltb_total a b) as [?|[->|Hba]]; [by left|by right|].
  right. by apply (string_ltb_trans b a c).
Qed.

Lemma cell_same_text (s : string) (b : cell) : cell_same (CStr s) b = true <-> b = CStr s.
Proof.
  destruct b as [x|t]; cbn; [split; done|].
  destruct (String.eqb_spec s t); split; congruence.
Qed.

Lemma existsb_same_text (c : cell) (seen : list cell) :
  is_str c = true -> existsb (cell_same c) seen = true <-> c ∈ seen.
Proof.
  destruct c as [|s]; [done|]. intros _. rewrite existsb_exists. split.
  - intros (b & Hin & Hb). apply cell_same_text in Hb as ->. by apply list_elem_of_In.
  - intros Hin. exists (CStr s). split; [by apply list_elem_of_In|]. by apply cell_same_text.
Qed.

Lemma unique_from_text (col : list cell) : forall seen,
  Forall (fun c => is_str c = true) col ->
  (forall c, c ∈ unique_from seen col <-> c ∈ col /\ c ∉ seen) /\
  NoDup (unique_from seen col).
Proof.
  induction col as [|x col IH]; intros seen Hcol; cbn [unique_from].
  - split; [|constructor]. intros c. rewrite elem_of_nil. naive_solver.
  - apply Forall_cons in Hcol as [Hx Hcol].
    destruct (existsb (cell_same x) seen) eqn:Hex.
    + apply (existsb_same_text x seen Hx) in Hex.
      destruct (IH seen Hcol) as [Hel Hnd]. split; [|done].
      intros c. rewrite Hel, elem_of_cons. naive_solver.
    + assert (x ∉ seen) as Hnot.
      { intros Hin. apply (existsb_same_text x seen Hx) in Hin. congruence. }
      destruct (IH (x :: seen) Hcol) as [Hel Hnd]. split.
      * intros c. rewrite !elem_of_cons, Hel, not_elem_of_cons. split.
        { intros [->|(Hc & Hne & Hns)]; [by split; [left|]|by split; [right|]]. }
        intros [[->|Hc] Hns]; [by left|].
        rewrite Forall_forall in Hcol. pose proof (Hcol c Hc) as Hct.
        destruct c as [|s]; [done|]. destruct x as [|t]; [done|].
        destruct (decide (s = t)) as [->|Hne]; [by left|].
        right. split_and!; [done| |done]. congruence.
      * constructor; [|done]. rewrite Hel, not_elem_of_cons. naive_solver.
Qed.

(** X17: for a [Country] column of texts the options are the distinct country
    names, each once, in ascending order of their code points. *)
Theorem countries_options (df : frame) (col : list cell) :
  df !! "Country" = Some col ->
  Forall (fun c => is_str c = true) col ->
  exists options,
    countries df = Ok options /\
    NoDup options /\
    (forall c, c ∈ options <-> c ∈ col) /\
    forall i j a b, i < j -> options !! i = Some (CStr a) -> options !! j = Some (CStr b) ->
      String.ltb a b = true.
Proof.
  intros Hcol Htext. unfold countries, column. rewrite Hcol. cbn [mbind result_bind].
  destruct (unique_from_text col [] Htext) as [Hel Hnd]. fold (unique col) in Hel, Hnd.
  assert (Forall (fun c => is_str c = true) (unique col)) as Hu.
  { apply Forall_forall. intros c Hc. apply Hel in Hc as [Hc _].
    rewrite Forall_forall in Htext. by apply Htext. }
  unfold sorted_by.
  assert (forallb is_str (map id (unique col)) = true) as ->.
  { rewrite map_id. apply forallb_forall. intros c Hc. rewrite Forall_forall in Hu.
    apply Hu. by apply list_elem_of_In. }
  rewrite orb_true_r. eexists. split; [done|].
  set (options := Python.py_sorted _ false (unique col)).
  assert (options ≡ₚ unique col) as Hperm by apply PythonFacts.py_sorted_perm.
  destruct (SortFacts.listsort_sorted cell_ltb (fun c => is_str c = true)
              text_lt_irrefl text_lt_trans text_lt_cotrans (unique col) Hu) as [Hsorted _].
  split; [by rewrite Hperm|]. split.
  { intros c. rewrite Hperm, Hel. rewrite elem_of_nil. naive_solver. }
  intros i j a b Hij Hi Hj.
  destruct (SortFacts.sorted_lookup _ _ i j _ _ Hsorted Hij Hi Hj) as (_ & _ & Hle). cbn in Hle.
  destruct (string_ltb_total a b) as [?|[->|Hba]]; [done| |congruence].
  assert (NoDup options) as Hnd' by (by rewrite Hperm).
  pose proof (NoDup_lookup _ _ _ _ Hnd' Hi Hj). lia.
Qed.

Lemma cell_same_kind (a b : cell) : cell_same a b = true -> is_num a = is_num b.
Proof. by destruct a, b. Qed.

Lemma unique_from_covers (col : list cell) : forall seen c,
  c ∈ col ->
  existsb (cell_same c) seen = true \/
  exists c', c' ∈ unique_from seen col /\ cell_same c c' = true.
Proof.
  induction col as [|x col IH]; intros seen c Hc; [by apply elem_of_nil in Hc|].
  cbn [unique_from]. apply elem_of_cons in Hc as [->|Hc].
  - destruct (existsb (cell_same x) seen) eqn:Hex; [by left|].
    right. exists x. split; [by left|apply cell_same_refl].
  - destruct (existsb (cell_same x) seen) eqn:Hex; [by apply IH|].
    destruct (IH (x :: seen) c Hc) as [Hs|(c' & Hin & Hsame)].
    + cbn in Hs. apply orb_prop in Hs as [Hs|Hs]; [|by left].
      right. exists x. split; [by left|done].
    + right. exists c'. split; [by right|done].
Qed.

(** X18: the run needs a [Country] column whose cells are all texts or all
    numbers: without the column it ends with [KeyError], and with a column
    that holds both a text and a number (an empty cell is the number NaN)
    it ends with [TypeError]; in both cases before anything is shown. *)
Theorem main_country_column_errors get_ylim (selected : list cell) (display : string)
    (w : world) (df : frame) :
  loaded w = Some df ->
  (df !! "Country" = None ->
   main get_ylim selected display w =
     (Raise KeyError, {| file := file w; cache := Some df; page := page w |})) /\
  (forall col s x, df !! "Country" = Some col -> CStr s ∈ col -> CNum x ∈ col ->
   main get_ylim selected display w =
     (Raise TypeError, {| file := file w; cache := Some df; page := page w |})).
Proof.
  intros Hw. split.
  - intros Hnone. unfold main. rewrite script_bind_run, (load_data_loaded w df Hw).
    rewrite script_bind_run. unfold lift at 1, countries, column. by rewrite Hnone.
  - intros col s x Hcol Hs Hx. unfold main. rewrite script_bind_run, (load_data_loaded w df Hw).
    rewrite script_bind_run. unfold lift at 1, countries, column. rewrite Hcol.
    cbn [mbind result_bind]. unfold sorted_by.
    destruct (unique_from_covers col [] _ Hs) as [?|(cs' & Hins & Hsames)]; [done|].
    destruct (unique_from_covers col [] _ Hx) as [?|(cx' & Hinx & Hsamex)]; [done|].
    apply cell_same_kind in Hsames, Hsamex. cbn in Hsames, Hsamex.
    assert (forallb is_num (map id (unique col)) = false) as ->.
    { apply not_true_is_false. intros Hall. rewrite map_id, forallb_forall in Hall.
      specialize (Hall cs'). rewrite <- Hsames in Hall. discriminate Hall.
      by apply list_elem_of_In. }
    assert (forallb is_str (map id (unique col)) = false) as ->.
    { apply not_true_is_false. intros Hall. rewrite map_id, forallb_forall in Hall.
      specialize (Hall cx'). destruct cx'; [|done]. discriminate Hall.
      by apply list_elem_of_In. }
    done.
Qed.

(** ** The further theorems at work on the sample tables *)

Lemma full_filtered_wf : wf_frame (filtered_by full_df sample_selection).
Proof.
  exists 3.
  apply (bool_decide_unpack
           (map_Forall (fun _ col => length col = 3) (filtered_by full_df sample_selection))).
  vm_compute. exact I.
Defined.

Lemma sample_filtered_wf : wf_frame (filtered_by sample_df sample_selection).
Proof.
  exists 3.
  apply (bool_decide_unpack
           (map_Forall (fun _ col => length col = 3) (filtered_by sample_df sample_selection))).
  vm_compute. exact I.
Defined.

Lemma full_latest_percentages : Forall has_percentage full_latest.
Proof.
  unfold full_latest. repeat constructor; eexists; (split; [reflexivity|vm_compute; reflexivity]).
Defined.

Lemma bar_chart_descending_witness :
  exists ax sorted,
    bar_figure full_latest = Ok ax /\
    sorted ≡ₚ full_latest /\
    bar_labels ax = Country <$> sorted /\
    Percentage <$> sorted = CNum <$> bar_widths ax /\
    (forall i j wi wj, i < j -> bar_widths ax !! i = Some wi -> bar_widths ax !! j = Some wj ->
       (wi <? wj)%float = false) /\
    (forall a b, a ∈ full_latest -> b ∈ full_latest -> percentage_lt b a = true ->
       exists i j, i < j /\ sorted !! i = Some a /\ sorted !! j = Some b) /\
    (forall e, has_percentage e ->
       filter (fun e' => Python.tie percentage_lt e e' = true) sorted
       = filter (fun e' => Python.tie percentage_lt e e' = true) full_latest).
Proof.
  destruct (bar_figure full_latest) as [ax|e] eqn:E; [|vm_compute in E; discriminate].
  destruct (bar_chart_descending full_latest ax E full_latest_percentages) as (sorted & H).
  exists ax, sorted. split; [reflexivity|exact H].
Defined.

Lemma bar_chart_shape_witness :
  exists ax,
    bar_figure full_latest = Ok ax /\
    length (bar_labels ax) = length full_latest /\
    length (bar_widths ax) = length full_latest /\
    bar_texts ax = bar_widths ax /\
    bar_colors ax =
      (fun i => nth (i mod 10) Seaborn.tab10 "") <$> seq 0 (length full_latest) /\
    exists top,
      Python.py_max (bar_widths ax) = Ok top /\
      xlim ax = (if near_zero (top * 1.2)
                 then (if (top * 1.2 <? 0)%float then (0.05, -0.05)%float
                       else (-0.05, 0.05)%float)
                 else (0%float, (top * 1.2)%float)) /\
      (Forall has_percentage full_latest ->
       top ∈ bar_widths ax /\ Forall (fun y => (top <? y)%float = false) (bar_widths ax)).
Proof.
  destruct (bar_figure full_latest) as [ax|e] eqn:E; [|vm_compute in E; discriminate].
  exists ax. split; [reflexivity|]. exact (bar_chart_shape full_latest ax E).
Defined.

Lemma comparison_data_complete_witness :
  let selected := [CStr "Germany"; CStr "Italy"; CStr "Spain"] in
  exists latest_data warned,
    collect_latest (filtered_by sample_df selected) "Scaler" selected [] sample_world =
      (Ok latest_data, with_page sample_world (page sample_world ++ warned)) /\
    (forall country, country ∈ selected ->
      let has_data :=
        (has_column (filtered_by sample_df selected) (col_name "Scaler" latest_year "%") = true /\
         has_column (filtered_by sample_df selected) (col_name "Scaler" latest_year "Num") = true /\
         has_column (filtered_by sample_df selected) (col_name "Scaler" latest_year "Obs") = true) /\
        exists c, c ∈ [CStr "Germany"; CStr "Spain"] /\ cell_eqb c country = true in
      (country ∈ Country <$> latest_data <-> has_data) /\
      (st_warning_incomplete country latest_year ∈ warned <-> ~ has_data)) /\
    Forall (fun shown => exists country,
              country ∈ selected /\ shown = st_warning_incomplete country latest_year) warned.
Proof.
  apply (comparison_data_complete
           (filtered_by sample_df [CStr "Germany"; CStr "Italy"; CStr "Spain"]) "Scaler"
           [CStr "Germany"; CStr "Italy"; CStr "Spain"] [CStr "Germany"; CStr "Spain"]
           sample_world).
  - exists 2.
    apply (bool_decide_unpack
             (map_Forall (fun _ col => length col = 2)
                (filtered_by sample_df [CStr "Germany"; CStr "Italy"; CStr "Spain"]))).
    vm_compute. exact I.
  - vm_compute. reflexivity.
Defined.

Lemma latest_data_values_witness :
  exists latest_data w',
    collect_latest (filtered_by sample_df sample_selection) "Scaler" sample_selection []
      sample_world = (Ok latest_data, w') /\
    Forall (fun e =>
      exists i pcol ncol tcol p n t,
        first_row sample_selection (Country e) = Some i /\
        filtered_by sample_df sample_selection !! col_name "Scaler" latest_year "%" = Some pcol /\
        pcol !! i = Some p /\
        filtered_by sample_df sample_selection !! col_name "Scaler" latest_year "Num" = Some ncol /\
        ncol !! i = Some n /\
        filtered_by sample_df sample_selection !! col_name "Scaler" latest_year "Obs" = Some tcol /\
        tcol !! i = Some t /\
        e = {| Country := Country e; Percentage := times100 p; Number := n; Total := t |})
      latest_data.
Proof.
  destruct (collect_latest (filtered_by sample_df sample_selection) "Scaler" sample_selection []
              sample_world) as [[l|e] w'] eqn:E; [|vm_compute in E; discriminate].
  exists l, w'. split; [reflexivity|].
  apply (latest_data_values (filtered_by sample_df sample_selection) "Scaler" sample_selection
           sample_selection sample_world w' l).
  - exact sample_filtered_wf.
  - vm_compute. reflexivity.
  - intros pcol H. vm_compute in H. injection H as <-.
    repeat (apply Forall_cons; split; [vm_compute; reflexivity|]). constructor.
  - exact E.
Defined.

Lemma comparison_tab_no_chart_witness :
  comparison_tab (filtered_by sample_df [CStr "Germany"]) "Scaler" [CStr "Germany"] sample_world =
    (Ok tt, with_page sample_world (page sample_world ++ [st_info_select_two])) /\
  comparison_tab (filtered_by sample_df [CStr "Italy"; CStr "Norway"]) "Scaler"
      [CStr "Italy"; CStr "Norway"] sample_world =
    (Ok tt, with_page sample_world (page sample_world ++
       ((fun c => st_warning_incomplete c latest_year) <$> [CStr "Italy"; CStr "Norway"])
       ++ [st_warning_insufficient])).
Proof.
  assert (filtered_by sample_df [CStr "Germany"] !! "Country" = Some [CStr "Germany"]) as H1
    by (vm_compute; reflexivity).
  assert (filtered_by sample_df [CStr "Italy"; CStr "Norway"] !! "Country" = Some []) as H2
    by (vm_compute; reflexivity).
  split.
  - destruct (comparison_tab_no_chart (filtered_by sample_df [CStr "Germany"]) "Scaler"
                [CStr "Germany"] [CStr "Germany"] sample_world H1) as [H _].
    apply H. cbn. lia.
  - destruct (comparison_tab_no_chart (filtered_by sample_df [CStr "Italy"; CStr "Norway"])
                "Scaler" [CStr "Italy"; CStr "Norway"] [] sample_world H2) as [_ H].
    apply H; [cbn; lia|].
    repeat (apply Forall_cons; split; [vm_compute; reflexivity|]). constructor.
Defined.


Lemma comparison_chart_on_fractions_witness :
  exists latest_data ax,
    (collect_latest (filtered_by full_df sample_selection) "Scaler" sample_selection []
       sample_world).1 = Ok latest_data /\
    Country <$> latest_data =
      filter (fun c => complete (filtered_by full_df sample_selection) "Scaler" c = true)
        sample_selection /\
    Forall has_percentage latest_data /\
    bar_figure latest_data = Ok ax /\
    Forall (fun v => (0 <=? v)%float = true /\ (v <=? 100)%float = true) (bar_widths ax).
Proof.
  apply (comparison_chart_on_fractions (filtered_by full_df sample_selection) "Scaler"
           sample_selection sample_selection (CStr "Germany") sample_world).
  - exact full_filtered_wf.
  - vm_compute. reflexivity.
  - intros col H. vm_compute in H. injection H as <-. repeat constructor.
  - unfold sample_selection. set_solver.
  - vm_compute. reflexivity.
Defined.

Lemma trend_points_and_labels_witness :
  exists ax,
    trend_figure get_ylim_default (filtered_by sample_df sample_selection) "Scaler"
      sample_selection = Ok ax /\
    Forall (fun line => line_x line = years /\ length (line_y line) = 5) (lines ax) /\
    xticks ax = years /\
    forall year y,
      (year, y) ∈ notes ax <->
      is_nan y = false /\
      exists line k, line ∈ lines ax /\ years !! k = Some year /\ line_y line !! k = Some y.
Proof.
  destruct (trend_figure get_ylim_default (filtered_by sample_df sample_selection) "Scaler"
              sample_selection) as [ax|e] eqn:E; [|vm_compute in E; discriminate].
  exists ax. split; [reflexivity|].
  exact (trend_points_and_labels get_ylim_default (filtered_by sample_df sample_selection)
           "Scaler" sample_selection ax E).
Defined.

Lemma trend_line_values_witness :
  exists ax,
    trend_figure get_ylim_default (filtered_by sample_df sample_selection) "Scaler"
      sample_selection = Ok ax /\
    forall n country, sample_selection !! n = Some country ->
    exists line,
      lines ax !! n = Some line /\ line_label line = country /\
      forall k year, years !! k = Some year ->
      exists y,
        line_y line !! k = Some y /\
        match filtered_by sample_df sample_selection !! col_name "Scaler" year "%" with
        | None => y = nan
        | Some col =>
            exists i x, first_row sample_selection country = Some i /\ col !! i = Some (CNum x) /\
                        y = (x * 100)%float
        end.
Proof.
  destruct (trend_figure get_ylim_default (filtered_by sample_df sample_selection) "Scaler"
              sample_selection) as [ax|e] eqn:E; [|vm_compute in E; discriminate].
  exists ax. split; [reflexivity|].
  apply (trend_line_values get_ylim_default (filtered_by sample_df sample_selection) "Scaler"
           sample_selection sample_selection ax E).
  - exact sample_filtered_wf.
  - vm_compute. reflexivity.
  - intros year col Hy H. unfold years in Hy.
    repeat (apply elem_of_cons in Hy as [->|Hy]);
      [..|by apply elem_of_nil in Hy];
      vm_compute in H; try discriminate H; injection H as <-;
      repeat (apply Forall_cons; split; [vm_compute; reflexivity|]); constructor.
Defined.

Lemma trend_figure_raises_only_on_limit_witness :
  exists drawn,
    plot_countries (filtered_by sample_df sample_selection) "Scaler"
      (Seaborn.color_palette (length sample_selection)) 0 sample_selection ([], []) = Ok drawn /\
    if is_finite ((get_ylim_default drawn.1).2 * 1.1)%float
    then is_ok (trend_figure get_ylim_default (filtered_by sample_df sample_selection) "Scaler"
                  sample_selection) = true
    else trend_figure get_ylim_default (filtered_by sample_df sample_selection) "Scaler"
           sample_selection = Raise ValueError.
Proof.
  apply (trend_figure_raises_only_on_limit get_ylim_default
           (filtered_by sample_df sample_selection) "Scaler" sample_selection sample_selection).
  - exact sample_filtered_wf.
  - vm_compute. reflexivity.
  - apply Forall_forall. intros c Hc. exists c. split; [exact Hc|].
    unfold sample_selection in Hc.
    repeat (apply elem_of_cons in Hc as [->|Hc]); [..|by apply elem_of_nil in Hc]; reflexivity.
  - intros year col Hy H. unfold years in Hy.
    repeat (apply elem_of_cons in Hy as [->|Hy]);
      [..|by apply elem_of_nil in Hy];
      vm_compute in H; try discriminate H; injection H as <-; repeat constructor.
Defined.

Lemma main_stops_without_data_witness :
  main get_ylim_default sample_selection scaler_label
       {| file := Missing; cache := None; page := [] |} =
    (Raise StopException,
     {| file := Missing; cache := None;
        page := [st_error "Data file not found. Please ensure 'Aggregate country with country.xlsx' is in the same directory as this app."] |}) /\
  main get_ylim_default sample_selection scaler_label
       {| file := Unreadable "bad zip"; cache := None; page := [] |} =
    (Raise StopException,
     {| file := Unreadable "bad zip"; cache := None;
        page := [st_error "Error loading data: bad zip"] |}).
Proof.
  split.
  - destruct (main_stops_without_data get_ylim_default sample_selection scaler_label
                {| file := Missing; cache := None; page := [] |} eq_refl) as [H _].
    apply H. reflexivity.
  - destruct (main_stops_without_data get_ylim_default sample_selection scaler_label
                {| file := Unreadable "bad zip"; cache := None; page := [] |} eq_refl) as [_ H].
    apply (H "bad zip"). reflexivity.
Defined.

Lemma main_uses_cache_witness :
  main get_ylim_default sample_selection scaler_label (set_file (Sheet full_df) cached_world) =
    ((main get_ylim_default sample_selection scaler_label cached_world).1,
     set_file (Sheet full_df) (main get_ylim_default sample_selection scaler_label cached_world).2).
Proof.
  apply (main_uses_cache get_ylim_default sample_selection scaler_label cached_world
           sample_df (Sheet full_df)).
  reflexivity.
Defined.

Lemma main_no_selection_witness :
  main get_ylim_default [] scaler_label sample_world =
    (Ok tt, {| file := file sample_world; cache := Some sample_df;
               page := page sample_world
                         ++ [st_warning_select_country; st_preview (df_head 5 sample_df)] |}) /\
  forall name, df_head 5 sample_df !! name = take 5 <$> sample_df !! name.
Proof.
  apply (main_no_selection get_ylim_default scaler_label sample_world sample_df).
  - reflexivity.
  - vm_compute. reflexivity.
  - vm_compute. reflexivity.
Defined.

Lemma main_page_order_witness :
  main get_ylim_default sample_selection scaler_label sample_world =
    match trend_figure get_ylim_default (filtered_by sample_df sample_selection) "Scaler"
            sample_selection with
    | Ok ax =>
        comparison_tab (filtered_by sample_df sample_selection) "Scaler" sample_selection
          {| file := file sample_world; cache := Some sample_df;
             page := page sample_world
                       ++ [st_pills sample_selection; st_title scaler_label; st_pyplot_trend ax] |}
    | Raise e =>
        (Raise e, {| file := file sample_world; cache := Some sample_df;
                     page := page sample_world
                               ++ [st_pills sample_selection; st_title scaler_label] |})
    end.
Proof.
  apply (main_page_order get_ylim_default sample_selection scaler_label "Scaler" sample_world
           sample_df).
  - reflexivity.
  - vm_compute. reflexivity.
  - vm_compute. reflexivity.
  - discriminate.
Defined.

Lemma countries_options_witness :
  exists options,
    countries sample_df = Ok options /\
    NoDup options /\
    (forall c, c ∈ options <-> c ∈ sample_selection) /\
    forall i j a b, i < j -> options !! i = Some (CStr a) -> options !! j = Some (CStr b) ->
      String.ltb a b = true.
Proof.
  apply (countries_options sample_df sample_selection).
  - vm_compute. reflexivity.
  - unfold sample_selection. repeat constructor.
Defined.

Lemma main_country_column_errors_witness :
  main get_ylim_default sample_selection scaler_label
       {| file := Sheet gap_df; cache := None; page := [] |} =
    (Raise TypeError, {| file := Sheet gap_df; cache := Some gap_df; page := [] |}).
Proof.
  assert (gap_df !! "Country" = Some [CStr "Germany"; CNum nan; CStr "Spain"]) as Hc
    by (vm_compute; reflexivity).
  destruct (main_country_column_errors get_ylim_default sample_selection scaler_label
              {| file := Sheet gap_df; cache := None; page := [] |} gap_df eq_refl) as [_ H].
  apply (H [CStr "Germany"; CNum nan; CStr "Spain"] "Germany" nan Hc); set_solver.
Defined.

(** ** The preselected countries *)

(** X19: the preselected countries are the first three options when there
    are three or more and the first option alone otherwise, so they always
    are among the options and are none only when there is no option; with
    fewer than three options, two included, a run on the preselection shows
    no comparison chart but the hint to select two countries. *)
Theorem default_countries_comparison (options : list cell) :
  default_countries options `prefix_of` options /\
  (default_countries options = [] <-> options = []) /\
  (3 <= length options -> length (default_countries options) = 3) /\
  (length options < 3 ->
   default_countries options = take 1 options /\
   forall filtered prefix w,
     comparison_tab filtered prefix (default_countries options) w =
       (Ok tt, with_page w (page w ++ [st_info_select_two]))).
Proof.
  unfold default_countries. destruct (Nat.leb_spec 3 (length options)) as [Hlen|Hlen].
  - split_and!.
    + apply prefix_take.
    + split; [|by intros ->]. by destruct options.
    + intros _. rewrite length_take. lia.
    + intros ?. exfalso. lia.
  - split_and!.
    + apply prefix_take.
    + split; [|by intros ->]. by destruct options.
    + intros ?. exfalso. lia.
    + intros _. split; [done|]. intros filtered prefix w. unfold comparison_tab.
      rewrite decide_False; [done|]. rewrite length_take. lia.
Qed.
